(** * ImpactGuard: the background task lifecycle, session state and DOI check

    A shallow embedding of the parts of the dashboard that carry logic:

    - [run_mock_test] (src/security_tests.py and src/guared.py), the
      simulated assessment that a pool worker runs while the rendering
      thread polls the session state;
    - [initialize_session_state] and [cleanup_threads]
      (src/session_state.py and src/guared.py);
    - [is_valid_doi_format], [retry_request] and [validate_doi]
      (src/guared.py).

    Python values are a small tagged union, dictionaries are finite maps
    keyed by strings, and the worker is written in a state-and-exception
    monad over the session state.  Everything the worker cannot decide by
    itself (what the rendering thread does to the session while the worker
    sleeps, the random draws, the clock, the network) is an oracle that the
    theorems quantify over. *)

From Stdlib Require Import ZArith QArith String Ascii List Lia Lqa.
From stdpp Require Import base gmap strings list pretty.

Set Warnings "-register-all".
Local Open Scope Z_scope.

(** ** Python values *)

(** The two kinds of task handle the code talks about.  The pool hands out
    [concurrent.futures.Future] objects (methods [done], [cancelled],
    [running], [result], ...); [threading.Thread] is the class that has an
    [is_alive] method.  The boolean is the state of the task at the moment
    the handle is inspected. *)
Inductive handle :=
| Future (finished : bool)
| Thread (alive : bool).

Inductive pyval :=
| VNone
| VBool (b : bool)
| VInt (n : Z)
| VFloat (q : Q)
| VStr (s : string)
| VList (l : list pyval)
| VDict (d : gmap string pyval)
| VHandle (h : handle).

(** Truth value of an object, as [not x] and [if x] compute it. *)
Definition truthy (v : pyval) : bool :=
  match v with
  | VNone => false
  | VBool b => b
  | VInt n => negb (n =? 0)
  | VFloat q => negb (Qeq_bool q 0)
  | VStr s => negb (String.eqb s "")
  | VList l => match l with [] => false | _ => true end
  | VDict d => negb (bool_decide (d = ∅))
  | VHandle _ => true
  end.

(** The number a numeric object stands for ([bool] is a subclass of [int]). *)
Definition as_number (v : pyval) : option Q :=
  match v with
  | VBool b => Some (inject_Z (if b then 1 else 0))
  | VInt n => Some (inject_Z n)
  | VFloat q => Some q
  | _ => None
  end.

(** ** Exceptions and the worker monad *)

(** An exception: its class and [str(e)]. *)
Record exn := Exn { exn_class : string; exn_str : string }.

Inductive res (A : Type) :=
| Ok (a : A)
| Raised (e : exn).
Arguments Ok {A} a.
Arguments Raised {A} e.

(** One access of the worker to the shared session state. *)
Inductive event :=
| Got (k : string) (v : pyval)
| Stored (k : string) (v : pyval).

(** The session state together with the history of the worker's accesses
    to it, oldest first. *)
Record world := World { session : gmap string pyval; history : list event }.

Definition M (A : Type) : Type := world -> res A * world.

Definition ret {A} (a : A) : M A := fun w => (Ok a, w).

Definition bind {A B} (m : M A) (f : A -> M B) : M B :=
  fun w => match m w with
           | (Ok a, w') => f a w'
           | (Raised e, w') => (Raised e, w')
           end.

Definition raise {A} (e : exn) : M A := fun w => (Raised e, w).

Notation "x <- m ;; k" := (bind m (fun x => k))
  (at level 100, m at next level, right associativity).
Notation "m ;;; k" := (bind m (fun _ => k))
  (at level 100, right associativity).

(** [try: body except Exception as e: handler e]. *)
Definition try_except {A} (body : M A) (handler : exn -> M A) : M A :=
  fun w => match body w with
           | (Ok a, w') => (Ok a, w')
           | (Raised e, w') => handler e w'
           end.

(** [try: body finally: cleanup]: the cleanup runs on every exit, and the
    result (or exception) of the body is kept unless the cleanup raises. *)
Definition try_finally {A} (body : M A) (cleanup : M unit) : M A :=
  fun w => match body w with
           | (r, w') => match cleanup w' with
                        | (Ok _, w'') => (r, w'')
                        | (Raised e, w'') => (Raised e, w'')
                        end
           end.

Definition KeyError (k : string) : exn := Exn "KeyError" ("'" +:+ k +:+ "'").
Definition TypeError (msg : string) : exn := Exn "TypeError" msg.

(** [st.session_state[k]] and [st.session_state.k]: the value stored under
    [k]; a missing key raises ([KeyError] for the subscript, [AttributeError]
    for the attribute; both are subclasses of [Exception] and the message is
    Streamlit's). *)
Definition session_get (missing : string) (k : string) : M pyval :=
  fun w => match session w !! k with
           | Some v => (Ok v, World (session w) (history w ++ [Got k v]))
           | None => (Raised (Exn missing ("st.session_state has no key " +:+ k)), w)
           end.

(** [st.session_state[k] = v] and [st.session_state.k = v]. *)
Definition session_set (k : string) (v : pyval) : M unit :=
  fun w => (Ok tt, World (<[k := v]> (session w)) (history w ++ [Stored k v])).

(** [d[k]] on a plain dict. *)
Definition getitem (d : gmap string pyval) (k : string) : M pyval :=
  match d !! k with
  | Some v => ret v
  | None => raise (KeyError k)
  end.

Definition as_dict (v : pyval) : M (gmap string pyval) :=
  match v with
  | VDict d => ret d
  | _ => raise (TypeError "object is not subscriptable")
  end.

Definition as_list (v : pyval) : M (list pyval) :=
  match v with
  | VList l => ret l
  | _ => raise (Exn "AttributeError" "object has no attribute 'append'")
  end.

(** [x + n] for an integer literal [n]. *)
Definition add_int (v : pyval) (n : Z) : M pyval :=
  match v with
  | VBool b => ret (VInt ((if b then 1 else 0) + n))
  | VInt m => ret (VInt (m + n))
  | VFloat q => ret (VFloat (q + inject_Z n))
  | _ => raise (TypeError "unsupported operand type(s) for +")
  end.

(** ** The loop of a [for ... in range(n)] with [break] *)

Inductive ctl := Continue | Break.

(** [for i in is: body], where the body may [break] and updates the local
    variables [l]. *)
Fixpoint for_each {L : Type} (body : nat -> L -> M (ctl * L))
    (indices : list nat) (l : L) : M L :=
  match indices with
  | [] => ret l
  | i :: rest =>
      r <- body i l ;;
      match r with
      | (Break, l') => ret l'
      | (Continue, l') => for_each body rest l'
      end
  end.

(** ** What the worker does not control *)

(** Where the rendering thread may run relative to the worker's loop. *)
Inductive point :=
| BeforeCheck (i : nat)
| DuringSleep (i : nat).

(** Where the worker reads the clock. *)
Inductive instant :=
| AtStart
| AtFinding (i : nat)
| AtEnd
| AtFailure.

Record env := Env {
  (** what the rendering thread (or anything else holding the session)
      does to the session state at a given point of iteration [i] *)
  rendering_thread : point -> gmap string pyval -> gmap string pyval;
  (** the value of [random.random()] in iteration [i], in [0, 1) *)
  random_random : nat -> Q;
  (** the raw draw behind [random.choice] in iteration [i] *)
  random_draw : nat -> nat;
  (** [datetime.now().isoformat()] *)
  now_isoformat : instant -> string;
  (** [traceback.format_exc()] *)
  format_exc : exn -> string
}.

Definition Qlt_bool (x y : Q) : bool := negb (Qle_bool y x).

(** The other thread gets to run. *)
Definition interleave (E : env) (p : point) : M unit :=
  fun w => (Ok tt, World (rendering_thread E p (session w)) (history w)).

(** [time.sleep(secs)]: a negative length is a [ValueError]; otherwise the
    worker is suspended and the rendering thread runs. *)
Definition time_sleep (E : env) (i : nat) (secs : Q) : M unit :=
  if Qlt_bool secs 0
  then raise (Exn "ValueError" "sleep length must be non-negative")
  else interleave E (DuringSleep i).

(** [random.choice(seq)]. *)
Definition random_choice {A} (E : env) (i : nat) (seq : list A) : M A :=
  match seq with
  | [] => raise (Exn "IndexError" "Cannot choose from an empty sequence")
  | x :: _ => ret (nth (random_draw E i mod length seq)%nat seq x)
  end.

(** ** [run_mock_test] *)

(** The code exists twice: split over modules (src/security_tests.py and
    src/session_state.py, what src/main.py imports) and as one file
    (src/guared.py).  The two loops of [run_mock_test] are the same
    statement for statement; the versions differ in how they reach the
    session state (subscript or attribute), in the text of [details], in
    where [timestamp] and [target] are filled in, in whether the result is
    also stored in the session, and in the error result. *)
Inductive source := modular | guared.

(** Targets and test vectors are dicts of strings. *)
Definition str_getitem (d : gmap string string) (k : string) : M string :=
  match d !! k with
  | Some v => ret v
  | None => raise (KeyError k)
  end.

(** The catalogue of src/security_tests.py (that of src/guared.py is
    longer; [run_mock_test] takes the list as an argument). *)
Definition get_mock_test_vectors : list (gmap string string) :=
  [ {[ "id" := "sql_injection"; "name" := "SQL Injection";
       "category" := "owasp"; "severity" := "high" ]};
    {[ "id" := "xss"; "name" := "Cross-Site Scripting";
       "category" := "owasp"; "severity" := "medium" ]};
    {[ "id" := "prompt_injection"; "name" := "Prompt Injection";
       "category" := "owasp"; "severity" := "critical" ]} ]%string.

Definition missing_class (f : source) : string :=
  match f with
  | modular => "KeyError"
  | guared => "AttributeError"
  end.

Definition details_text (f : source) (target_name vector_name : string) : string :=
  match f with
  | modular =>
      "Mock vulnerability from " +:+ target_name +:+ " using " +:+ vector_name +:+ "."
  | guared =>
      "Mock vulnerability found in " +:+ target_name +:+ " using " +:+ vector_name
        +:+ " test vector."
  end.

Definition total_steps : nat := 100.

(** [{"low": 1, "medium": 2, "high": 3, "critical": 5}] *)
Definition severity_weight : gmap string Z :=
  {[ "low" := 1; "medium" := 2; "high" := 3; "critical" := 5 ]}%string.

(** [severity_weight.get(severity, 1)] *)
Definition weight_of (severity : string) : Z :=
  default 1 (severity_weight !! severity).

(** [d[k] += n] *)
Definition dict_iadd (d : gmap string pyval) (k : string) (n : Z)
    : M (gmap string pyval) :=
  old <- getitem d k ;;
  new <- add_int old n ;;
  ret (<[k := new]> d).

(** [results["summary"][k] += n]; the summary is the dict held by
    [results], so the update is seen through [results]. *)
Definition summary_iadd (results : gmap string pyval) (k : string) (n : Z)
    : M (gmap string pyval) :=
  sv <- getitem results "summary" ;;
  summary <- as_dict sv ;;
  summary' <- dict_iadd summary k n ;;
  ret (<["summary" := VDict summary']> results).

(** [results["summary"][k] = v] *)
Definition summary_set (results : gmap string pyval) (k : string) (v : pyval)
    : M (gmap string pyval) :=
  sv <- getitem results "summary" ;;
  summary <- as_dict sv ;;
  ret (<["summary" := VDict (<[k := v]> summary)]> results).

(** The progress after iteration [i]: [(i + 1) / total_steps]. *)
Definition progress_after (i : nat) : pyval :=
  VFloat (Z.of_nat (i + 1) # Pos.of_nat total_steps).

(** The branch taken when [random.random() < 0.2]: synthesize one
    vulnerability and update the counters. *)
Definition find_vulnerability (f : source) (E : env)
    (target : gmap string string) (test_vectors : list (gmap string string))
    (i : nat) (results : gmap string pyval) : M (gmap string pyval) :=
  vector <- random_choice E i test_vectors ;;
  severity <- str_getitem vector "severity" ;;
  let weight := weight_of severity in
  vl <- getitem results "vulnerabilities" ;;
  found <- as_list vl ;;
  vector_id <- str_getitem vector "id" ;;
  vector_name <- str_getitem vector "name" ;;
  target_name <- str_getitem target "name" ;;
  let vulnerability : gmap string pyval :=
    {[ "id" := VStr ("VULN-" +:+ pretty (length found + 1)%nat);
       "test_vector" := VStr vector_id;
       "test_name" := VStr vector_name;
       "severity" := VStr severity;
       "details" := VStr (details_text f target_name vector_name);
       "timestamp" := VStr (now_isoformat E (AtFinding i)) ]}%string in
  let results := <["vulnerabilities" := VList (found ++ [VDict vulnerability])]> results in
  n <- session_get (missing_class f) "vulnerabilities_found" ;;
  n' <- add_int n 1 ;;
  session_set "vulnerabilities_found" n' ;;;
  results <- summary_iadd results "vulnerabilities_found" 1 ;;
  summary_iadd results "risk_score" weight.

(** The body of [for i in range(total_steps)]. *)
Definition tick (f : source) (E : env)
    (target : gmap string string) (test_vectors : list (gmap string string))
    (step_sleep : Q) (i : nat) (results : gmap string pyval)
    : M (ctl * gmap string pyval) :=
  interleave E (BeforeCheck i) ;;;
  running <- session_get (missing_class f) "running_test" ;;
  if negb (truthy running) then ret (Break, results)
  else
    time_sleep E i step_sleep ;;;
    session_set "progress" (progress_after i) ;;;
    if Qlt_bool (random_random E i) (2 # 10)
    then
      results <- find_vulnerability f E target test_vectors i results ;;
      ret (Continue, results)
    else ret (Continue, results).

(** The [try] block. *)
Definition run_mock_test_try (f : source) (E : env)
    (target : gmap string string) (test_vectors : list (gmap string string))
    (duration : Q) : M pyval :=
  session_set "progress" (VInt 0) ;;;
  session_set "vulnerabilities_found" (VInt 0) ;;;
  session_set "running_test" (VBool true) ;;;
  (* the log line formats target['name'] *)
  target_name <- str_getitem target "name" ;;
  let summary : gmap string pyval :=
    {[ "total_tests" := VInt 0; "vulnerabilities_found" := VInt 0;
       "risk_score" := VInt 0 ]}%string in
  let results : gmap string pyval :=
    match f with
    | modular =>
        {[ "summary" := VDict summary; "vulnerabilities" := VList [];
           "timestamp" := VStr (now_isoformat E AtStart);
           "target" := VStr target_name ]}%string
    | guared =>
        {[ "summary" := VDict summary; "vulnerabilities" := VList [];
           "test_details" := VDict ∅ ]}%string
    end in
  let step_sleep := (duration / inject_Z (Z.of_nat total_steps))%Q in
  results <- for_each (tick f E target test_vectors step_sleep)
               (seq 0 total_steps) results ;;
  results <- summary_set results "total_tests"
               (VInt (Z.of_nat (length test_vectors) * 10)) ;;
  match f with
  | modular => ret (VDict results)
  | guared =>
      let results := <["timestamp" := VStr (now_isoformat E AtEnd)]> results in
      target_name <- str_getitem target "name" ;;
      let results := <["target" := VStr target_name]> results in
      session_set "test_results" (VDict results) ;;;
      ret (VDict results)
  end.

(** The [except Exception as e] block. *)
Definition run_mock_test_except (f : source) (E : env) (e : exn) : M pyval :=
  match f with
  | modular =>
      session_set "error_message"
        (VStr ("Test execution failed: " +:+ exn_str e)) ;;;
      ret (VDict {[ "error" := VBool true;
                    "error_message" := VStr (exn_str e) ]}%string)
  | guared =>
      let error_details : gmap string pyval :=
        {[ "error" := VBool true;
           "error_message" := VStr (exn_str e);
           "traceback" := VStr (format_exc E e);
           "timestamp" := VStr (now_isoformat E AtFailure) ]}%string in
      session_set "error_message"
        (VStr ("Test execution failed: " +:+ exn_str e)) ;;;
      ret (VDict error_details)
  end.

(** The [finally] block. *)
Definition run_mock_test_finally : M unit :=
  session_set "running_test" (VBool false).

Definition run_mock_test (f : source) (E : env)
    (target : gmap string string) (test_vectors : list (gmap string string))
    (duration : Q) : M pyval :=
  try_finally
    (try_except (run_mock_test_try f E target test_vectors duration)
                (run_mock_test_except f E))
    run_mock_test_finally.

(** ** Session state: defaults and handle cleanup *)

(** [st.session_state.setdefault(k, v)], which is also what
    [if k not in st.session_state: st.session_state.k = v] does. *)
Definition setdefault (k : string) (v : pyval) (s : gmap string pyval)
    : gmap string pyval :=
  match s !! k with
  | Some _ => s
  | None => <[k := v]> s
  end.

(** The keys and defaults, in the order of the statements (the same in both
    versions). *)
Definition session_defaults : list (string * pyval) :=
  [ ("targets", VList []);
    ("test_results", VDict ∅);
    ("running_test", VBool false);
    ("progress", VInt 0);
    ("vulnerabilities_found", VInt 0);
    ("current_theme", VStr "dark");
    ("current_page", VStr "Dashboard");
    ("active_threads", VList []);
    ("error_message", VNone);
    ("bias_results", VDict ∅);
    ("show_bias_results", VBool false);
    ("carbon_tracking_active", VBool false);
    ("carbon_measurements", VList []);
    ("VALIDATION_STRICTNESS", VInt 2);
    ("reports", VList []);
    ("insights", VList []) ]%string.

(** One defaulting statement after the other.  None of them can raise on a
    dict, so the [except] branch of the source is never entered. *)
Definition initialize_session_state (s : gmap string pyval) : gmap string pyval :=
  foldl (fun s kv => setdefault (fst kv) (snd kv) s) s session_defaults.

(** [thr.is_alive()]: only [threading.Thread] has the method. *)
Definition is_alive (v : pyval) : res bool :=
  match v with
  | VHandle (Thread alive) => Ok alive
  | _ => Raised (Exn "AttributeError" "object has no attribute 'is_alive'")
  end.

(** [[thr for thr in active if thr.is_alive()]] *)
Fixpoint keep_alive (active : list pyval) : res (list pyval) :=
  match active with
  | [] => Ok []
  | thr :: rest =>
      match is_alive thr with
      | Raised e => Raised e
      | Ok b =>
          match keep_alive rest with
          | Raised e => Raised e
          | Ok kept => Ok (if b then thr :: kept else kept)
          end
      end
  end.

(** The elements a [for] sees in an object. *)
Definition iterate (v : pyval) : res (list pyval) :=
  match v with
  | VList l => Ok l
  | VStr s => Ok (map (fun c => VStr (String c EmptyString)) (list_ascii_of_string s))
  | VDict d => Ok (map (fun kv => VStr (fst kv)) (map_to_list d))
  | _ => Raised (TypeError "object is not iterable")
  end.

Definition filter_alive (active : pyval) : res (list pyval) :=
  match iterate active with
  | Ok l => keep_alive l
  | Raised e => Raised e
  end.

(** [cleanup_threads]: the exception handler only logs, so a failing filter
    leaves the session state as it was. *)
Definition cleanup_threads (f : source) (s : gmap string pyval)
    : gmap string pyval :=
  match f with
  | modular =>
      let active := default (VList []) (s !! "active_threads") in
      match filter_alive active with
      | Ok kept => <["active_threads" := VList kept]> s
      | Raised _ => s
      end
  | guared =>
      match s !! "active_threads" with
      | Some active =>
          match filter_alive active with
          | Ok kept => <["active_threads" := VList kept]> s
          | Raised _ => s
          end
      | None => s
      end
  end.

(** [executor.submit(run_mock_test, ...)] followed by
    [active_threads.append(future)]: what [start_security_test] and
    [submit_test] leave in the list is the pool's future. *)
Definition track (future : handle) (s : gmap string pyval) : gmap string pyval :=
  match default (VList []) (s !! "active_threads") with
  | VList l => <["active_threads" := VList (l ++ [VHandle future])]> s
  | _ => s
  end.

(** Whether the task behind a handle has finished. *)
Definition finished_handle (v : pyval) : bool :=
  match v with
  | VHandle (Future finished) => finished
  | VHandle (Thread alive) => negb alive
  | _ => false
  end.

(** ** The regular expressions used by the citation helpers *)

(** The fragment of [re] syntax that occurs: a pattern is a sequence of
    anchors and repeated one-character atoms.  Strings are sequences of
    code points below 256; on those, [\d] is [0-9] and ignoring case only
    identifies [a-z] with [A-Z]. *)
Inductive set_item :=
| SChar (c : ascii)
| SRange (lo hi : ascii).

Inductive atom :=
| Literal (c : ascii)
| Any
| Digit
| In (items : list set_item).

Inductive item :=
| At_beginning
| At_end
| Repeat (lo : nat) (hi : option nat) (a : atom).

Definition code (c : ascii) : N := N_of_ascii c.

Definition in_range (lo hi c : ascii) : bool :=
  ((code lo <=? code c) && (code c <=? code hi))%N.

Definition to_lower (c : ascii) : ascii :=
  if in_range "A" "Z" c then ascii_of_N (code c + 32) else c.

Definition to_upper (c : ascii) : ascii :=
  if in_range "a" "z" c then ascii_of_N (code c - 32) else c.

Definition set_item_matches (it : set_item) (c : ascii) : bool :=
  match it with
  | SChar x => Ascii.eqb c x
  | SRange lo hi => in_range lo hi c
  end.

Definition newline : ascii := "010"%char.

(** Whether one character matches an atom; with [re.IGNORECASE] a
    character matches when it or its other case does. *)
Definition char_matches (ignorecase : bool) (a : atom) (c : ascii) : bool :=
  match a with
  | Literal x =>
      if ignorecase then Ascii.eqb (to_lower c) (to_lower x) else Ascii.eqb c x
  | Any => negb (Ascii.eqb c newline)
  | Digit => in_range "0" "9" c
  | In items =>
      existsb (fun it => set_item_matches it c) items
      || (ignorecase
          && (existsb (fun it => set_item_matches it (to_lower c)) items
              || existsb (fun it => set_item_matches it (to_upper c)) items))
  end.

(** [x{lo,hi}] followed by the rest of the pattern [k]: some number of
    characters between [lo] and [hi] matches [x] and the rest matches
    after them. *)
Fixpoint match_repeat (ok : ascii -> bool) (lo : nat) (hi : option nat)
    (k : nat -> list ascii -> bool) (pos : nat) (s : list ascii) : bool :=
  (match lo with O => k pos s | S _ => false end)
  || match hi, s with
     | Some O, _ => false
     | _, [] => false
     | _, c :: s' => ok c && match_repeat ok (pred lo) (option_map pred hi) k (S pos) s'
     end.

(** [$] without [re.MULTILINE]: at the end of the string, or just before
    a newline that ends the string. *)
Definition at_end (s : list ascii) : bool :=
  match s with
  | [] => true
  | [c] => Ascii.eqb c newline
  | _ => false
  end.

Fixpoint match_here (ignorecase : bool) (p : list item) (pos : nat)
    (s : list ascii) : bool :=
  match p with
  | [] => true
  | At_beginning :: p' => Nat.eqb pos 0 && match_here ignorecase p' pos s
  | At_end :: p' => at_end s && match_here ignorecase p' pos s
  | Repeat lo hi a :: p' =>
      match_repeat (char_matches ignorecase a) lo hi (match_here ignorecase p') pos s
  end.

(** [re.match(pattern, s, flags) is not None]: a match that starts at the
    first character. *)
Definition re_match (p : list item) (ignorecase : bool) (s : string) : bool :=
  match_here ignorecase p 0 (list_ascii_of_string s).

Definition once (a : atom) : item := Repeat 1 (Some 1%nat) a.

(** [r'^10.\d{4,9}/[-._;()/:A-Z0-9]+$'] *)
Definition doi_pattern : list item :=
  [ At_beginning;
    once (Literal "1"); once (Literal "0"); once Any;
    Repeat 4 (Some 9%nat) Digit;
    once (Literal "/");
    Repeat 1 None
      (In [ SChar "-"; SChar "."; SChar "_"; SChar ";"; SChar "("; SChar ")";
            SChar "/"; SChar ":"; SRange "A" "Z"; SRange "0" "9" ]);
    At_end ]%char.

Definition isinstance_str (v : pyval) : bool :=
  match v with
  | VStr _ => true
  | _ => false
  end.

Definition is_valid_doi_format (doi : pyval) : bool :=
  if negb (truthy doi) || negb (isinstance_str doi) then false
  else
    match doi with
    | VStr s => re_match doi_pattern true s
    | _ => false
    end.

(** ** The network *)

Record request := Request { req_method : string; req_url : string }.

Inductive outcome :=
| Response (status_code : Z)
| RequestException.

(** The requests sent so far and the pauses taken, oldest first. *)
Record net := Net { sent : list request; slept : list Z }.

(** [for attempt in range(retries)] of [retry_request], for a method that
    is ['head'] or ['get'].  [network] answers a request given the earlier
    ones. *)
Fixpoint retry_attempts (network : list request -> request -> outcome)
    (rq : request) (attempts : list nat) (n : net) : option Z * net :=
  match attempts with
  | [] => (None, n)
  | attempt :: rest =>
      let n' := Net (sent n ++ [rq]) (slept n) in
      match network (sent n) rq with
      | Response status_code =>
          if status_code =? 200 then (Some status_code, n')
          else retry_attempts network rq rest n'
      | RequestException =>
          retry_attempts network rq rest
            (Net (sent n') (slept n' ++ [2 ^ Z.of_nat attempt]))
      end
  end.

(** [retry_request(url, method, retries)]: the status of the response
    that is returned, or [None]. *)
Definition retry_request (network : list request -> request -> outcome)
    (url method : string) (retries : nat) (n : net) : option Z * net :=
  if String.eqb method "head" || String.eqb method "get"
  then retry_attempts network (Request method url) (seq 0 retries) n
  else (None, n).

Definition validate_doi (network : list request -> request -> outcome)
    (doi : pyval) (n : net) : bool * net :=
  if negb (is_valid_doi_format doi) then (false, n)
  else
    match doi with
    | VStr s =>
        let url := "https://doi.org/" +:+ s in
        match retry_request network url "head" 3 n with
        | (Some _, n') => (true, n')
        | (None, n') => (false, n')
        end
    | _ => (false, n)
    end.

(** ** Observations on a run *)

(** The values the worker read from the cancellation flag, in order. *)
Definition flag_reads (h : list event) : list pyval :=
  omap (fun e => match e with
                 | Got k v => if String.eqb k "running_test" then Some v else None
                 | Stored _ _ => None
                 end) h.

(** The values the worker wrote to the shared progress cell, in order. *)
Definition progress_writes (h : list event) : list pyval :=
  omap (fun e => match e with
                 | Stored k v => if String.eqb k "progress" then Some v else None
                 | Got _ _ => None
                 end) h.

(** A run started on session state [s]: what it returns, the session state
    it leaves and its accesses to the session state. *)
Definition run (f : source) (E : env) (target : gmap string string)
    (test_vectors : list (gmap string string)) (duration : Q)
    (s : gmap string pyval) : res pyval * world :=
  run_mock_test f E target test_vectors duration (World s []).

(** The run was not cancelled: the flag was read once per step, and was
    true every time. *)
Definition flag_stayed_true (h : list event) : Prop :=
  length (flag_reads h) = total_steps /\ forallb truthy (flag_reads h) = true.

(** The run was cancelled: some check of the flag found it false. *)
Definition cancelled (h : list event) : bool :=
  existsb (fun v => negb (truthy v)) (flag_reads h).

Definition non_decreasing (l : list pyval) : Prop :=
  forall (i j : nat) (x y : pyval),
    (i <= j)%nat -> l !! i = Some x -> l !! j = Some y ->
    exists p q : Q, as_number x = Some p /\ as_number y = Some q /\ (p <= q)%Q.

(** The weight of a reported vulnerability, by its [severity] field. *)
Definition vulnerability_weight (v : pyval) : Z :=
  match v with
  | VDict d =>
      match d !! "severity" with
      | Some (VStr severity) => weight_of severity
      | _ => 0
      end
  | _ => 0
  end.

(** A reported vulnerability is a dict with a string under [severity]. *)
Definition has_severity (v : pyval) : Prop :=
  exists (d : gmap string pyval) (severity : string),
    v = VDict d /\ d !! "severity" = Some (VStr severity).

Definition total_weight (found : list pyval) : Z :=
  foldr (fun v acc => vulnerability_weight v + acc) 0 found.

(** ** A program logic for the worker monad *)

(** [spec m P]: from every world, [m] appends some accesses [evs] to the
    history and ends with a result [r] such that [P r evs]. *)
Definition spec {A} (m : M A) (P : res A -> list event -> Prop) : Prop :=
  forall w, exists evs,
    history (snd (m w)) = history w ++ evs /\ P (fst (m w)) evs.

(** The events say nothing about the flag or the progress cell. *)
Definition quiet (evs : list event) : Prop :=
  flag_reads evs = [] /\ progress_writes evs = [].

Definition summary_keys : gset string :=
  {[ "total_tests"; "vulnerabilities_found"; "risk_score" ]}%string.

(** What the loop maintains of the local [results] dict, starting from
    [r0]: the findings so far, their count and their total weight. *)
Definition results_inv (r0 r : gmap string pyval) : Prop :=
  dom r = dom r0 /\
  (forall k : string, k <> "summary"%string -> k <> "vulnerabilities"%string ->
                      r !! k = r0 !! k) /\
  exists (found : list pyval) (sm : gmap string pyval),
    Forall has_severity found /\
    r !! "vulnerabilities" = Some (VList found) /\
    r !! "summary" = Some (VDict sm) /\
    sm !! "risk_score" = Some (VInt (total_weight found)) /\
    sm !! "vulnerabilities_found" = Some (VInt (Z.of_nat (length found))) /\
    sm !! "total_tests" = Some (VInt 0) /\
    dom sm = summary_keys.

(** What one iteration does, by the way it ends. *)
Definition tick_post (step_sleep : Q) (i : nat) (r0 : gmap string pyval)
    (out : res (ctl * gmap string pyval)) (evs : list event) : Prop :=
  match out with
  | Ok (Break, r') =>
      results_inv r0 r' /\ progress_writes evs = [] /\
      exists v, flag_reads evs = [v] /\ truthy v = false
  | Ok (Continue, r') =>
      results_inv r0 r' /\ progress_writes evs = [progress_after i] /\
      Qlt_bool step_sleep 0 = false /\
      exists v, flag_reads evs = [v] /\ truthy v = true
  | Raised _ =>
      (progress_writes evs = [] /\ flag_reads evs = []) \/
      (exists v, flag_reads evs = [v] /\ truthy v = true /\
         ((progress_writes evs = [] /\ Qlt_bool step_sleep 0 = true) \/
          (progress_writes evs = [progress_after i] /\
           Qlt_bool step_sleep 0 = false)))
  end.

(** What the loop over [len] steps from step [a] does: [m] steps wrote
    their progress, each after a check that found the flag true; then the
    loop ended, either after the last step, or by a check that found the
    flag false, or by an exception. *)
Definition loop_post (step_sleep : Q) (a len : nat) (r0 : gmap string pyval)
    (out : res (gmap string pyval)) (evs : list event) : Prop :=
  exists (m : nat) (vs tail : list pyval),
    (m <= len)%nat /\
    progress_writes evs = map progress_after (seq a m) /\
    flag_reads evs = vs ++ tail /\
    length vs = m /\
    forallb truthy vs = true /\
    match out with
    | Ok r' =>
        results_inv r0 r' /\
        ((m = len /\ tail = []) \/
         ((m < len)%nat /\ exists v, tail = [v] /\ truthy v = false))
    | Raised _ =>
        tail = [] \/
        (m = 0%nat /\ exists v, tail = [v] /\ truthy v = true /\
                               Qlt_bool step_sleep 0 = true)
    end.

(** The keys of the dict a run returns when its [try] block ends without
    an exception. *)
Definition result_keys (f : source) : gset string :=
  match f with
  | modular => {[ "summary"; "vulnerabilities"; "timestamp"; "target" ]}
  | guared =>
      {[ "summary"; "vulnerabilities"; "test_details"; "timestamp"; "target" ]}
  end%string.

(** Such a dict, for [n] test vectors. *)
Definition normal_result (f : source) (n : nat) (v : pyval) : Prop :=
  exists (r : gmap string pyval) (found : list pyval) (sm : gmap string pyval),
    v = VDict r /\
    dom r = result_keys f /\
    Forall has_severity found /\
    r !! "vulnerabilities" = Some (VList found) /\
    r !! "summary" = Some (VDict sm) /\
    sm !! "risk_score" = Some (VInt (total_weight found)) /\
    sm !! "vulnerabilities_found" = Some (VInt (Z.of_nat (length found))) /\
    sm !! "total_tests" = Some (VInt (Z.of_nat n * 10)) /\
    dom sm = summary_keys.

(** What the [try] block does, by the way it ends. *)
Definition try_post (f : source) (n : nat) (out : res pyval)
    (evs : list event) : Prop :=
  exists (m : nat) (vs tail : list pyval),
    (m <= total_steps)%nat /\
    progress_writes evs = VInt 0 :: map progress_after (seq 0 m) /\
    flag_reads evs = vs ++ tail /\
    length vs = m /\
    forallb truthy vs = true /\
    match out with
    | Ok v =>
        normal_result f n v /\
        ((m = total_steps /\ tail = []) \/
         ((m < total_steps)%nat /\ exists x, tail = [x] /\ truthy x = false))
    | Raised _ =>
        tail = [] \/ (m = 0%nat /\ exists x, tail = [x] /\ truthy x = true)
    end.

(** The computation ended without an exception. *)
Definition returned {A} (r : res A) : bool :=
  match r with
  | Ok _ => true
  | Raised _ => false
  end.

(** The dict inside a returned value, and a dict inside a dict. *)
Definition result_dict (out : res pyval) : gmap string pyval :=
  match out with
  | Ok (VDict r) => r
  | _ => ∅
  end.

Definition subdict (r : gmap string pyval) (k : string) : gmap string pyval :=
  match r !! k with
  | Some (VDict d) => d
  | _ => ∅
  end.

(** ** Sample runs *)

Definition demo_target : gmap string string := {[ "name" := "demo-model" ]}%string.

(** Nobody touches the session; every second step finds something. *)
Definition undisturbed : env :=
  Env (fun _ s => s)
      (fun i => if Nat.even i then 1 # 10 else 1 # 2)
      (fun i => i)
      (fun _ => "2024-01-01T00:00:00"%string)
      (fun _ => "Traceback (most recent call last): ..."%string).

(** The rendering thread clears the flag while the worker sleeps in
    iteration [k]. *)
Definition cancel_during (k : nat) : env :=
  Env (fun p s =>
         match p with
         | DuringSleep i =>
             if Nat.eqb i k then <["running_test" := VBool false]> s else s
         | BeforeCheck _ => s
         end)
      (fun i => if Nat.even i then 1 # 10 else 1 # 2)
      (fun i => i)
      (fun _ => "2024-01-01T00:00:00"%string)
      (fun _ => "Traceback (most recent call last): ..."%string).

(** Nobody touches the session; every step finds something. *)
Definition always_hit : env :=
  Env (fun _ s => s)
      (fun _ => 0%Q)
      (fun i => i)
      (fun _ => "2024-01-01T00:00:00"%string)
      (fun _ => "Traceback (most recent call last): ..."%string).

(** A session in which two tests were started; the first has finished. *)
Definition two_tests_started : gmap string pyval :=
  track (Future false) (track (Future true) (initialize_session_state ∅)).

(** ** More of the citation helpers *)

(** [r'^https?://'] *)
Definition url_pattern : list item :=
  [ At_beginning;
    once (Literal "h"); once (Literal "t"); once (Literal "t"); once (Literal "p");
    Repeat 0 (Some 1%nat) (Literal "s");
    once (Literal ":"); once (Literal "/"); once (Literal "/") ]%char.

Definition validate_url (network : list request -> request -> outcome)
    (url : pyval) (n : net) : bool * net :=
  if negb (truthy url) || negb (isinstance_str url) then (false, n)
  else
    match url with
    | VStr s =>
        if negb (re_match url_pattern false s) then (false, n)
        else
          match retry_request network s "head" 3 n with
          | (Some _, n') => (true, n')
          | (None, n') => (false, n')
          end
    | _ => (false, n)
    end.

(** The answer the network gives to the request [rq] when it is sent for
    the [j]-th time (from 0) after the requests of [n]. *)
Definition answer (network : list request -> request -> outcome)
    (rq : request) (n : net) (j : nat) : outcome :=
  network (sent n ++ replicate j rq) rq.

Definition is_ok_response (o : outcome) : bool :=
  match o with
  | Response status_code => status_code =? 200
  | RequestException => false
  end.

Definition is_request_exception (o : outcome) : bool :=
  match o with
  | Response _ => false
  | RequestException => true
  end.

(** ** Themes *)

Definition dark_theme : gmap string string :=
  {[ "bg_color" := "#121212"; "card_bg" := "#1E1E1E"; "primary" := "#003b7a";
     "secondary" := "#BB86FC"; "accent" := "#03DAC6"; "warning" := "#FF9800";
     "error" := "#CF6679"; "text" := "#FFFFFF" ]}%string.

Definition light_theme : gmap string string :=
  {[ "bg_color" := "#F5F5F5"; "card_bg" := "#FFFFFF"; "primary" := "#003b7a";
     "secondary" := "#7C4DFF"; "accent" := "#00BCD4"; "warning" := "#FF9800";
     "error" := "#F44336"; "text" := "#212121" ]}%string.

(** The same table in src/theme.py and in src/guared.py. *)
Definition themes : gmap string (gmap string string) :=
  {[ "dark" := dark_theme; "light" := light_theme ]}%string.

(** [themes[k]]: lists and dicts cannot be hashed; any other object that is
    not one of the two names is a missing key. *)
Definition themes_getitem (k : pyval) : res (gmap string string) :=
  match k with
  | VStr name =>
      match themes !! name with
      | Some palette => Ok palette
      | None => Raised (KeyError name)
      end
  | VList _ | VDict _ => Raised (TypeError "unhashable type")
  | _ => Raised (Exn "KeyError" "")
  end.

(** [get_theme]: src/theme.py reads the name with
    [st.session_state.get("current_theme", "dark")], src/guared.py with
    [st.session_state.current_theme]; both fall back to [themes["dark"]] on
    any exception. *)
Definition get_theme (f : source) (s : gmap string pyval) : gmap string string :=
  let name : res pyval :=
    match f with
    | modular => Ok (default (VStr "dark") (s !! "current_theme"))
    | guared =>
        match s !! "current_theme" with
        | Some v => Ok v
        | None => Raised (Exn "AttributeError" "st.session_state has no attribute current_theme")
        end
    end in
  let found :=
    match name with
    | Ok k => themes_getitem k
    | Raised e => Raised e
    end in
  match found with
  | Ok palette => palette
  | Raised _ => default ∅ (themes !! "dark")
  end.

(** [v == t] for a string [t]. *)
Definition eq_str (v : pyval) (t : string) : bool :=
  match v with
  | VStr s => String.eqb s t
  | _ => false
  end.

(** The statement under the "Toggle Theme" button of [sidebar_navigation]
    (src/navigation.py, lines 63-64; src/guared.py, line 661):
    [current_theme = "light" if current == "dark" else "dark"]. *)
Definition toggle_theme (f : source) (s : gmap string pyval)
    : res (gmap string pyval) :=
  let current : res pyval :=
    match f with
    | modular => Ok (default (VStr "dark") (s !! "current_theme"))
    | guared =>
        match s !! "current_theme" with
        | Some v => Ok v
        | None => Raised (Exn "AttributeError" "st.session_state has no attribute current_theme")
        end
    end in
  match current with
  | Ok v =>
      Ok (<["current_theme" := VStr (if eq_str v "dark" then "light" else "dark")]> s)
  | Raised e => Raised e
  end.

(** ** Completeness of article metadata *)

Fixpoint starts_with (p s : list ascii) : bool :=
  match p, s with
  | [], _ => true
  | _ :: _, [] => false
  | a :: p', b :: s' => Ascii.eqb a b && starts_with p' s'
  end.

Fixpoint occurs_in (p s : list ascii) : bool :=
  starts_with p s
  || match s with
     | [] => false
     | _ :: s' => occurs_in p s'
     end.

(** [needle in hay] for two strings. *)
Definition str_contains (needle hay : string) : bool :=
  occurs_in (list_ascii_of_string needle) (list_ascii_of_string hay).

(** [field in article] for a string [field]. *)
Definition contains_str (article : pyval) (field : string) : res bool :=
  match article with
  | VDict d => Ok (bool_decide (is_Some (d !! field)))
  | VList l => Ok (existsb (fun v => eq_str v field) l)
  | VStr s => Ok (str_contains field s)
  | _ => Raised (TypeError "argument is not iterable")
  end.

(** [article[field]] for a string [field]. *)
Definition subscript_str (article : pyval) (field : string) : res pyval :=
  match article with
  | VDict d =>
      match d !! field with
      | Some v => Ok v
      | None => Raised (KeyError field)
      end
  | VList _ | VStr _ => Raised (TypeError "indices must be integers")
  | _ => Raised (TypeError "object is not subscriptable")
  end.

(** [field not in article or not article[field]] *)
Definition field_missing (article : pyval) (field : string) : res bool :=
  match contains_str article field with
  | Raised e => Raised e
  | Ok false => Ok true
  | Ok true =>
      match subscript_str article field with
      | Raised e => Raised e
      | Ok v => Ok (negb (truthy v))
      end
  end.

(** [[field for field in fields if <field is missing>]] *)
Fixpoint missing_among (article : pyval) (fields : list string)
    : res (list string) :=
  match fields with
  | [] => Ok []
  | field :: rest =>
      match field_missing article field with
      | Raised e => Raised e
      | Ok b =>
          match missing_among article rest with
          | Raised e => Raised e
          | Ok missing => Ok (if b then field :: missing else missing)
          end
      end
  end.

Definition essential_fields : list string := ["author"; "title"; "issued"]%string.

(** [n <= v] for an integer [n]. *)
Definition int_le (n : Z) (v : pyval) : res bool :=
  match v with
  | VBool b => Ok (n <=? (if b then 1 else 0))
  | VInt k => Ok (n <=? k)
  | VFloat q => Ok (Qle_bool (inject_Z n) q)
  | _ => Raised (TypeError "'<=' not supported")
  end.

Definition is_metadata_complete (s : gmap string pyval) (article : pyval)
    : res bool :=
  if negb (truthy article) then Ok false
  else
    match missing_among article essential_fields with
    | Raised e => Raised e
    | Ok missing_fields =>
        match s !! "VALIDATION_STRICTNESS" with
        | None =>
            Raised (Exn "AttributeError"
                      "st.session_state has no attribute VALIDATION_STRICTNESS")
        | Some strictness => int_le (Z.of_nat (length missing_fields)) strictness
        end
    end.

(** The field is there and holds something true. *)
Definition has_field (a : gmap string pyval) (field : string) : bool :=
  match a !! field with
  | Some v => truthy v
  | None => false
  end.

(** ** [CarbonImpactTracker] *)

(** Floating-point arithmetic is the platform's: a float is the rational
    it denotes, and the operations, which round, are taken as they come.
    [literal q] is the float that the decimal literal [q] denotes. *)
Record float_arith := FloatArith {
  fadd : Q -> Q -> Q;
  fmul : Q -> Q -> Q;
  fdiv : Q -> Q -> Q;
  literal : Q -> Q
}.

(** The attributes of the object. *)
Record carbon_tracker := CarbonImpactTracker {
  tracker : option (gmap string pyval);
  measurements : list Q;
  total_emissions : Q;
  is_tracking : bool
}.

(** [__init__]; [0.0] is zero. *)
Definition new_carbon_tracker : carbon_tracker :=
  CarbonImpactTracker None [] 0 false.

Definition initialize_tracker (project_name : string) (t : carbon_tracker)
    : bool * carbon_tracker :=
  (true,
   CarbonImpactTracker
     (Some {[ "project_name" := VStr project_name; "initialized" := VBool true ]})
     (measurements t) (total_emissions t) (is_tracking t)).

Definition start_tracking (t : carbon_tracker) : bool * carbon_tracker :=
  match tracker t with
  | None => (false, t)
  | Some _ =>
      (true, CarbonImpactTracker (tracker t) (measurements t) (total_emissions t) true)
  end.

(** [drawn] is the value that [random.uniform(0.001, 0.1)] returns. *)
Definition stop_tracking (F : float_arith) (drawn : Q) (t : carbon_tracker)
    : Q * carbon_tracker :=
  if negb (is_tracking t) || match tracker t with None => true | Some _ => false end
  then (0%Q, t)
  else
    let emissions := drawn in
    (emissions,
     CarbonImpactTracker (tracker t) (measurements t ++ [emissions])
       (fadd F (total_emissions t) emissions) false).

(** [get_total_emissions] *)
Definition get_total_emissions (t : carbon_tracker) : Q := total_emissions t.


(** A call of one of the methods that change the object. *)
Inductive tracker_call :=
| Initialize (project_name : string)
| Start
| Stop (drawn : Q).

Definition call_tracker (F : float_arith) (t : carbon_tracker) (c : tracker_call)
    : carbon_tracker :=
  match c with
  | Initialize project_name => snd (initialize_tracker project_name t)
  | Start => snd (start_tracking t)
  | Stop drawn => snd (stop_tracking F drawn t)
  end.




(** No draw of [random.uniform(0.001, 0.1)] is negative. *)
Definition draws_not_negative (calls : list tracker_call) : Prop :=
  Forall (fun c => match c with
                   | Stop drawn => (0 <= drawn)%Q
                   | _ => True
                   end) calls.

(** Adding a float that is not negative does not make a float smaller:
    the exact sum is no smaller than either term, and rounding keeps the
    order and the floats. *)
Definition rounds_monotonically (F : float_arith) : Prop :=
  forall x y : Q,
    (0 <= x)%Q -> (0 <= y)%Q -> (x <= fadd F x y)%Q /\ (y <= fadd F x y)%Q.

(** Arithmetic without rounding. *)
Definition exact_arith : float_arith := FloatArith Qplus Qmult Qdiv (fun q => q).

(** A session with the tracker: a stop before any start, two stops after
    one start, a start before the second measurement. *)
Definition sample_tracker_calls : list tracker_call :=
  [ Stop (1 # 20); Start; Initialize "demo"; Start; Stop (1 # 20); Stop (1 # 30);
    Start; Stop (1 # 1000) ].

(** ** [generate_insight] *)

(** [str.isspace] on the code points below 256. *)
Definition is_space (c : ascii) : bool :=
  (((9 <=? code c) && (code c <=? 13)) || ((28 <=? code c) && (code c <=? 32))
   || (code c =? 133) || (code c =? 160))%N.

Fixpoint lstrip (s : list ascii) : list ascii :=
  match s with
  | [] => []
  | c :: s' => if is_space c then lstrip s' else s
  end.

(** [s.strip()] *)
Definition str_strip (s : string) : string :=
  string_of_list_ascii (rev (lstrip (rev (lstrip (list_ascii_of_string s))))).

Definition NL : string := String newline EmptyString.

Record chat_request := ChatRequest {
  model : string;
  system_content : string;
  user_content : string;
  max_tokens : pyval;
  temperature : pyval
}.

(** What [openai.ChatCompletion.create] followed by
    [response['choices'][0]['message']['content']] gives: the text, or the
    exception raised on the way. *)
Inductive reply :=
| Content (text : string)
| ApiError (e : exn).

(** The calls made so far and the pauses taken, oldest first. *)
Record api := Api { calls : list chat_request; naps : list Z }.

Definition insight_request (user category prompt_text response_text
    knowledge_base context : string) (temperature max_tokens : pyval)
    : chat_request :=
  let system_prompt := knowledge_base +:+ NL +:+ NL +:+ context in
  let user_prompt :=
    NL +:+ "        Given the following information:" +:+ NL
    +:+ "        User: " +:+ user +:+ NL
    +:+ "        Category: " +:+ category +:+ NL
    +:+ "        Prompt: " +:+ prompt_text +:+ NL
    +:+ "        Response: " +:+ response_text +:+ NL
    +:+ "        Generate a concise, meaningful insight based on this information."
    +:+ NL +:+ "        " in
  ChatRequest "gpt-3.5-turbo" system_prompt user_prompt max_tokens temperature.

(** [for attempt in range(3)]: the text returned from inside the loop,
    [None] when the loop runs out, or the exception raised again. *)
Fixpoint insight_attempts (create : list chat_request -> chat_request -> reply)
    (rq : chat_request) (attempts : list nat) (st : api)
    : res (option string) * api :=
  match attempts with
  | [] => (Ok None, st)
  | attempt :: rest =>
      let st' := Api (calls st ++ [rq]) (naps st) in
      match create (calls st) rq with
      | Content text => (Ok (Some (str_strip text)), st')
      | ApiError e =>
          if str_contains "RateLimitError" (exn_str e) && (attempt <? 2)%nat
          then insight_attempts create rq rest
                 (Api (calls st') (naps st' ++ [2 ^ Z.of_nat attempt]))
          else (Raised e, st')
      end
  end.

(** [except ImportError] also catches its subclass. *)
Definition is_import_error (e : exn) : bool :=
  String.eqb (exn_class e) "ImportError"
  || String.eqb (exn_class e) "ModuleNotFoundError".

Definition no_openai : string :=
  "Error: OpenAI module not available. Please install it or check your API key configuration.".

Definition generate_insight (openai_installed : bool)
    (create : list chat_request -> chat_request -> reply)
    (user category prompt_text response_text knowledge_base context : string)
    (temperature max_tokens : pyval) (st : api) : string * api :=
  if negb openai_installed then (no_openai, st)
  else
    let rq := insight_request user category prompt_text response_text
                knowledge_base context temperature max_tokens in
    match insight_attempts create rq (seq 0 3) st with
    | (Ok (Some text), st') => (text, st')
    | (Ok None, st') =>
        ("Error: Unable to generate insight after multiple attempts."%string, st')
    | (Raised e, st') =>
        if is_import_error e then (no_openai, st')
        else ("Error generating insight: " +:+ exn_str e, st')
    end.

(** The reply to the request [rq] when it is made for the [j]-th time
    (from 0) after the calls of [st]. *)
Definition reply_to (create : list chat_request -> chat_request -> reply)
    (rq : chat_request) (st : api) (j : nat) : reply :=
  create (calls st ++ replicate j rq) rq.

Definition rate_limited (r : reply) : bool :=
  match r with
  | Content _ => false
  | ApiError e => str_contains "RateLimitError" (exn_str e)
  end.

(** ** Weakest preconditions for the worker monad *)

(** [wp m Q w]: run from the world [w], [m] ends with a result and a
    world that satisfy [Q]. *)
Definition wp {A} (m : M A) (Q : res A -> world -> Prop) (w : world) : Prop :=
  Q (fst (m w)) (snd (m w)).

(** A test vector with the three fields that [run_mock_test] reads. *)
Definition complete_vector (vector : gmap string string) : Prop :=
  is_Some (vector !! "id") /\ is_Some (vector !! "name")
  /\ is_Some (vector !! "severity").

(** The rendering thread may change the value of the flag but does not
    remove it, and leaves the counter of vulnerabilities alone. *)
Definition well_behaved (E : env) : Prop :=
  (forall (p : point) (s : gmap string pyval),
     is_Some (s !! "running_test") ->
     is_Some (rendering_thread E p s !! "running_test")) /\
  (forall (p : point) (s : gmap string pyval),
     rendering_thread E p s !! "vulnerabilities_found" = s !! "vulnerabilities_found").

(** What the loop keeps when nothing can go wrong: the flag is there, and
    the shared counter is the number of findings in [results]. *)
Definition counted (r0 : gmap string pyval) (w : world) (r : gmap string pyval)
    : Prop :=
  is_Some (session w !! "running_test") /\
  results_inv r0 r /\
  exists found : list pyval,
    r !! "vulnerabilities" = Some (VList found) /\
    session w !! "vulnerabilities_found" = Some (VInt (Z.of_nat (length found))).

(** The fields of a vulnerability record. *)
Definition vulnerability_keys : gset string :=
  {[ "id"; "test_vector"; "test_name"; "severity"; "details"; "timestamp" ]}%string.

(** [v] is a record made at position [j] of the list, from one of the
    test vectors. *)
Definition record_of (test_vectors : list (gmap string string)) (j : nat)
    (v : pyval) : Prop :=
  exists (d : gmap string pyval) (vector : gmap string string),
    v = VDict d /\ vector ∈ test_vectors /\
    dom d = vulnerability_keys /\
    d !! "id" = Some (VStr ("VULN-" +:+ pretty (j + 1)%nat)) /\
    d !! "test_vector" = VStr <$> vector !! "id" /\
    d !! "test_name" = VStr <$> vector !! "name" /\
    d !! "severity" = VStr <$> vector !! "severity".

(** After [n] iterations [results] holds at most [n] records, each
    numbered by its position. *)
Definition numbered (test_vectors : list (gmap string string)) (n : nat)
    (results : gmap string pyval) : Prop :=
  exists found : list pyval,
    results !! "vulnerabilities" = Some (VList found) /\
    (length found <= n)%nat /\
    forall (j : nat) (v : pyval), found !! j = Some v -> record_of test_vectors j v.

(** The list held under [k], if there is one. *)
Definition sublist (r : gmap string pyval) (k : string) : list pyval :=
  match r !! k with
  | Some (VList l) => l
  | _ => []
  end.

(** ** The session keys of a run *)

Definition event_key (e : event) : string :=
  match e with
  | Got k _ => k
  | Stored k _ => k
  end.

(** The keys of the session state that the [try] block reads or writes. *)
Definition worker_keys (f : source) : list string :=
  match f with
  | modular => ["progress"; "vulnerabilities_found"; "running_test"]
  | guared => ["progress"; "vulnerabilities_found"; "running_test"; "test_results"]
  end%string.

(** All accesses so far were to the worker's keys, and the session state
    satisfies [P]. *)
Definition kept (f : source) (P : gmap string pyval -> Prop) (w : world) : Prop :=
  Forall (fun e => event_key e ∈ worker_keys f) (history w) /\ P (session w).

Definition keeps {A} (f : source) (P : gmap string pyval -> Prop) (m : M A) : Prop :=
  forall w : world, kept f P w -> kept f P (snd (m w)).

(** The rendering thread never changes the value under [k]. *)
Definition leaves_alone (E : env) (k : string) : Prop :=
  forall (p : point) (s : gmap string pyval), rendering_thread E p s !! k = s !! k.

(** ** The DOI check on Unicode text *)

(** A [str] can hold any code point, and [re] follows the Unicode database
    of the interpreter: [\d] is the category of decimal digits, and
    [re.IGNORECASE] compares lower-cased characters.  Here a [str] is the
    list of its code points and the database, which changes from one
    version of the interpreter to the next, is a parameter. *)
Module Unicode.

Record database := Database {
  (** the decimal digits, category Nd *)
  isdecimal : Z -> bool;
  (** the simple case mappings of a character *)
  tolower : Z -> Z;
  toupper : Z -> Z;
  (** the other lower-case characters that [re] takes for the same as a
      lower-case character (a table of its compiler) *)
  extra_cases : Z -> list Z
}.

(** The code point of a character, and the text of an ASCII literal. *)
Definition cp (c : ascii) : Z := Z.of_N (N_of_ascii c).

Definition text (s : string) : list Z := map cp (list_ascii_of_string s).

Inductive set_item :=
| SChar (c : Z)
| SRange (lo hi : Z).

Inductive atom :=
| Literal (c : Z)
| Any
| Digit
| In (items : list set_item).

Inductive item :=
| At_beginning
| At_end
| Repeat (lo : nat) (hi : option nat) (a : atom).

Definition set_item_matches (it : set_item) (c : Z) : bool :=
  match it with
  | SChar x => c =? x
  | SRange lo hi => (lo <=? c) && (c <=? hi)
  end.

(** The characters of a set item, in order. *)
Definition elements (it : set_item) : list Z :=
  match it with
  | SChar x => [x]
  | SRange lo hi => map (fun i => lo + Z.of_nat i) (seq 0 (Z.to_nat (hi - lo + 1)))
  end.

(** A character has case when one of the mappings moves it. *)
Definition iscased (db : database) (c : Z) : bool :=
  negb (c =? tolower db c) || negb (c =? toupper db c).

(** What the compiler puts into a set for [c] when case is ignored: its
    lower case and the extra cases of that. *)
Definition folded (db : database) (c : Z) : list Z :=
  let lo := tolower db c in lo :: extra_cases db lo.

Definition newline : Z := 10.

(** Whether one character matches an atom.  With [re.IGNORECASE] a
    literal or a set in which something has case is replaced by the set of
    the folded characters, and the character is lower-cased before it is
    looked up; what has no case is compared as it is. *)
Definition char_matches (db : database) (ignorecase : bool) (a : atom) (c : Z)
    : bool :=
  match a with
  | Literal x =>
      if ignorecase && iscased db x
      then existsb (Z.eqb (tolower db c)) (folded db x)
      else c =? x
  | Any => negb (c =? newline)
  | Digit => isdecimal db c
  | In items =>
      if ignorecase && existsb (fun it => existsb (iscased db) (elements it)) items
      then existsb (Z.eqb (tolower db c))
             (flat_map (fun it => flat_map (folded db) (elements it)) items)
      else existsb (fun it => set_item_matches it c) items
  end.

(** [x{lo,hi}] followed by the rest of the pattern [k]. *)
Fixpoint match_repeat (ok : Z -> bool) (lo : nat) (hi : option nat)
    (k : nat -> list Z -> bool) (pos : nat) (s : list Z) : bool :=
  (match lo with O => k pos s | S _ => false end)
  || match hi, s with
     | Some O, _ => false
     | _, [] => false
     | _, c :: s' => ok c && match_repeat ok (pred lo) (option_map pred hi) k (S pos) s'
     end.

(** [$] without [re.MULTILINE]: at the end of the string, or just before
    a newline that ends the string. *)
Definition at_end (s : list Z) : bool :=
  match s with
  | [] => true
  | [c] => c =? newline
  | _ => false
  end.

Fixpoint match_here (db : database) (ignorecase : bool) (p : list item)
    (pos : nat) (s : list Z) : bool :=
  match p with
  | [] => true
  | At_beginning :: p' => Nat.eqb pos 0 && match_here db ignorecase p' pos s
  | At_end :: p' => at_end s && match_here db ignorecase p' pos s
  | Repeat lo hi a :: p' =>
      match_repeat (char_matches db ignorecase a) lo hi
        (match_here db ignorecase p') pos s
  end.

(** [re.match(pattern, s, flags) is not None] *)
Definition re_match (db : database) (p : list item) (ignorecase : bool)
    (s : list Z) : bool :=
  match_here db ignorecase p 0 s.

Definition once (a : atom) : item := Repeat 1 (Some 1%nat) a.

(** The characters of [[-._;()/:A-Z0-9]]. *)
Definition doi_set : list set_item :=
  [ SChar (cp "-"); SChar (cp "."); SChar (cp "_"); SChar (cp ";");
    SChar (cp "("); SChar (cp ")"); SChar (cp "/"); SChar (cp ":");
    SRange (cp "A") (cp "Z"); SRange (cp "0") (cp "9") ]%char.

(** [r'^10.\d{4,9}/[-._;()/:A-Z0-9]+$'] *)
Definition doi_pattern : list item :=
  [ At_beginning;
    once (Literal (cp "1")); once (Literal (cp "0")); once Any;
    Repeat 4 (Some 9%nat) Digit;
    once (Literal (cp "/"));
    Repeat 1 None (In doi_set);
    At_end ]%char.

(** The argument of the helpers: a [str], or any other object, of which
    only the truth value matters ([None] is false). *)
Inductive object :=
| Str (s : list Z)
| NotStr (truth : bool).

Definition truth_value (o : object) : bool :=
  match o with
  | Str s => match s with [] => false | _ => true end
  | NotStr b => b
  end.

Definition isinstance_str (o : object) : bool :=
  match o with
  | Str _ => true
  | NotStr _ => false
  end.

Definition is_valid_doi_format (db : database) (doi : object) : bool :=
  if negb (truth_value doi) || negb (isinstance_str doi) then false
  else
    match doi with
    | Str s => re_match db doi_pattern true s
    | NotStr _ => false
    end.

(** Requests whose URL is a [str]. *)
Record request := Request { req_method : string; req_url : list Z }.

Record net := Net { sent : list request; slept : list Z }.

(** [for attempt in range(retries)] of [retry_request]. *)
Fixpoint retry_attempts (network : list request -> request -> outcome)
    (rq : request) (attempts : list nat) (n : net) : option Z * net :=
  match attempts with
  | [] => (None, n)
  | attempt :: rest =>
      let n' := Net (sent n ++ [rq]) (slept n) in
      match network (sent n) rq with
      | Response status_code =>
          if status_code =? 200 then (Some status_code, n')
          else retry_attempts network rq rest n'
      | RequestException =>
          retry_attempts network rq rest
            (Net (sent n') (slept n' ++ [2 ^ Z.of_nat attempt]))
      end
  end.

Definition retry_request (network : list request -> request -> outcome)
    (url : list Z) (method : string) (retries : nat) (n : net) : option Z * net :=
  if String.eqb method "head" || String.eqb method "get"
  then retry_attempts network (Request method url) (seq 0 retries) n
  else (None, n).

Definition validate_doi (db : database)
    (network : list request -> request -> outcome)
    (doi : object) (n : net) : bool * net :=
  if negb (is_valid_doi_format db doi) then (false, n)
  else
    match doi with
    | Str s =>
        let url := text "https://doi.org/" ++ s in
        match retry_request network url "head" 3 n with
        | (Some _, n') => (true, n')
        | (None, n') => (false, n')
        end
    | NotStr _ => (false, n)
    end.

(** On ASCII every database is the same: [A-Z] and [a-z] are each
    other's cases, nothing else has case, and the compiler's table adds the
    dotless i to [i] and the long s to [s]. *)
Definition ascii_as_usual (db : database) : Prop :=
  forall c : Z,
    0 <= c < 128 ->
    tolower db c = (if (65 <=? c) && (c <=? 90) then c + 32 else c) /\
    toupper db c = (if (97 <=? c) && (c <=? 122) then c - 32 else c) /\
    extra_cases db c
      = (if c =? 105 then [305] else if c =? 115 then [383] else []).

(** The language the DOI pattern denotes, spelled out: ["10"], any one
    character but a newline, four to nine decimal digits, a slash, and one
    or more characters whose lower case is one of [-._;()/:], a letter
    [a-z], a digit [0-9], the dotless i or the long s; a final newline is
    tolerated by [$]. *)
Definition doi_char (db : database) (c : Z) : bool :=
  let l := tolower db c in
  existsb (Z.eqb l) (text "-._;()/:")
  || ((cp "a" <=? l) && (l <=? cp "z"))
  || ((cp "0" <=? l) && (l <=? cp "9"))
  || (l =? 305) || (l =? 383).

Definition matches_doi_regex (db : database) (s : list Z) : Prop :=
  exists (c : Z) (digits suffix tail : list Z),
    s = text "10" ++ c :: digits ++ cp "/" :: suffix ++ tail
    /\ c <> newline
    /\ (4 <= length digits <= 9)%nat
    /\ forallb (isdecimal db) digits = true
    /\ suffix <> []
    /\ forallb (doi_char db) suffix = true
    /\ (tail = [] \/ tail = [newline]).

(** An excerpt of a database: ASCII, the fullwidth and the Arabic-Indic
    digits, and the letters outside ASCII whose lower case is in ASCII. *)
Definition excerpt : database :=
  Database
    (fun c => ((48 <=? c) && (c <=? 57)) || ((65296 <=? c) && (c <=? 65305))
              || ((1632 <=? c) && (c <=? 1641)))
    (fun c => if (65 <=? c) && (c <=? 90) then c + 32
              else if c =? 304 then 105 else if c =? 8490 then 107 else c)
    (fun c => if (97 <=? c) && (c <=? 122) then c - 32
              else if c =? 305 then 73 else if c =? 383 then 83 else c)
    (fun c => if c =? 105 then [305] else if c =? 115 then [383] else []).

End Unicode.

Section Rules.
Context {A B : Type}.

Lemma spec_ret (a : A) (P : res A -> list event -> Prop) :
  P (Ok a) [] -> spec (ret a) P.
Proof. intros HP w. exists []. simpl. by rewrite app_nil_r. Qed.

Lemma spec_raise (e : exn) (P : res A -> list event -> Prop) :
  P (Raised e) [] -> spec (raise e) P.
Proof. intros HP w. exists []. simpl. by rewrite app_nil_r. Qed.

Lemma spec_weaken (m : M A) (P Q : res A -> list event -> Prop) :
  spec m P -> (forall r evs, P r evs -> Q r evs) -> spec m Q.
Proof. intros Hm HPQ w. destruct (Hm w) as (evs & ? & ?). eauto. Qed.

Lemma spec_bind (m : M A) (k : A -> M B) (Q : res A -> list event -> Prop)
    (P : res B -> list event -> Prop) :
  spec m Q ->
  (forall e evs, Q (Raised e) evs -> P (Raised e) evs) ->
  (forall a evs1, Q (Ok a) evs1 -> spec (k a) (fun r evs2 => P r (evs1 ++ evs2))) ->
  spec (bind m k) P.
Proof.
  intros Hm Hraise Hk w. unfold bind.
  destruct (Hm w) as (evs1 & Hh & HQ).
  destruct (m w) as [[a|e] w1]; simpl in *.
  - destruct (Hk a evs1 HQ w1) as (evs2 & Hh2 & HP).
    exists (evs1 ++ evs2). rewrite Hh2, Hh, app_assoc. done.
  - exists evs1. eauto.
Qed.

Lemma spec_bind_ret (a : A) (k : A -> M B) (P : res B -> list event -> Prop) :
  spec (k a) P -> spec (bind (ret a) k) P.
Proof. exact (fun H => H). Qed.

Lemma spec_bind_raise (e : exn) (k : A -> M B) (P : res B -> list event -> Prop) :
  P (Raised e) [] -> spec (bind (raise e) k) P.
Proof. intros HP w. exists []. simpl. by rewrite app_nil_r. Qed.
End Rules.

Section SessionRules.
Context {B : Type}.

Lemma spec_bind_session_set (key : string) (v : pyval) (k : unit -> M B)
    (P : res B -> list event -> Prop) :
  spec (k tt) (fun r evs => P r (Stored key v :: evs)) ->
  spec (bind (session_set key v) k) P.
Proof.
  intros Hk w. unfold bind, session_set.
  destruct (Hk (World (<[key:=v]> (session w)) (history w ++ [Stored key v])))
    as (evs & Hh & HP).
  exists (Stored key v :: evs). simpl in Hh. rewrite Hh, <- app_assoc. done.
Qed.

Lemma spec_bind_session_get (cls key : string) (k : pyval -> M B)
    (P : res B -> list event -> Prop) :
  (forall v, spec (k v) (fun r evs => P r (Got key v :: evs))) ->
  (forall e, P (Raised e) []) ->
  spec (bind (session_get cls key) k) P.
Proof.
  intros Hk Hraise w. unfold bind, session_get.
  destruct (session w !! key) as [v|].
  - destruct (Hk v (World (session w) (history w ++ [Got key v])))
      as (evs & Hh & HP).
    exists (Got key v :: evs). simpl in Hh. rewrite Hh, <- app_assoc. done.
  - exists []. simpl. rewrite app_nil_r. eauto.
Qed.

Lemma spec_bind_interleave (E : env) (p : point) (k : unit -> M B)
    (P : res B -> list event -> Prop) :
  spec (k tt) P -> spec (bind (interleave E p) k) P.
Proof.
  intros Hk w. unfold bind, interleave.
  destruct (Hk (World (rendering_thread E p (session w)) (history w)))
    as (evs & Hh & HP).
  exists evs. done.
Qed.
End SessionRules.

(** ** The loop of [run_mock_test] *)

Lemma flag_reads_app (h1 h2 : list event) :
  flag_reads (h1 ++ h2) = flag_reads h1 ++ flag_reads h2.
Proof. apply omap_app. Qed.

Lemma progress_writes_app (h1 h2 : list event) :
  progress_writes (h1 ++ h2) = progress_writes h1 ++ progress_writes h2.
Proof. apply omap_app. Qed.

Lemma total_weight_snoc (found : list pyval) (v : pyval) :
  total_weight (found ++ [v]) = total_weight found + vulnerability_weight v.
Proof.
  unfold total_weight. induction found as [|x found IH]; simpl; [lia|].
  rewrite IH. lia.
Qed.

Lemma results_inv_refl (r : gmap string pyval) (found : list pyval)
    (sm : gmap string pyval) :
  Forall has_severity found ->
  r !! "vulnerabilities" = Some (VList found) ->
  r !! "summary" = Some (VDict sm) ->
  sm !! "risk_score" = Some (VInt (total_weight found)) ->
  sm !! "vulnerabilities_found" = Some (VInt (Z.of_nat (length found))) ->
  sm !! "total_tests" = Some (VInt 0) ->
  dom sm = summary_keys ->
  results_inv r r.
Proof. intros. split; [done|]. split; [done|]. exists found, sm. done. Qed.

(** [results["summary"][k] += n] on a summary that holds an integer. *)
Lemma summary_iadd_int (r sm : gmap string pyval) (k : string) (old n : Z) :
  r !! "summary" = Some (VDict sm) ->
  sm !! k = Some (VInt old) ->
  summary_iadd r k n = ret (<["summary" := VDict (<[k := VInt (old + n)]> sm)]> r).
Proof.
  intros Hr Hsm. unfold summary_iadd, dict_iadd, getitem.
  rewrite Hr. cbv [bind ret as_dict]. rewrite Hsm. reflexivity.
Qed.

(** The invariant after one more finding [v] of weight [w]. *)
Lemma results_inv_found (r0 r sm : gmap string pyval) (found : list pyval)
    (v : gmap string pyval) (severity : string) :
  results_inv r0 r /\
  Forall has_severity found /\
  r !! "vulnerabilities" = Some (VList found) /\
  r !! "summary" = Some (VDict sm) /\
  sm !! "risk_score" = Some (VInt (total_weight found)) /\
  sm !! "vulnerabilities_found" = Some (VInt (Z.of_nat (length found))) /\
  sm !! "total_tests" = Some (VInt 0) /\
  dom sm = summary_keys ->
  v !! "severity" = Some (VStr severity) ->
  results_inv r0
    (<["summary" :=
         VDict (<["risk_score" := VInt (total_weight found + weight_of severity)]>
                  (<["vulnerabilities_found" := VInt (Z.of_nat (length found) + 1)]> sm))]>
       (<["summary" :=
            VDict (<["vulnerabilities_found" := VInt (Z.of_nat (length found) + 1)]> sm)]>
          (<["vulnerabilities" := VList (found ++ [VDict v])]> r))).
Proof.
  intros ((Hdom & Hrest & _) & Hall & Hv & Hs & Hrisk & Hcount & Htotal & Hsm) Hsev.
  split; [| split].
  - rewrite !dom_insert_L, <- Hdom.
    apply elem_of_dom_2 in Hv. apply elem_of_dom_2 in Hs.
    apply set_eq. intros k. rewrite !elem_of_union, !elem_of_singleton.
    split; [intros [->|[->|[->|?]]]; done | auto].
  - intros k Hk1 Hk2. rewrite !lookup_insert_ne by done. auto.
  - exists (found ++ [VDict v]),
      (<["risk_score" := VInt (total_weight found + weight_of severity)]>
         (<["vulnerabilities_found" := VInt (Z.of_nat (length found) + 1)]> sm)).
    split; [apply Forall_app; split; [done|]; repeat constructor; by exists v, severity|].
    split; [by rewrite !lookup_insert_ne, lookup_insert_eq by done|].
    split; [by rewrite lookup_insert_eq|].
    split; [rewrite lookup_insert_eq, total_weight_snoc; simpl; by rewrite Hsev|].
    split; [rewrite lookup_insert_ne, lookup_insert_eq, length_app by done;
            simpl; do 2 f_equal; lia|].
    split; [by rewrite !lookup_insert_ne by done|].
    rewrite !dom_insert_L, Hsm.
    apply set_eq. intros k. unfold summary_keys.
    rewrite !elem_of_union, !elem_of_singleton. tauto.
Qed.

Ltac step :=
  lazymatch goal with
  | |- spec (bind (ret _) _) _ => apply spec_bind_ret
  | |- spec (bind (raise _) _) _ => apply spec_bind_raise
  | |- spec (ret _) _ => apply spec_ret
  | |- spec (raise _) _ => apply spec_raise
  | |- spec (bind (session_set _ _) _) _ => apply spec_bind_session_set
  | |- spec (bind (session_get _ _) _) _ =>
      apply spec_bind_session_get; [intros ?v | intros ?e]
  | |- spec (bind (interleave _ _) _) _ => apply spec_bind_interleave
  | |- spec (bind (str_getitem ?d ?k) _) _ =>
      unfold str_getitem at 1; destruct (d !! k) eqn:?;
      [apply spec_bind_ret | apply spec_bind_raise]
  | |- spec (bind (getitem ?d ?k) _) _ =>
      unfold getitem at 1; destruct (d !! k) eqn:?;
      [apply spec_bind_ret | apply spec_bind_raise]
  | |- spec (bind (add_int ?v _) _) _ =>
      unfold add_int at 1; destruct v
  end.

Lemma find_vulnerability_spec (f : source) (E : env)
    (target : gmap string string) (test_vectors : list (gmap string string))
    (i : nat) (r0 r : gmap string pyval) :
  results_inv r0 r ->
  spec (find_vulnerability f E target test_vectors i r)
       (fun out evs =>
          quiet evs /\
          match out with
          | Ok r' => results_inv r0 r'
          | Raised _ => True
          end).
Proof.
  intros (Hdom & Hrest & found & sm & Hall & Hv & Hs & Hrisk & Hcount & Htotal & Hsm).
  unfold find_vulnerability, random_choice.
  destruct test_vectors as [|v0 vs]; [step; done|].
  step. set (vector := nth _ _ _). clearbody vector.
  step; [|done].
  unfold getitem at 1. rewrite Hv. step. cbv [as_list]. step.
  step; [|done].
  step; [|done].
  step; [|done].
  step; [|done].
  step.
  all: step; try done.
  all: step.
  all: erewrite summary_iadd_int;
    [| by rewrite lookup_insert_ne, Hs by done | exact Hcount].
  all: step.
  all: erewrite summary_iadd_int;
    [| by apply lookup_insert_eq | by rewrite lookup_insert_ne, Hrisk by done].
  all: step; split; [done|].
  all: apply results_inv_found;
    [by repeat split; eauto 10 | by rewrite !lookup_insert_ne, lookup_insert_eq by done].
Qed.

Lemma tick_spec (f : source) (E : env)
    (target : gmap string string) (test_vectors : list (gmap string string))
    (step_sleep : Q) (i : nat) (r0 r : gmap string pyval) :
  results_inv r0 r ->
  spec (tick f E target test_vectors step_sleep i r) (tick_post step_sleep i r0).
Proof.
  intros Hinv. unfold tick.
  step. step; [| by left].
  destruct (truthy v) eqn:Hv; simpl negb; cbv iota.
  - unfold time_sleep. destruct (Qlt_bool step_sleep 0) eqn:Hsleep.
    + step. right. exists v. simpl. eauto.
    + step. step.
      destruct (Qlt_bool (random_random E i) (2 # 10)).
      * eapply spec_bind; [by apply find_vulnerability_spec | |].
        -- intros e evs [[Hfr Hpw] _]. right. exists v. simpl.
           rewrite Hfr, Hpw. eauto.
        -- intros r' evs [[Hfr Hpw] Hinv']. step. simpl.
           rewrite app_nil_r, Hfr, Hpw. eauto 10.
      * step. simpl. eauto 10.
  - step. simpl. eauto 10.
Qed.

Lemma loop_spec (f : source) (E : env)
    (target : gmap string string) (test_vectors : list (gmap string string))
    (step_sleep : Q) (r0 : gmap string pyval) (len : nat) :
  forall (a : nat) (r : gmap string pyval),
    results_inv r0 r ->
    spec (for_each (tick f E target test_vectors step_sleep) (seq a len) r)
         (loop_post step_sleep a len r0).
Proof.
  induction len as [|len IH]; intros a r Hinv; simpl.
  - step. exists 0%nat, [], []. simpl. eauto 10.
  - eapply spec_bind; [by apply tick_spec | |].
    + intros e evs [[Hpw Hfr] | (v & Hfr & Hv & [[Hpw Hsl] | [Hpw Hsl]])].
      * exists 0%nat, [], []. rewrite Hpw, Hfr. simpl. split; [lia | eauto 10].
      * exists 0%nat, [], [v]. rewrite Hpw, Hfr. simpl. split; [lia | eauto 10].
      * exists 1%nat, [v], []. rewrite Hpw, Hfr. simpl. rewrite Hv.
        split; [lia | eauto 10].
    + intros [[|] r'] evs Hpost; simpl in Hpost.
      * destruct Hpost as (Hinv' & Hpw & Hsl & v & Hfr & Hv).
        eapply spec_weaken; [by apply IH |].
        intros out evs2 (m & vs & tail & Hm & Hpw2 & Hfr2 & Hlen & Hvs & Hout).
        exists (S m), (v :: vs), tail.
        rewrite progress_writes_app, flag_reads_app, Hpw, Hfr, Hpw2, Hfr2.
        simpl. rewrite Hv, Hvs, Hlen.
        split; [lia|]. do 4 (split; [done|]).
        destruct out as [r''|e].
        -- destruct Hout as [? [[-> ->] | [? ?]]]; split; auto.
           right. split; [lia | done].
        -- destruct Hout as [-> | (_ & v' & _ & _ & Hsl')]; [by left|].
           congruence.
      * destruct Hpost as (Hinv' & Hpw & v & Hfr & Hv).
        step. exists 0%nat, [], [v]. rewrite app_nil_r, Hpw, Hfr. simpl.
        split; [lia|]. do 4 (split; [done|]). split; [done|].
        right. split; [lia | eauto].
Qed.

(** ** The [try] block of [run_mock_test] *)

Lemma summary_set_dict (r sm : gmap string pyval) (k : string) (v : pyval) :
  r !! "summary" = Some (VDict sm) ->
  summary_set r k v = ret (<["summary" := VDict (<[k := v]> sm)]> r).
Proof.
  intros Hr. unfold summary_set, getitem. rewrite Hr. reflexivity.
Qed.

Lemma summary_dom (sm : gmap string pyval) (v : pyval) :
  dom sm = summary_keys -> dom (<["total_tests" := v]> sm) = summary_keys.
Proof.
  intros Hsm. rewrite dom_insert_L, Hsm. apply set_eq. intros k.
  unfold summary_keys. rewrite !elem_of_union, !elem_of_singleton. tauto.
Qed.

Lemma try_spec (f : source) (E : env)
    (target : gmap string string) (test_vectors : list (gmap string string))
    (duration : Q) :
  spec (run_mock_test_try f E target test_vectors duration)
       (try_post f (length test_vectors)).
Proof.
  unfold run_mock_test_try.
  step. step. step.
  step.
  2:{ exists 0%nat, [], []. split; [unfold total_steps; lia|]. simpl. eauto 10. }
  cbv zeta.
  match goal with |- spec (bind (for_each _ _ ?r) _) _ => set (r0 := r) end.
  assert (Hinv : results_inv r0 r0).
  { 
    apply (results_inv_refl r0 []
             {[ "total_tests" := VInt 0; "vulnerabilities_found" := VInt 0;
                "risk_score" := VInt 0 ]}%string);
      try (destruct f; reflexivity). constructor. }
  eapply spec_bind; [exact (loop_spec f E target test_vectors _ r0 total_steps 0%nat r0 Hinv) | |].
  - intros e evs (m & vs & tail & Hm & Hpw & Hfr & Hlen & Hvs & Hout).
    exists m, vs, tail. simpl. rewrite Hpw, Hfr.
    do 5 (split; [done|]). destruct Hout as [?|(? & x & ? & ? & ?)]; eauto 10.
  - intros r evs (m & vs & tail & Hm & Hpw & Hfr & Hlen & Hvs & Hinv' & Hend).
    destruct Hinv' as (Hdom & Hrest & found & sm & Hall & Hv & Hs & Hrisk & Hcount & Htotal & Hsm).
    rewrite (summary_set_dict _ sm) by done. step.
    assert (Hfinal : forall evs',
      progress_writes evs' = [] -> flag_reads evs' = [] ->
      forall r', dom r' = result_keys f ->
        r' !! "vulnerabilities" = Some (VList found) ->
        r' !! "summary"
          = Some (VDict (<["total_tests" := VInt (Z.of_nat (length test_vectors) * 10)]> sm)) ->
        try_post f (length test_vectors) (Ok (VDict r'))
          (Stored "progress" (VInt 0) :: Stored "vulnerabilities_found" (VInt 0)
             :: Stored "running_test" (VBool true) :: evs ++ evs')).
    { intros evs' Hpw' Hfr' r' Hd Hv' Hs'. exists m, vs, tail. simpl.
      rewrite progress_writes_app, flag_reads_app, Hpw, Hfr, Hpw', Hfr', !app_nil_r.
      do 5 (split; [done|]). split; [|done].
      exists r', found, (<["total_tests" := VInt (Z.of_nat (length test_vectors) * 10)]> sm).
      do 5 (split; [done|]).
      split; [by rewrite lookup_insert_ne by done|].
      split; [by rewrite lookup_insert_ne by done|].
      split; [by rewrite lookup_insert_eq | by apply summary_dom]. }
    destruct f.
    + step. apply Hfinal; try done.
      * rewrite dom_insert_L, Hdom. subst r0. rewrite !dom_insert_L, dom_singleton_L.
        apply set_eq. intros k. unfold result_keys.
        rewrite !elem_of_union, !elem_of_singleton. tauto.
      * by rewrite lookup_insert_ne by done.
      * by rewrite lookup_insert_eq.
    + step; [| congruence]. step. step. apply Hfinal; try done.
      * rewrite !dom_insert_L, Hdom. subst r0. rewrite !dom_insert_L, dom_singleton_L.
        apply set_eq. intros k. unfold result_keys.
        rewrite !elem_of_union, !elem_of_singleton. tauto.
      * by rewrite !lookup_insert_ne by done.
      * by rewrite !lookup_insert_ne, lookup_insert_eq by done.
Qed.

(** ** The whole function: [try], [except], [finally] *)

(** How a run relates to its [try] block: the same reads of the flag and
    writes of the progress, the flag cleared at the end, and either the
    value of the block or the error result built from its exception. *)
Lemma run_outcome (f : source) (E : env)
    (target : gmap string string) (test_vectors : list (gmap string string))
    (duration : Q) (w : world) :
  exists evs : list event,
    try_post f (length test_vectors)
      (fst (run_mock_test_try f E target test_vectors duration w)) evs /\
    flag_reads (history (snd (run_mock_test f E target test_vectors duration w)))
      = flag_reads (history w) ++ flag_reads evs /\
    progress_writes (history (snd (run_mock_test f E target test_vectors duration w)))
      = progress_writes (history w) ++ progress_writes evs /\
    match fst (run_mock_test_try f E target test_vectors duration w) with
    | Ok v => fst (run_mock_test f E target test_vectors duration w) = Ok v
    | Raised e =>
        exists r : gmap string pyval,
          fst (run_mock_test f E target test_vectors duration w) = Ok (VDict r) /\
          r !! "error" = Some (VBool true) /\
          r !! "error_message" = Some (VStr (exn_str e)) /\
          r !! "summary" = None
    end.
Proof.
  destruct (try_spec f E target test_vectors duration w) as (evs & Hh & Hpost).
  exists evs. split; [done|].
  unfold run_mock_test, try_finally, try_except.
  destruct (run_mock_test_try f E target test_vectors duration w) as [[v|e] w1];
    simpl in Hh |- *.
  - rewrite Hh, !flag_reads_app, !progress_writes_app. simpl.
    by rewrite !app_nil_r.
  - destruct f; simpl; rewrite Hh, !flag_reads_app, !progress_writes_app; simpl;
      rewrite !app_nil_r; (do 2 (split; [done|])); eexists; (split; [done|]);
      by rewrite ?lookup_insert_ne, ?lookup_insert_eq by done.
Qed.

Lemma run_trace (f : source) (E : env)
    (target : gmap string string) (test_vectors : list (gmap string string))
    (duration : Q) (s : gmap string pyval) :
  let tried := fst (run_mock_test_try f E target test_vectors duration (World s [])) in
  let h := history (snd (run f E target test_vectors duration s)) in
  exists (m : nat) (vs tail : list pyval),
    (m <= total_steps)%nat /\
    progress_writes h = VInt 0 :: map progress_after (seq 0 m) /\
    flag_reads h = vs ++ tail /\
    length vs = m /\
    forallb truthy vs = true /\
    match tried with
    | Ok v =>
        normal_result f (length test_vectors) v /\
        ((m = total_steps /\ tail = []) \/
         ((m < total_steps)%nat /\ exists x, tail = [x] /\ truthy x = false))
    | Raised _ =>
        tail = [] \/ (m = 0%nat /\ exists x, tail = [x] /\ truthy x = true)
    end.
Proof.
  intros tried h. subst tried h. unfold run.
  destruct (run_outcome f E target test_vectors duration (World s []))
    as (evs & (m & vs & tail & Hm & Hpw & Hfr & Hrest) & Hfr' & Hpw' & _).
  exists m, vs, tail. rewrite Hfr', Hpw'. simpl. rewrite Hpw, Hfr. done.
Qed.

(** ** Progress *)

(** The [i]-th value written to the progress cell is [i / 100]. *)
Lemma progress_value (m i : nat) (x : pyval) :
  (VInt 0 :: map progress_after (seq 0 m)) !! i = Some x ->
  exists p : Q, as_number x = Some p /\ (p == Z.of_nat i # 100)%Q.
Proof.
  destruct i as [|i]; simpl.
  - intros [= <-]. exists (inject_Z 0). split; [done | reflexivity].
  - rewrite list_lookup_fmap. intros Hx.
    destruct (seq 0 m !! i) as [j|] eqn:Hj; [|done].
    apply lookup_seq in Hj as [-> _]. simpl in Hx. injection Hx as <-.
    eexists. split; [reflexivity|].
    change (Pos.of_nat total_steps) with 100%positive.
    unfold Qeq. cbn [Qnum Qden]. lia.
Qed.

Lemma progress_non_decreasing (m : nat) :
  non_decreasing (VInt 0 :: map progress_after (seq 0 m)).
Proof.
  intros i j x y Hij Hx Hy.
  apply progress_value in Hx as (p & Hp & Hpi).
  apply progress_value in Hy as (q & Hq & Hqj).
  exists p, q. do 2 (split; [done|]).
  rewrite Hpi, Hqj. unfold Qle. simpl. lia.
Qed.

(** The last value written is exactly [1.0] when, and only when, all the
    steps were taken. *)
Lemma progress_last (m : nat) :
  (m <= total_steps)%nat ->
  (exists q : Q, last (VInt 0 :: map progress_after (seq 0 m)) = Some (VFloat q)
                 /\ (q == 1)%Q)
  <-> m = total_steps.
Proof.
  intros Hm. rewrite last_lookup. simpl length. rewrite length_map, length_seq.
  simpl pred. split.
  - intros (q & Hq & Hone). apply progress_value in Hq as (p & Hp & Hpm).
    simpl in Hp. injection Hp as <-. rewrite Hpm in Hone.
    unfold Qeq in Hone. simpl in Hone. unfold total_steps. lia.
  - intros ->. exists (100 # 100). split; [reflexivity | reflexivity].
Qed.

(** The flag was found true at every one of the checks exactly when all
    the steps were taken. *)
Lemma flag_stayed_true_iff (f : source) (n m : nat) (vs tail : list pyval)
    (tried : res pyval) (h : list event) :
  flag_reads h = vs ++ tail ->
  length vs = m ->
  forallb truthy vs = true ->
  match tried with
  | Ok v =>
      normal_result f n v /\
      ((m = total_steps /\ tail = []) \/
       ((m < total_steps)%nat /\ exists x, tail = [x] /\ truthy x = false))
  | Raised _ =>
      tail = [] \/ (m = 0%nat /\ exists x, tail = [x] /\ truthy x = true)
  end ->
  flag_stayed_true h <-> m = total_steps.
Proof.
  intros Hfr Hlen Hvs Hend. unfold flag_stayed_true. rewrite Hfr.
  rewrite length_app, forallb_app, Hvs, Hlen. unfold total_steps in *.
  destruct tried as [v|e].
  - destruct Hend as [_ [[-> ->] | (Hlt & x & -> & Hx)]]; simpl; rewrite ?Hx;
      intuition (try lia; try done).
  - destruct Hend as [-> | (-> & x & -> & Hx)]; simpl;
      intuition (try lia; try done).
Qed.

Lemma existsb_false_all (vs : list pyval) :
  forallb truthy vs = true -> existsb (fun v => negb (truthy v)) vs = false.
Proof.
  induction vs as [|v vs IH]; simpl; [done|].
  intros [-> ?]%andb_prop. simpl. auto.
Qed.

(** [C1] In every run of [run_mock_test], in either version of the code,
    the values written to the shared progress cell are numbers that never
    decrease, and the last value written is exactly [1.0] if and only if
    all 100 steps were taken, that is, the cancellation flag was checked 100
    times and found true every time.  Such a run was not cancelled; and a
    run in which no check found the flag false and whose [try] block ended
    without an exception did take all the steps, so it ends at [1.0].  (A
    run that an exception ends early was not cancelled either, but ends
    below [1.0].) *)
Theorem progress_ends_at_one_iff_all_steps_taken
    (f : source) (E : env) (target : gmap string string)
    (test_vectors : list (gmap string string)) (duration : Q)
    (s : gmap string pyval) :
  let h := history (snd (run f E target test_vectors duration s)) in
  let tried :=
    fst (run_mock_test_try f E target test_vectors duration (World s [])) in
  let ends_at_one :=
    exists q : Q, last (progress_writes h) = Some (VFloat q) /\ (q == 1)%Q in
  non_decreasing (progress_writes h) /\
  (ends_at_one <-> flag_stayed_true h) /\
  (ends_at_one -> cancelled h = false) /\
  (cancelled h = false -> returned tried = true -> ends_at_one).
Proof.
  intros h tried ends_at_one. subst ends_at_one.
  destruct (run_trace f E target test_vectors duration s)
    as (m & vs & tail & Hm & Hpw & Hfr & Hlen & Hvs & Hend).
  fold h in Hpw, Hfr. fold tried in Hend. rewrite Hpw.
  split; [apply progress_non_decreasing|].
  rewrite (progress_last m Hm).
  split; [symmetry; eapply flag_stayed_true_iff; eauto|].
  unfold cancelled. rewrite Hfr, existsb_app, (existsb_false_all vs Hvs).
  split.
  - intros ->. destruct tried as [v|e].
    + destruct Hend as [_ [[_ ->] | (Hlt & _)]]; [done | lia].
    + destruct Hend as [-> | (Hm0 & _)]; [done | discriminate Hm0].
  - intros Hc Hret. destruct tried as [v|e]; [|done].
    destruct Hend as [_ [[-> _] | (_ & x & -> & Hx)]]; [done|].
    simpl in Hc. by rewrite Hx in Hc.
Qed.

Lemma progress_ends_at_one_iff_all_steps_taken_witness :
  let h := history (snd (run modular undisturbed demo_target
                           get_mock_test_vectors (3 # 10) ∅)) in
  (cancelled h = false /\
   returned (fst (run_mock_test_try modular undisturbed demo_target
                    get_mock_test_vectors (3 # 10) (World ∅ []))) = true) /\
  exists q : Q, last (progress_writes h) = Some (VFloat q) /\ (q == 1)%Q.
Proof.
  intros h.
  assert (Hc : cancelled h = false) by (vm_compute; reflexivity).
  assert (Hr : returned (fst (run_mock_test_try modular undisturbed demo_target
                    get_mock_test_vectors (3 # 10) (World ∅ []))) = true)
    by (vm_compute; reflexivity).
  split; [by split|].
  exact (proj2 (proj2 (proj2
           (progress_ends_at_one_iff_all_steps_taken modular undisturbed
              demo_target get_mock_test_vectors (3 # 10) ∅))) Hc Hr).
Defined.

(** The claim as the spec words it, "ends at exactly 1.0 iff the task was
    not cancelled", fails on a run that an exception ends: with no test
    vectors and a first draw below 0.2 the loop raises in its first step;
    the flag was read once and found true, nobody cancelled, and the last
    progress written is [0.01]. *)
Lemma not_cancelled_run_ends_below_one :
  let h := history (snd (run modular always_hit demo_target [] 0 ∅)) in
  ~ ((exists q : Q, last (progress_writes h) = Some (VFloat q) /\ (q == 1)%Q)
     <-> cancelled h = false).
Proof.
  intros h [_ Hone].
  assert (Hc : cancelled h = false) by (vm_compute; reflexivity).
  destruct (Hone Hc) as (q & Hq & Hq1).
  assert (Hlast : last (progress_writes h) = Some (VFloat (1 # 100)))
    by (vm_compute; reflexivity).
  rewrite Hlast in Hq. injection Hq as <-. discriminate Hq1.
Qed.

(** The trace of that run. *)
Example failed_run_stops_short :
  let h := history (snd (run modular always_hit demo_target [] 0 ∅)) in
  cancelled h = false /\
  flag_reads h = [VBool true] /\
  progress_writes h = [VInt 0; VFloat (1 # 100)].
Proof. repeat split; vm_compute; reflexivity. Qed.

(** ** Cancellation *)

Lemma forallb_lookup (vs : list pyval) (k : nat) (x : pyval) :
  forallb truthy vs = true -> vs !! k = Some x -> truthy x = true.
Proof.
  intros Hvs Hk. rewrite forallb_forall in Hvs. apply Hvs.
  apply list_elem_of_In, list_elem_of_lookup. eauto.
Qed.

(** [C2] In every run of [run_mock_test]: if the check of the flag before
    step [k + 1] (the check number [k], counting from 0) finds it false,
    that check is the last one, exactly the steps [1] to [k] have written
    their progress, and so no value beyond that of step [k + 1] is ever
    written.  There is one check per step taken, and a run whose [try] block
    ends without an exception and in which no check found the flag false
    takes all the steps: a false flag is the only way to cut the loop
    short. *)
Theorem false_flag_stops_progress
    (f : source) (E : env) (target : gmap string string)
    (test_vectors : list (gmap string string)) (duration : Q)
    (s : gmap string pyval) :
  let h := history (snd (run f E target test_vectors duration s)) in
  let tried :=
    fst (run_mock_test_try f E target test_vectors duration (World s [])) in
  (forall (k : nat) (x : pyval),
     flag_reads h !! k = Some x -> truthy x = false ->
     length (flag_reads h) = S k /\
     progress_writes h = VInt 0 :: map progress_after (seq 0 k) /\
     forall v : pyval, v ∈ progress_writes h ->
       exists q : Q, as_number v = Some q /\ (q <= Z.of_nat (k + 1) # 100)%Q) /\
  (length (progress_writes h) <= S (length (flag_reads h))
     <= S (length (progress_writes h)))%nat /\
  (forall v : pyval, tried = Ok v -> cancelled h = false ->
     progress_writes h = VInt 0 :: map progress_after (seq 0 total_steps)).
Proof.
  intros h tried.
  destruct (run_trace f E target test_vectors duration s)
    as (m & vs & tail & Hm & Hpw & Hfr & Hlen & Hvs & Hend).
  fold h in Hpw, Hfr. fold tried in Hend. split; [| split].
  - intros k x Hk Hx. rewrite Hfr in Hk.
    assert (Htail : tail = [x] /\ k = m).
    { destruct (decide (k < length vs)%nat) as [Hlt|Hge].
      - rewrite lookup_app_l in Hk by done.
        apply (forallb_lookup vs k x Hvs) in Hk. congruence.
      - rewrite lookup_app_r in Hk by lia.
        destruct tried as [v|e].
        + destruct Hend as [_ [[_ ->] | (_ & y & -> & _)]]; [done|].
          destruct (k - length vs)%nat eqn:Hd; [|done].
          injection Hk as ->. split; [done | lia].
        + destruct Hend as [-> | (_ & y & -> & Hy)]; [done|].
          destruct (k - length vs)%nat eqn:Hd; [|done].
          injection Hk as ->. congruence. }
    destruct Htail as [-> ->]. rewrite Hfr, Hpw, length_app, Hlen. simpl.
    split; [lia|]. split; [done|].
    intros v [i Hi]%list_elem_of_lookup.
    pose proof (lookup_lt_Some _ _ _ Hi) as Hlt.
    simpl in Hlt. rewrite length_map, length_seq in Hlt.
    apply progress_value in Hi as (p & Hp & Hpi).
    exists p. split; [done|]. rewrite Hpi. unfold Qle. cbn [Qnum Qden]. lia.
  - rewrite Hpw, Hfr, length_app. simpl. rewrite length_map, length_seq, Hlen.
    assert (length tail <= 1)%nat; [|lia].
    destruct tried as [v|e].
    + destruct Hend as [_ [[_ ->] | (_ & y & -> & _)]]; simpl; lia.
    + destruct Hend as [-> | (_ & y & -> & _)]; simpl; lia.
  - intros v Hv Hc. rewrite Hv in Hend. rewrite Hpw.
    destruct Hend as [_ [[-> _] | (_ & y & -> & Hy)]]; [done|].
    unfold cancelled in Hc. rewrite Hfr, existsb_app in Hc. simpl in Hc.
    rewrite Hy in Hc. simpl in Hc. by rewrite orb_true_r in Hc.
Qed.

Lemma false_flag_stops_progress_witness :
  let h := history (snd (run guared (cancel_during 3) demo_target
                           get_mock_test_vectors (3 # 10) ∅)) in
  flag_reads h !! 4%nat = Some (VBool false) /\
  truthy (VBool false) = false /\
  length (flag_reads h) = 5%nat /\
  progress_writes h = VInt 0 :: map progress_after (seq 0 4) /\
  forall v : pyval, v ∈ progress_writes h ->
    exists q : Q, as_number v = Some q /\ (q <= Z.of_nat (4 + 1) # 100)%Q.
Proof.
  intros h.
  assert (H4 : flag_reads h !! 4%nat = Some (VBool false)) by (vm_compute; reflexivity).
  split; [exact H4|]. split; [reflexivity|].
  exact (proj1 (false_flag_stops_progress guared (cancel_during 3) demo_target
                  get_mock_test_vectors (3 # 10) ∅) 4%nat (VBool false) H4 eq_refl).
Defined.

(** ** Cleanup of the flag *)

(** [C3] Every run of [run_mock_test], in either version of the code and
    from any state of the session, returns a value instead of raising, and
    when it returns the session's [running_test] is [False]: the [finally]
    block runs whether the [try] block completed, was cancelled or raised. *)
Theorem running_flag_false_on_return
    (f : source) (E : env) (target : gmap string string)
    (test_vectors : list (gmap string string)) (duration : Q) (w : world) :
  returned (fst (run_mock_test f E target test_vectors duration w)) = true /\
  session (snd (run_mock_test f E target test_vectors duration w)) !! "running_test"
    = Some (VBool false).
Proof.
  unfold run_mock_test, try_finally, try_except.
  destruct (run_mock_test_try f E target test_vectors duration w) as [[v|e] w1];
    [| destruct f]; simpl; by rewrite lookup_insert_eq.
Qed.

(** ** The summary *)

Lemma weight_table :
  weight_of "low" = 1 /\ weight_of "medium" = 2 /\ weight_of "high" = 3 /\
  weight_of "critical" = 5 /\
  forall severity : string, severity_weight !! severity = None -> weight_of severity = 1.
Proof.
  repeat split; try reflexivity. intros severity H. unfold weight_of. by rewrite H.
Qed.

(** What a run returns when its [try] block ends without an exception. *)
Lemma run_returns_normal_result (f : source) (E : env)
    (target : gmap string string) (test_vectors : list (gmap string string))
    (duration : Q) (s : gmap string pyval) :
  returned (fst (run_mock_test_try f E target test_vectors duration (World s []))) = true ->
  exists v : pyval,
    fst (run f E target test_vectors duration s) = Ok v /\
    normal_result f (length test_vectors) v.
Proof.
  intros Hret. unfold run.
  destruct (run_outcome f E target test_vectors duration (World s []))
    as (evs & (m & vs & tail & _ & _ & _ & _ & _ & Hend) & _ & _ & Hout).
  destruct (fst (run_mock_test_try f E target test_vectors duration (World s [])))
    as [v|e]; [|done].
  exists v. by destruct Hend.
Qed.

(** [C6] Whenever the value that a run of [run_mock_test] returns has a
    [summary], its [risk_score] is the sum, over the vulnerabilities the
    result lists (all those synthesized in the run, each a dict with its
    [severity]), of the weight of the severity: 1 for low, 2 for medium, 3
    for high, 5 for critical, and 1 for any other severity. *)
Theorem risk_score_is_sum_of_severity_weights
    (f : source) (E : env) (target : gmap string string)
    (test_vectors : list (gmap string string)) (duration : Q)
    (s : gmap string pyval) (sm : gmap string pyval) :
  let r := result_dict (fst (run f E target test_vectors duration s)) in
  r !! "summary" = Some (VDict sm) ->
  exists found : list pyval,
    r !! "vulnerabilities" = Some (VList found) /\
    Forall has_severity found /\
    sm !! "risk_score" = Some (VInt (total_weight found)) /\
    sm !! "vulnerabilities_found" = Some (VInt (Z.of_nat (length found))) /\
    weight_of "low" = 1 /\ weight_of "medium" = 2 /\ weight_of "high" = 3 /\
    weight_of "critical" = 5 /\
    forall severity : string,
      severity_weight !! severity = None -> weight_of severity = 1.
Proof.
  intros r Hsm. subst r. unfold run in Hsm |- *.
  destruct (run_outcome f E target test_vectors duration (World s []))
    as (evs & (m & vs & tail & _ & _ & _ & _ & _ & Hend) & _ & _ & Hout).
  destruct (fst (run_mock_test_try f E target test_vectors duration (World s [])))
    as [v|e].
  - rewrite Hout in Hsm |- *.
    destruct Hend as [(r' & found & sm' & -> & _ & Hall & Hv & Hs & Hrisk & Hcount & _) _].
    simpl in Hsm |- *. rewrite Hs in Hsm. injection Hsm as <-.
    exists found. do 4 (split; [done|]). apply weight_table.
  - destruct Hout as (r' & Hr' & _ & _ & Hnone).
    rewrite Hr' in Hsm. simpl in Hsm. congruence.
Qed.

Lemma risk_score_is_sum_of_severity_weights_witness :
  let r := result_dict (fst (run modular undisturbed demo_target
                               get_mock_test_vectors (3 # 10) ∅)) in
  let sm := subdict r "summary" in
  r !! "summary" = Some (VDict sm) /\
  sm !! "risk_score" = Some (VInt 168) /\
  exists found : list pyval,
    r !! "vulnerabilities" = Some (VList found) /\
    Forall has_severity found /\
    sm !! "risk_score" = Some (VInt (total_weight found)) /\
    sm !! "vulnerabilities_found" = Some (VInt (Z.of_nat (length found))) /\
    weight_of "low" = 1 /\ weight_of "medium" = 2 /\ weight_of "high" = 3 /\
    weight_of "critical" = 5 /\
    forall severity : string,
      severity_weight !! severity = None -> weight_of severity = 1.
Proof.
  intros r sm.
  assert (H : r !! "summary" = Some (VDict sm)) by (vm_compute; reflexivity).
  split; [exact H|]. split; [vm_compute; reflexivity|].
  exact (risk_score_is_sum_of_severity_weights modular undisturbed demo_target
           get_mock_test_vectors (3 # 10) ∅ sm H).
Defined.

(** [C7] For a non-empty list of test vectors, a run of [run_mock_test]
    that completes normally (its [try] block ends without an exception and
    the flag was found true at each of the 100 checks) returns a result
    whose [summary] has [total_tests] equal to the number of vectors times
    10. *)
Theorem total_tests_on_normal_completion
    (f : source) (E : env) (target : gmap string string)
    (test_vectors : list (gmap string string)) (duration : Q)
    (s : gmap string pyval) :
  test_vectors <> [] ->
  returned (fst (run_mock_test_try f E target test_vectors duration (World s []))) = true ->
  flag_stayed_true (history (snd (run f E target test_vectors duration s))) ->
  exists r sm : gmap string pyval,
    fst (run f E target test_vectors duration s) = Ok (VDict r) /\
    r !! "summary" = Some (VDict sm) /\
    sm !! "total_tests" = Some (VInt (Z.of_nat (length test_vectors) * 10)).
Proof.
  intros _ Hret _.
  destruct (run_returns_normal_result f E target test_vectors duration s Hret)
    as (v & Hv & r & found & sm & -> & _ & _ & _ & Hs & _ & _ & Htotal & _).
  eauto.
Qed.

Lemma total_tests_on_normal_completion_witness :
  get_mock_test_vectors <> [] /\
  returned (fst (run_mock_test_try modular undisturbed demo_target
                   get_mock_test_vectors (3 # 10) (World ∅ []))) = true /\
  flag_stayed_true
    (history (snd (run modular undisturbed demo_target
                     get_mock_test_vectors (3 # 10) ∅))) /\
  exists r sm : gmap string pyval,
    fst (run modular undisturbed demo_target get_mock_test_vectors (3 # 10) ∅)
      = Ok (VDict r) /\
    r !! "summary" = Some (VDict sm) /\
    sm !! "total_tests" = Some (VInt 30).
Proof.
  assert (H1 : get_mock_test_vectors <> []) by discriminate.
  assert (H2 : returned (fst (run_mock_test_try modular undisturbed demo_target
                   get_mock_test_vectors (3 # 10) (World ∅ []))) = true)
    by (vm_compute; reflexivity).
  assert (H3 : flag_stayed_true
    (history (snd (run modular undisturbed demo_target
                     get_mock_test_vectors (3 # 10) ∅))))
    by (split; vm_compute; reflexivity).
  split; [exact H1|]. split; [exact H2|]. split; [exact H3|].
  exact (total_tests_on_normal_completion modular undisturbed demo_target
           get_mock_test_vectors (3 # 10) ∅ H1 H2 H3).
Defined.

(** A run in which a check found the flag false did not raise. *)
Lemma cancelled_returns (f : source) (E : env)
    (target : gmap string string) (test_vectors : list (gmap string string))
    (duration : Q) (s : gmap string pyval) :
  cancelled (history (snd (run f E target test_vectors duration s))) = true ->
  returned (fst (run_mock_test_try f E target test_vectors duration (World s []))) = true.
Proof.
  intros Hc.
  destruct (run_trace f E target test_vectors duration s)
    as (m & vs & tail & Hm & Hpw & Hfr & Hlen & Hvs & Hend).
  destruct (fst (run_mock_test_try f E target test_vectors duration (World s [])))
    as [v|e]; [done|].
  unfold cancelled in Hc. rewrite Hfr, existsb_app, existsb_false_all in Hc by done.
  destruct Hend as [-> | (_ & x & -> & Hx)]; simpl in Hc; [done|].
  by rewrite Hx in Hc.
Qed.

(** [C10] A run of [run_mock_test] that was cancelled (a check found the
    flag false and the loop was left early) returns a result of the same
    shape as a completed run: [summary.total_tests] is still the number of
    vectors times 10, [timestamp] and [target] are present, and the result
    and its summary have exactly the keys that the result and the summary of
    any completed run of the same version have. *)
Theorem cancelled_result_has_shape_of_completed
    (f : source) (E : env) (target : gmap string string)
    (test_vectors : list (gmap string string)) (duration : Q)
    (s : gmap string pyval) :
  cancelled (history (snd (run f E target test_vectors duration s))) = true ->
  exists r sm : gmap string pyval,
    fst (run f E target test_vectors duration s) = Ok (VDict r) /\
    r !! "summary" = Some (VDict sm) /\
    sm !! "total_tests" = Some (VInt (Z.of_nat (length test_vectors) * 10)) /\
    is_Some (r !! "timestamp") /\
    is_Some (r !! "target") /\
    forall (E' : env) (target' : gmap string string)
           (test_vectors' : list (gmap string string)) (duration' : Q)
           (s' : gmap string pyval),
      returned (fst (run_mock_test_try f E' target' test_vectors' duration'
                       (World s' []))) = true ->
      flag_stayed_true (history (snd (run f E' target' test_vectors' duration' s'))) ->
      exists r' sm' : gmap string pyval,
        fst (run f E' target' test_vectors' duration' s') = Ok (VDict r') /\
        r' !! "summary" = Some (VDict sm') /\
        dom r = dom r' /\ dom sm = dom sm'.
Proof.
  intros Hc. apply cancelled_returns in Hc.
  destruct (run_returns_normal_result f E target test_vectors duration s Hc)
    as (v & Hv & r & found & sm & -> & Hdom & _ & _ & Hs & _ & _ & Htotal & Hsm).
  exists r, sm. do 3 (split; [done|]).
  split; [apply elem_of_dom; rewrite Hdom; destruct f; set_solver|].
  split; [apply elem_of_dom; rewrite Hdom; destruct f; set_solver|].
  intros E' target' test_vectors' duration' s' Hret _.
  destruct (run_returns_normal_result f E' target' test_vectors' duration' s' Hret)
    as (v' & Hv' & r' & found' & sm' & -> & Hdom' & _ & _ & Hs' & _ & _ & _ & Hsm').
  exists r', sm'. do 2 (split; [done|]). split; congruence.
Qed.

Lemma cancelled_result_has_shape_of_completed_witness :
  cancelled (history (snd (run guared (cancel_during 3) demo_target
                             get_mock_test_vectors (3 # 10) ∅))) = true /\
  exists r sm : gmap string pyval,
    fst (run guared (cancel_during 3) demo_target get_mock_test_vectors (3 # 10) ∅)
      = Ok (VDict r) /\
    r !! "summary" = Some (VDict sm) /\
    sm !! "total_tests" = Some (VInt 30) /\
    is_Some (r !! "timestamp") /\
    is_Some (r !! "target") /\
    forall (E' : env) (target' : gmap string string)
           (test_vectors' : list (gmap string string)) (duration' : Q)
           (s' : gmap string pyval),
      returned (fst (run_mock_test_try guared E' target' test_vectors' duration'
                       (World s' []))) = true ->
      flag_stayed_true (history (snd (run guared E' target' test_vectors' duration' s'))) ->
      exists r' sm' : gmap string pyval,
        fst (run guared E' target' test_vectors' duration' s') = Ok (VDict r') /\
        r' !! "summary" = Some (VDict sm') /\
        dom r = dom r' /\ dom sm = dom sm'.
Proof.
  assert (H1 : cancelled (history (snd (run guared (cancel_during 3) demo_target
                             get_mock_test_vectors (3 # 10) ∅))) = true)
    by (vm_compute; reflexivity).
  split; [exact H1|].
  exact (cancelled_result_has_shape_of_completed guared (cancel_during 3) demo_target
           get_mock_test_vectors (3 # 10) ∅ H1).
Defined.


(** ** The error result *)

(** When the [try] block raises, the run returns a dict that says so; the
    single-file version stamps it, the modular version does not. *)
Lemma error_result_fields (f : source) (E : env)
    (target : gmap string string) (test_vectors : list (gmap string string))
    (duration : Q) (w : world) (e : exn) :
  fst (run_mock_test_try f E target test_vectors duration w) = Raised e ->
  exists r : gmap string pyval,
    fst (run_mock_test f E target test_vectors duration w) = Ok (VDict r) /\
    r !! "error" = Some (VBool true) /\
    r !! "error_message" = Some (VStr (exn_str e)) /\
    r !! "summary" = None /\
    r !! "timestamp"
      = match f with
        | modular => None
        | guared => Some (VStr (now_isoformat E AtFailure))
        end.
Proof.
  intros Htry. unfold run_mock_test, try_finally, try_except.
  destruct (run_mock_test_try f E target test_vectors duration w) as [[v|e'] w1];
    simpl in Htry; [done|]. injection Htry as ->.
  destruct f; simpl; eexists; (split; [reflexivity|]);
    by rewrite ?lookup_insert_ne, ?lookup_insert_eq by done.
Qed.

(** [C4] At an input on which the loop raises (no test vectors, and the
    first draw below 0.2 so that [random.choice] is called on the empty
    list), the exception does not reach the caller and the result carries
    [error] and [error_message]; but the result of src/security_tests.py has
    no [timestamp], while that of src/guared.py at the same input has. *)
Theorem modular_error_result_lacks_timestamp :
  let failure := Exn "IndexError" "Cannot choose from an empty sequence" in
  let r := result_dict (fst (run modular always_hit demo_target [] 0 ∅)) in
  let r' := result_dict (fst (run guared always_hit demo_target [] 0 ∅)) in
  fst (run_mock_test_try modular always_hit demo_target [] 0 (World ∅ []))
    = Raised failure /\
  fst (run modular always_hit demo_target [] 0 ∅) = Ok (VDict r) /\
  r !! "error" = Some (VBool true) /\
  r !! "error_message" = Some (VStr "Cannot choose from an empty sequence") /\
  r !! "timestamp" = None /\
  dom r = {[ "error"; "error_message" ]} /\
  fst (run guared always_hit demo_target [] 0 ∅) = Ok (VDict r') /\
  r' !! "error" = Some (VBool true) /\
  r' !! "error_message" = Some (VStr "Cannot choose from an empty sequence") /\
  is_Some (r' !! "timestamp").
Proof.
  intros failure r r'.
  repeat split; try (vm_compute; reflexivity).
  exists (VStr "2024-01-01T00:00:00"). vm_compute. reflexivity.
Qed.

(** ** Handle cleanup *)

(** A list of thread objects is pruned to the live ones. *)
Lemma keep_alive_threads (states : list bool) :
  keep_alive (map (fun alive => VHandle (Thread alive)) states)
  = Ok (map (fun alive => VHandle (Thread alive))
            (List.filter (fun alive : bool => alive) states)).
Proof.
  induction states as [|b states IH]; simpl; [done|].
  rewrite IH. by destruct b.
Qed.

(** A list that holds a pool future cannot be filtered. *)
Lemma keep_alive_future (l : list pyval) (finished : bool) :
  VHandle (Future finished) ∈ l -> returned (keep_alive l) = false.
Proof.
  induction l as [|x l IH]; [by intros ?%elem_of_nil|].
  intros [<- | Hin]%elem_of_cons; simpl; [done|].
  destruct (is_alive x) as [b|e]; [|done].
  specialize (IH Hin). by destruct (keep_alive l).
Qed.

(** With a future in the tracked list, [cleanup_threads] changes nothing. *)
Lemma cleanup_threads_with_future (f : source) (s : gmap string pyval)
    (l : list pyval) (finished : bool) :
  s !! "active_threads" = Some (VList l) ->
  VHandle (Future finished) ∈ l ->
  cleanup_threads f s = s.
Proof.
  intros Hs Hin. apply keep_alive_future in Hin.
  destruct f; unfold cleanup_threads; rewrite Hs; simpl;
    unfold filter_alive, iterate; by destruct (keep_alive l).
Qed.

(** [C5] After two tests were started through the pool and the first has
    finished, [cleanup_threads] (of either version) leaves the tracked list
    as it was: the finished handle is still there.  The handles are futures,
    which have no [is_alive]; the filter raises and the handler only logs. *)
Theorem cleanup_threads_keeps_finished_future :
  two_tests_started !! "active_threads"
    = Some (VList [VHandle (Future true); VHandle (Future false)]) /\
  finished_handle (VHandle (Future true)) = true /\
  cleanup_threads modular two_tests_started = two_tests_started /\
  cleanup_threads guared two_tests_started = two_tests_started.
Proof.
  assert (H : two_tests_started !! "active_threads"
              = Some (VList [VHandle (Future true); VHandle (Future false)]))
    by (vm_compute; reflexivity).
  split; [exact H|]. split; [reflexivity|].
  split; apply (cleanup_threads_with_future _ _ _ true H); apply elem_of_cons; by left.
Qed.

(** ** Defaults of the session state *)

Section Defaults.
Implicit Types (s : gmap string pyval) (l : list (string * pyval)).

Lemma setdefault_present s (k k' : string) (d v : pyval) :
  s !! k = Some v -> setdefault k' d s !! k = Some v.
Proof.
  intros Hk. unfold setdefault. destruct (s !! k') eqn:Hk'; [done|].
  rewrite lookup_insert_ne; [done|]. intros ->. congruence.
Qed.

Lemma defaults_keep_present l : forall s (k : string) (v : pyval),
  s !! k = Some v ->
  foldl (fun s kv => setdefault (fst kv) (snd kv) s) s l !! k = Some v.
Proof.
  induction l as [|[k' d] l IH]; intros s k v Hk; simpl; [done|].
  apply IH. by apply setdefault_present.
Qed.

Lemma defaults_fill_absent l : forall s (k : string) (d : pyval),
  NoDup (map fst l) -> (k, d) ∈ l -> s !! k = None ->
  foldl (fun s kv => setdefault (fst kv) (snd kv) s) s l !! k = Some d.
Proof.
  induction l as [|[k' d'] l IH]; intros s k d Hnd Hin Hk; simpl.
  - by apply elem_of_nil in Hin.
  - apply NoDup_cons in Hnd as [Hnotin Hnd].
    apply elem_of_cons in Hin as [[= -> ->] | Hin].
    + apply defaults_keep_present. unfold setdefault. rewrite Hk.
      apply lookup_insert_eq.
    + assert (k <> k').
      { intros ->. apply Hnotin. apply list_elem_of_fmap. by exists (k', d). }
      apply IH; [done | done |].
      unfold setdefault. destruct (s !! k'); [done|].
      by rewrite lookup_insert_ne.
Qed.

Lemma defaults_nothing_to_do l : forall s,
  (forall (k : string) (d : pyval), (k, d) ∈ l -> is_Some (s !! k)) ->
  foldl (fun s kv => setdefault (fst kv) (snd kv) s) s l = s.
Proof.
  induction l as [|[k' d'] l IH]; intros s Hall; simpl; [done|].
  assert (Hs : setdefault k' d' s = s).
  { unfold setdefault. destruct (Hall k' d') as [v ->]; [apply elem_of_cons; by left | done]. }
  rewrite Hs. apply IH. intros k d Hin. apply (Hall k d). apply elem_of_cons. by right.
Qed.

Lemma session_defaults_keys_distinct : NoDup (map fst session_defaults).
Proof. apply (bool_decide_unpack _). vm_compute. reflexivity. Qed.
End Defaults.

(** [C8] [initialize_session_state] never overwrites: every key that is
    present keeps its value (so a [running_test] that was set to [True]
    stays [True]), every key of the table that is absent receives its
    default, and initializing again changes nothing. *)
Theorem initialize_session_state_keeps_present_keys (s : gmap string pyval) :
  (forall (k : string) (v : pyval),
     s !! k = Some v -> initialize_session_state s !! k = Some v) /\
  (forall (k : string) (d : pyval),
     (k, d) ∈ session_defaults -> s !! k = None ->
     initialize_session_state s !! k = Some d) /\
  (s !! "running_test" = Some (VBool true) ->
     initialize_session_state s !! "running_test" = Some (VBool true)) /\
  initialize_session_state (initialize_session_state s) = initialize_session_state s.
Proof.
  unfold initialize_session_state. split; [| split; [| split]].
  - intros k v. apply defaults_keep_present.
  - intros k d. apply defaults_fill_absent, session_defaults_keys_distinct.
  - apply defaults_keep_present.
  - apply defaults_nothing_to_do. intros k d Hin.
    destruct (s !! k) as [v|] eqn:Hk.
    + exists v. by apply defaults_keep_present.
    + exists d. by apply defaults_fill_absent; [apply session_defaults_keys_distinct | |].
Qed.

Lemma initialize_session_state_keeps_present_keys_witness :
  let s : gmap string pyval := {[ "running_test" := VBool true ]} in
  s !! "running_test" = Some (VBool true) /\
  s !! "progress" = None /\
  initialize_session_state s !! "running_test" = Some (VBool true) /\
  initialize_session_state s !! "progress" = Some (VInt 0).
Proof.
  intros s.
  assert (H1 : s !! "running_test" = Some (VBool true)) by reflexivity.
  assert (H2 : s !! "progress" = None) by reflexivity.
  assert (H3 : ("progress"%string, VInt 0) ∈ session_defaults)
    by (do 3 (apply elem_of_cons; right); apply elem_of_cons; by left).
  split; [exact H1|]. split; [exact H2|].
  pose proof (initialize_session_state_keeps_present_keys s) as (_ & Hfill & Hflag & _).
  split; [exact (Hflag H1) | exact (Hfill _ _ H3 H2)].
Defined.

(** The table of the code, for the record: the strictness key is spelled
    in capitals, and [show_bias_results] is defaulted too. *)
Example defaults_on_empty_session :
  initialize_session_state ∅ !! "VALIDATION_STRICTNESS" = Some (VInt 2) /\
  initialize_session_state ∅ !! "validation_strictness" = None /\
  initialize_session_state ∅ !! "show_bias_results" = Some (VBool false) /\
  size (initialize_session_state ∅) = 16%nat.
Proof. repeat split; vm_compute; reflexivity. Qed.

(** ** The DOI pattern *)

Lemma at_end_spec (s : list ascii) :
  at_end s = true <-> s = [] \/ s = [newline].
Proof.
  destruct s as [|c [|c' s]]; simpl.
  - intuition.
  - rewrite Ascii.eqb_eq. split; [intros ->; by right | intros [?|[= ->]]; done].
  - split; [done | intros [?|?]; done].
Qed.

(** The repetition matches exactly when a prefix of admissible length
    consists of matching characters and the rest of the pattern matches
    what follows. *)
Lemma match_repeat_spec (ok : ascii -> bool) (k : nat -> list ascii -> bool)
    (s : list ascii) :
  forall (lo : nat) (hi : option nat) (pos : nat),
    match_repeat ok lo hi k pos s = true <->
    exists pre post : list ascii,
      s = pre ++ post /\
      forallb ok pre = true /\
      (lo <= length pre)%nat /\
      match hi with Some h => (length pre <= h)%nat | None => True end /\
      k (pos + length pre)%nat post = true.
Proof.
  induction s as [|c s IH]; intros lo hi pos.
  - split.
    + intros H. exists [], []. simpl in *. rewrite Nat.add_0_r.
      destruct lo; [| by destruct hi as [[|]|]].
      rewrite orb_true_iff in H. destruct H as [H|H]; [| by destruct hi as [[|]|]].
      repeat split; try done. destruct hi; [lia | done].
    + intros (pre & post & Hs & _ & Hlo & _ & Hk).
      symmetry in Hs. apply app_eq_nil in Hs as [-> ->]. simpl in *.
      rewrite Nat.add_0_r in Hk. destruct lo; [|lia]. by rewrite Hk.
  - simpl. rewrite orb_true_iff. split.
    + intros [H | H].
      * destruct lo; [|done]. exists [], (c :: s). simpl. rewrite Nat.add_0_r.
        repeat split; try done. destruct hi; [lia | done].
      * assert (Hhi : hi <> Some 0%nat) by (by intros ->).
        assert (H' : ok c && match_repeat ok (pred lo) (option_map pred hi) k (S pos) s = true)
          by (by destruct hi as [[|]|]).
        apply andb_prop in H' as [Hc Hrest].
        apply IH in Hrest as (pre & post & -> & Hpre & Hlo & Hh & Hk).
        exists (c :: pre), post. simpl. rewrite Hc, Hpre.
        replace (pos + S (length pre))%nat with (S pos + length pre)%nat by lia.
        repeat split; try done; [lia|].
        destruct hi as [[|h]|]; simpl in *; [done | lia | done].
    + intros (pre & post & Hs & Hpre & Hlo & Hh & Hk).
      destruct pre as [|c' pre]; simpl in *.
      * left. subst post. rewrite Nat.add_0_r in Hk. destruct lo; [done | lia].
      * right. injection Hs as <- ->. apply andb_prop in Hpre as [Hc Hpre].
        assert (Hrest : match_repeat ok (pred lo) (option_map pred hi) k (S pos)
                          (pre ++ post) = true).
        { apply IH. exists pre, post.
          replace (S pos + length pre)%nat with (pos + S (length pre))%nat by lia.
          repeat split; try done; [lia|].
          destruct hi as [[|h]|]; simpl in *; [lia | lia | done]. }
        rewrite Hc, Hrest. by destruct hi as [[|]|]; [lia | |].
Qed.

(** A single occurrence. *)
Lemma once_spec (ok : ascii -> bool) (k : nat -> list ascii -> bool)
    (pos : nat) (s : list ascii) :
  match_repeat ok 1 (Some 1%nat) k pos s = true <->
  exists (c : ascii) (s' : list ascii),
    s = c :: s' /\ ok c = true /\ k (S pos) s' = true.
Proof.
  rewrite match_repeat_spec. split.
  - intros (pre & post & -> & Hpre & Hlo & Hhi & Hk).
    destruct pre as [|c [|c' pre]]; simpl in *; try lia.
    exists c, post. rewrite andb_true_r in Hpre.
    replace (pos + 1)%nat with (S pos) in Hk by lia. done.
  - intros (c & s' & -> & Hc & Hk). exists [c], s'. simpl.
    rewrite Hc. replace (pos + 1)%nat with (S pos) by lia.
    repeat split; try done; lia.
Qed.

(** ** The DOI pattern on Unicode text *)

Lemma unicode_at_end_spec (s : list Z) :
  Unicode.at_end s = true <-> s = [] \/ s = [Unicode.newline].
Proof.
  destruct s as [|c [|c' s]]; simpl.
  - intuition.
  - rewrite Z.eqb_eq. split; [intros ->; by right | intros [?|[= ->]]; done].
  - split; [done | intros [?|?]; done].
Qed.

Lemma unicode_match_repeat_spec (ok : Z -> bool) (k : nat -> list Z -> bool)
    (s : list Z) :
  forall (lo : nat) (hi : option nat) (pos : nat),
    Unicode.match_repeat ok lo hi k pos s = true <->
    exists pre post : list Z,
      s = pre ++ post /\
      forallb ok pre = true /\
      (lo <= length pre)%nat /\
      match hi with Some h => (length pre <= h)%nat | None => True end /\
      k (pos + length pre)%nat post = true.
Proof.
  induction s as [|c s IH]; intros lo hi pos.
  - split.
    + intros H. exists [], []. simpl in *. rewrite Nat.add_0_r.
      destruct lo; [| by destruct hi as [[|]|]].
      rewrite orb_true_iff in H. destruct H as [H|H]; [| by destruct hi as [[|]|]].
      repeat split; try done. destruct hi; [lia | done].
    + intros (pre & post & Hs & _ & Hlo & _ & Hk).
      symmetry in Hs. apply app_eq_nil in Hs as [-> ->]. simpl in *.
      rewrite Nat.add_0_r in Hk. destruct lo; [|lia]. by rewrite Hk.
  - simpl. rewrite orb_true_iff. split.
    + intros [H | H].
      * destruct lo; [|done]. exists [], (c :: s). simpl. rewrite Nat.add_0_r.
        repeat split; try done. destruct hi; [lia | done].
      * assert (Hhi : hi <> Some 0%nat) by (by intros ->).
        assert (H' : ok c && Unicode.match_repeat ok (pred lo) (option_map pred hi)
                               k (S pos) s = true)
          by (by destruct hi as [[|]|]).
        apply andb_prop in H' as [Hc Hrest].
        apply IH in Hrest as (pre & post & -> & Hpre & Hlo & Hh & Hk).
        exists (c :: pre), post. simpl. rewrite Hc, Hpre.
        replace (pos + S (length pre))%nat with (S pos + length pre)%nat by lia.
        repeat split; try done; [lia|].
        destruct hi as [[|h]|]; simpl in *; [done | lia | done].
    + intros (pre & post & Hs & Hpre & Hlo & Hh & Hk).
      destruct pre as [|c' pre]; simpl in *.
      * left. subst post. rewrite Nat.add_0_r in Hk. destruct lo; [done | lia].
      * right. injection Hs as <- ->. apply andb_prop in Hpre as [Hc Hpre].
        assert (Hrest : Unicode.match_repeat ok (pred lo) (option_map pred hi) k
                          (S pos) (pre ++ post) = true).
        { apply IH. exists pre, post.
          replace (S pos + length pre)%nat with (pos + S (length pre))%nat by lia.
          repeat split; try done; [lia|].
          destruct hi as [[|h]|]; simpl in *; [lia | lia | done]. }
        rewrite Hc, Hrest. by destruct hi as [[|]|]; [lia | |].
Qed.

Lemma unicode_once_spec (ok : Z -> bool) (k : nat -> list Z -> bool)
    (pos : nat) (s : list Z) :
  Unicode.match_repeat ok 1 (Some 1%nat) k pos s = true <->
  exists (c : Z) (s' : list Z),
    s = c :: s' /\ ok c = true /\ k (S pos) s' = true.
Proof.
  rewrite unicode_match_repeat_spec. split.
  - intros (pre & post & -> & Hpre & Hlo & Hhi & Hk).
    destruct pre as [|c [|c' pre]]; simpl in *; try lia.
    exists c, post. rewrite andb_true_r in Hpre.
    replace (pos + 1)%nat with (S pos) in Hk by lia. done.
  - intros (c & s' & -> & Hc & Hk). exists [c], s'. simpl.
    rewrite Hc. replace (pos + 1)%nat with (S pos) by lia.
    repeat split; try done; lia.
Qed.

(** The characters of a set item are those it matches. *)
Lemma in_elements (it : Unicode.set_item) (x : Z) :
  List.In x (Unicode.elements it) <-> Unicode.set_item_matches it x = true.
Proof.
  destruct it as [c|lo hi]; simpl.
  - rewrite Z.eqb_eq. split; [by intros [->|[]] | intros ->; by left].
  - rewrite in_map_iff, andb_true_iff, !Z.leb_le. split.
    + intros (i & <- & Hi%in_seq). lia.
    + intros Hx. exists (Z.to_nat (x - lo)). rewrite in_seq. lia.
Qed.

(** With case ignored, a literal without case matches itself only. *)
Lemma caseless_literal_matches (db : Unicode.database) (x c : Z) :
  Unicode.ascii_as_usual db ->
  0 <= x < 65 ->
  Unicode.char_matches db true (Unicode.Literal x) c = (c =? x).
Proof.
  intros Hdb Hx. destruct (Hdb x) as (Hlow & Hup & _); [lia|].
  simpl. unfold Unicode.iscased. rewrite Hlow, Hup.
  replace ((65 <=? x) && (x <=? 90)) with false by lia.
  replace ((97 <=? x) && (x <=? 122)) with false by lia.
  by rewrite Z.eqb_refl.
Qed.
Lemma doi_set_codes :
  Unicode.doi_set
  = [ Unicode.SChar 45; Unicode.SChar 46; Unicode.SChar 95; Unicode.SChar 59;
      Unicode.SChar 40; Unicode.SChar 41; Unicode.SChar 47; Unicode.SChar 58;
      Unicode.SRange 65 90; Unicode.SRange 48 57 ].
Proof. reflexivity. Qed.

Lemma doi_char_codes (db : Unicode.database) (c : Z) :
  Unicode.doi_char db c
  = (let l := Unicode.tolower db c in
     existsb (Z.eqb l) [45; 46; 95; 59; 40; 41; 47; 58]
     || ((97 <=? l) && (l <=? 122)) || ((48 <=? l) && (l <=? 57))
     || (l =? 305) || (l =? 383)).
Proof. reflexivity. Qed.

Lemma folded_ascii (db : Unicode.database) (x : Z) :
  Unicode.ascii_as_usual db ->
  0 <= x < 128 ->
  Unicode.folded db x
  = (let lo := if (65 <=? x) && (x <=? 90) then x + 32 else x in
     lo :: (if lo =? 105 then [305] else if lo =? 115 then [383] else [])).
Proof.
  intros Hdb Hx. destruct (Hdb x Hx) as (Hlow & _ & _).
  destruct (Hdb (Unicode.tolower db x)) as (_ & _ & Hextra);
    [rewrite Hlow; destruct ((65 <=? x) && (x <=? 90)) eqn:?; lia|].
  unfold Unicode.folded. cbv zeta. by rewrite Hextra, Hlow.
Qed.

(** What the set of the DOI pattern matches when case is ignored. *)
Lemma doi_set_matches (db : Unicode.database) (c : Z) :
  Unicode.ascii_as_usual db ->
  Unicode.char_matches db true (Unicode.In Unicode.doi_set) c = Unicode.doi_char db c.
Proof.
  intros Hdb. cbn [Unicode.char_matches andb].
  rewrite doi_char_codes, doi_set_codes.
  assert (Hcased : existsb (fun it => existsb (Unicode.iscased db) (Unicode.elements it))
                     [ Unicode.SChar 45; Unicode.SChar 46; Unicode.SChar 95;
                       Unicode.SChar 59; Unicode.SChar 40; Unicode.SChar 41;
                       Unicode.SChar 47; Unicode.SChar 58;
                       Unicode.SRange 65 90; Unicode.SRange 48 57 ] = true).
  { apply existsb_exists. exists (Unicode.SRange 65 90). split; [simpl; tauto|].
    apply existsb_exists. exists 65. split; [simpl; tauto|].
    destruct (Hdb 65) as (Hlow & _); [lia|].
    unfold Unicode.iscased. by rewrite Hlow. }
  rewrite Hcased. cbv zeta.
  generalize (Unicode.tolower db c) as l. intros l.
  apply eq_true_iff_eq. rewrite existsb_exists.
  split.
  - intros (y & Hy & ->%Z.eqb_eq).
    apply in_flat_map in Hy as (it & Hit & Hy).
    apply in_flat_map in Hy as (x & Hx%in_elements & Hy).
    assert (Hascii : 0 <= x < 128).
    { simpl in Hit. repeat destruct Hit as [<- | Hit]; simpl in Hx;
        try done; lia. }
    rewrite (folded_ascii db x Hdb Hascii) in Hy. cbv zeta in Hy.
    simpl in Hit. repeat destruct Hit as [<- | Hit]; simpl in Hx; try done;
      try (apply Z.eqb_eq in Hx as ->; simpl in Hy;
           destruct Hy as [<- | []]; reflexivity).
    + destruct ((65 <=? x) && (x <=? 90)) eqn:Hr; [|lia].
      destruct (x + 32 =? 105) eqn:H105; [|destruct (x + 32 =? 115) eqn:H115];
        simpl in Hy; destruct Hy as [<- | Hy]; try destruct Hy as [<- | []];
        try done; rewrite !orb_true_iff, !andb_true_iff, !Z.leb_le, !Z.eqb_eq;
        lia.
    + destruct ((65 <=? x) && (x <=? 90)) eqn:Hr; [lia|].
      replace (x =? 105) with false in Hy by lia.
      replace (x =? 115) with false in Hy by lia.
      simpl in Hy. destruct Hy as [<- | []].
      rewrite !orb_true_iff, !andb_true_iff, !Z.leb_le, !Z.eqb_eq.
      lia.
  - intros H.
    assert (Hcover : forall (it : Unicode.set_item) (x : Z),
              List.In it [ Unicode.SChar 45; Unicode.SChar 46; Unicode.SChar 95;
                           Unicode.SChar 59; Unicode.SChar 40; Unicode.SChar 41;
                           Unicode.SChar 47; Unicode.SChar 58;
                           Unicode.SRange 65 90; Unicode.SRange 48 57 ] ->
              Unicode.set_item_matches it x = true ->
              0 <= x < 128 ->
              List.In l (let lo := if (65 <=? x) && (x <=? 90) then x + 32 else x in
                         lo :: (if lo =? 105 then [305]
                                else if lo =? 115 then [383] else [])) ->
              exists y : Z,
                List.In y (flat_map
                             (fun it => flat_map (Unicode.folded db) (Unicode.elements it))
                             [ Unicode.SChar 45; Unicode.SChar 46; Unicode.SChar 95;
                               Unicode.SChar 59; Unicode.SChar 40; Unicode.SChar 41;
                               Unicode.SChar 47; Unicode.SChar 58;
                               Unicode.SRange 65 90; Unicode.SRange 48 57 ])
                /\ (l =? y) = true).
    { intros it x Hit Hx Hascii Hl. exists l. split; [|apply Z.eqb_refl].
      apply in_flat_map. exists it. split; [done|].
      apply in_flat_map. exists x. split; [by apply in_elements|].
      by rewrite (folded_ascii db x Hdb Hascii). }
    rewrite !orb_true_iff in H. destruct H as [[[[H|H]|H]|H]|H].
    + simpl in H. rewrite !orb_true_iff, !Z.eqb_eq in H.
      destruct H as [H|[H|[H|[H|[H|[H|[H|[H|H]]]]]]]]; try done; subst l.
      * apply (Hcover (Unicode.SChar 45) 45); simpl; tauto || lia.
      * apply (Hcover (Unicode.SChar 46) 46); simpl; tauto || lia.
      * apply (Hcover (Unicode.SChar 95) 95); simpl; tauto || lia.
      * apply (Hcover (Unicode.SChar 59) 59); simpl; tauto || lia.
      * apply (Hcover (Unicode.SChar 40) 40); simpl; tauto || lia.
      * apply (Hcover (Unicode.SChar 41) 41); simpl; tauto || lia.
      * apply (Hcover (Unicode.SChar 47) 47); simpl; tauto || lia.
      * apply (Hcover (Unicode.SChar 58) 58); simpl; tauto || lia.
    + apply andb_true_iff in H as [Hlo%Z.leb_le Hhi%Z.leb_le].
      apply (Hcover (Unicode.SRange 65 90) (l - 32)); [simpl; tauto | simpl; lia | lia |].
      replace ((65 <=? l - 32) && (l - 32 <=? 90)) with true by lia.
      cbv zeta. left. lia.
    + apply andb_true_iff in H as [Hlo%Z.leb_le Hhi%Z.leb_le].
      apply (Hcover (Unicode.SRange 48 57) l); [simpl; tauto | simpl; lia | lia |].
      replace ((65 <=? l) && (l <=? 90)) with false by lia.
      cbv zeta. by left.
    + apply Z.eqb_eq in H as ->.
      apply (Hcover (Unicode.SRange 65 90) 73); simpl; tauto || lia.
    + apply Z.eqb_eq in H as ->.
      apply (Hcover (Unicode.SRange 65 90) 83); simpl; tauto || lia.
Qed.

Lemma forallb_doi_set_matches (db : Unicode.database) (l : list Z) :
  Unicode.ascii_as_usual db ->
  forallb (Unicode.char_matches db true (Unicode.In Unicode.doi_set)) l
  = forallb (Unicode.doi_char db) l.
Proof.
  intros Hdb. induction l as [|c l IH]; [done|].
  cbn [forallb]. by rewrite doi_set_matches, IH.
Qed.

(** The matcher run on the DOI pattern accepts exactly the strings of the
    language the pattern denotes. *)
Lemma unicode_re_match_doi_pattern (db : Unicode.database) (s : list Z) :
  Unicode.ascii_as_usual db ->
  Unicode.re_match db Unicode.doi_pattern true s = true
  <-> Unicode.matches_doi_regex db s.
Proof.
  intros Hdb. unfold Unicode.re_match, Unicode.matches_doi_regex.
  cbn [Unicode.doi_pattern Unicode.match_here Unicode.once].
  change (Nat.eqb 0 0) with true. cbn [andb].
  change (Unicode.cp "1") with 49. change (Unicode.cp "0") with 48.
  change (Unicode.cp "/") with 47.
  change (Unicode.text "10") with [49; 48]. cbn [app].
  split.
  - intros H.
    apply unicode_once_spec in H as (c1 & s1 & -> & Hc1 & H).
    apply unicode_once_spec in H as (c0 & s2 & -> & Hc0 & H).
    apply unicode_once_spec in H as (c & s3 & -> & Hc & H).
    apply unicode_match_repeat_spec in H as (digits & s4 & -> & Hdigits & Hlo & Hhi & H).
    apply unicode_once_spec in H as (sl & s5 & -> & Hsl & H).
    apply unicode_match_repeat_spec in H as (suffix & tail & -> & Hsuffix & Hlo' & _ & H).
    cbn [Unicode.match_here] in H. rewrite andb_true_r in H.
    apply unicode_at_end_spec in H.
    rewrite caseless_literal_matches in Hc1 by (done || lia).
    rewrite caseless_literal_matches in Hc0 by (done || lia).
    rewrite caseless_literal_matches in Hsl by (done || lia).
    apply Z.eqb_eq in Hc1 as ->. apply Z.eqb_eq in Hc0 as ->.
    apply Z.eqb_eq in Hsl as ->.
    exists c, digits, suffix, tail.
    split; [reflexivity|].
    split; [intros ->; discriminate|].
    split; [done|]. split; [done|].
    split; [intros ->; simpl in Hlo'; lia|].
    split; [| done].
    by rewrite <- forallb_doi_set_matches.
  - intros (c & digits & suffix & tail & -> & Hc & Hlen & Hdigits & Hne & Hsuffix & Htail).
    apply unicode_once_spec. eexists _, _. split; [reflexivity|].
    split; [rewrite caseless_literal_matches by (done || lia); apply Z.eqb_refl|].
    apply unicode_once_spec. eexists _, _. split; [reflexivity|].
    split; [rewrite caseless_literal_matches by (done || lia); apply Z.eqb_refl|].
    apply unicode_once_spec. eexists _, _. split; [reflexivity|].
    split; [simpl; apply negb_true_iff, Z.eqb_neq, Hc|].
    apply unicode_match_repeat_spec. exists digits, (47 :: suffix ++ tail).
    split; [reflexivity|]. split; [exact Hdigits|]. split; [lia|]. split; [lia|].
    apply unicode_once_spec. eexists _, _. split; [reflexivity|].
    split; [rewrite caseless_literal_matches by (done || lia); apply Z.eqb_refl|].
    apply unicode_match_repeat_spec. exists suffix, tail.
    split; [reflexivity|].
    split; [by rewrite forallb_doi_set_matches|].
    split; [destruct suffix; [done | simpl; lia]|]. split; [done|].
    cbn [Unicode.match_here]. rewrite andb_true_r. by apply unicode_at_end_spec.
Qed.

Lemma unicode_is_valid_doi_format_str (db : Unicode.database) (s : list Z) :
  Unicode.ascii_as_usual db ->
  Unicode.is_valid_doi_format db (Unicode.Str s) = true
  <-> Unicode.matches_doi_regex db s.
Proof.
  intros Hdb. unfold Unicode.is_valid_doi_format. simpl.
  rewrite orb_false_r. destruct s as [|c s]; simpl.
  - split; [done | intros (c & digits & suffix & tail & H & _); discriminate H].
  - by apply unicode_re_match_doi_pattern.
Qed.

Lemma excerpt_ascii_as_usual : Unicode.ascii_as_usual Unicode.excerpt.
Proof.
  intros c Hc. simpl.
  replace (c =? 304) with false by lia. replace (c =? 8490) with false by lia.
  replace (c =? 305) with false by lia. replace (c =? 383) with false by lia.
  done.
Qed.

(** [C9] [is_valid_doi_format] returns true exactly for a [str] that
    matches [^10.\d{4,9}/[-._;()/:A-Z0-9]+$] with case ignored, and false
    for [None] and for anything that is not a [str]; on an argument that
    fails the check, such as ["not-a-doi"], [validate_doi] returns false
    and no request has been sent.  The strings are Unicode text and the
    match is the one of [re]: a digit is any decimal digit of the
    interpreter's Unicode database, and a character is in the set when its
    lower case is.  This holds for every database, ASCII being what it is
    in all of them. *)
Theorem doi_format_is_the_regex_and_gates_the_network (db : Unicode.database) :
  Unicode.ascii_as_usual db ->
  (forall doi : Unicode.object,
     Unicode.is_valid_doi_format db doi = true <->
     exists s : list Z, doi = Unicode.Str s /\ Unicode.matches_doi_regex db s) /\
  (forall truth : bool,
     Unicode.is_valid_doi_format db (Unicode.NotStr truth) = false) /\
  (forall (network : list Unicode.request -> Unicode.request -> outcome)
          (doi : Unicode.object) (n : Unicode.net),
     Unicode.is_valid_doi_format db doi = false ->
     Unicode.validate_doi db network doi n = (false, n)) /\
  Unicode.is_valid_doi_format db (Unicode.Str (Unicode.text "not-a-doi")) = false /\
  (forall (network : list Unicode.request -> Unicode.request -> outcome)
          (n : Unicode.net),
     Unicode.validate_doi db network (Unicode.Str (Unicode.text "not-a-doi")) n
     = (false, n)).
Proof.
  intros Hdb.
  assert (Hnot : Unicode.is_valid_doi_format db
                   (Unicode.Str (Unicode.text "not-a-doi")) = false).
  { apply not_true_is_false. intros H.
    apply unicode_is_valid_doi_format_str in H as (c & ? & ? & ? & H & _); [|done].
    discriminate H. }
  split; [| split; [| split; [| split]]].
  - intros doi. split.
    + intros H. destruct doi as [s|b].
      * exists s. split; [done | by apply unicode_is_valid_doi_format_str].
      * unfold Unicode.is_valid_doi_format in H. simpl in H.
        by rewrite orb_true_r in H.
    + intros (s & -> & H). by apply unicode_is_valid_doi_format_str.
  - intros b. unfold Unicode.is_valid_doi_format. simpl. by rewrite orb_true_r.
  - intros network doi n H. unfold Unicode.validate_doi. by rewrite H.
  - exact Hnot.
  - intros network n. unfold Unicode.validate_doi. by rewrite Hnot.
Qed.

Lemma doi_format_is_the_regex_and_gates_the_network_witness :
  Unicode.ascii_as_usual Unicode.excerpt /\
  Unicode.is_valid_doi_format Unicode.excerpt
    (Unicode.Str (Unicode.text "10.1234/test")) = true /\
  (exists s : list Z,
     Unicode.Str (Unicode.text "10.1234/test") = Unicode.Str s
     /\ Unicode.matches_doi_regex Unicode.excerpt s) /\
  Unicode.is_valid_doi_format Unicode.excerpt
    (Unicode.Str (Unicode.text "not-a-doi")) = false /\
  Unicode.validate_doi Unicode.excerpt (fun _ _ => Response 200)
    (Unicode.Str (Unicode.text "not-a-doi")) (Unicode.Net [] [])
    = (false, Unicode.Net [] []).
Proof.
  assert (H1 : Unicode.is_valid_doi_format Unicode.excerpt
                 (Unicode.Str (Unicode.text "10.1234/test")) = true)
    by (vm_compute; reflexivity).
  pose proof (doi_format_is_the_regex_and_gates_the_network Unicode.excerpt
                excerpt_ascii_as_usual) as (Hiff & _ & Hgate & Hnot & _).
  split; [exact excerpt_ascii_as_usual|].
  split; [exact H1|]. split; [exact (proj1 (Hiff _) H1)|].
  split; [exact Hnot|]. exact (Hgate _ _ _ Hnot).
Defined.

(** Digits and letters outside ASCII: the fullwidth digits are decimal
    digits, and the long s, the Kelvin sign and the dotted and the dotless
    i are in the set, one through the compiler's table and the others
    through their lower case. *)
Example doi_with_characters_outside_ascii :
  Unicode.is_valid_doi_format Unicode.excerpt
    (Unicode.Str (Unicode.text "10." ++ [65297; 65298; 65299; 65300]
                    ++ Unicode.text "/abc")) = true /\
  Unicode.is_valid_doi_format Unicode.excerpt
    (Unicode.Str (Unicode.text "10.1234/" ++ [383; 8490; 304; 305])) = true /\
  Unicode.is_valid_doi_format Unicode.excerpt
    (Unicode.Str (Unicode.text "10.1234/" ++ [223])) = false.
Proof. repeat split; vm_compute; reflexivity. Qed.

(** ** Requests and retries *)

Lemma filter_of_map {A B : Type} (f : B -> bool) (g : A -> B) (l : list A) :
  List.filter f (map g l) = map g (List.filter (fun x => f (g x)) l).
Proof.
  induction l as [|x l IH]; simpl; [done|].
  rewrite IH. by destruct (f (g x)).
Qed.

Section Retry.
Variable network : list request -> request -> outcome.
Variable rq : request.

Lemma answer_shift (n : net) (pauses : list Z) (j : nat) :
  answer network rq (Net (sent n ++ [rq]) pauses) j = answer network rq n (S j).
Proof. unfold answer. simpl. by rewrite <- app_assoc. Qed.

Lemma answer_first (n : net) : answer network rq n 0 = network (sent n) rq.
Proof. unfold answer. simpl. by rewrite app_nil_r. Qed.

(** What the attempts numbered [a], [a + 1], ... do: [k] copies of the
    request are sent; the first [k - 1] answers (all [k] when nothing is
    returned) are not a 200; a pause of [2 ^ attempt] follows every attempt
    that raised, and only those. *)
Lemma retry_attempts_spec (len : nat) : forall (a : nat) (n : net),
  exists k : nat,
    (k <= len)%nat /\
    sent (snd (retry_attempts network rq (seq a len) n)) = sent n ++ replicate k rq /\
    slept (snd (retry_attempts network rq (seq a len) n))
      = slept n
        ++ map (fun j => 2 ^ Z.of_nat (a + j))
             (List.filter (fun j => is_request_exception (answer network rq n j))
                (seq 0 k)) /\
    match fst (retry_attempts network rq (seq a len) n) with
    | Some status_code =>
        status_code = 200 /\ (0 < k)%nat /\
        is_ok_response (answer network rq n (k - 1)) = true /\
        forall j : nat, (j < k - 1)%nat ->
          is_ok_response (answer network rq n j) = false
    | None =>
        k = len /\
        forall j : nat, (j < k)%nat -> is_ok_response (answer network rq n j) = false
    end.
Proof.
  induction len as [|len IH]; intros a n; simpl.
  - exists 0%nat. simpl. rewrite !app_nil_r. repeat split; try done. lia.
  - pose proof (answer_first n) as H0.
    destruct (network (sent n) rq) as [status_code|] eqn:Hans.
    + destruct (status_code =? 200) eqn:Hcode.
      * exists 1%nat. simpl. rewrite H0. simpl. rewrite app_nil_r.
        split; [lia|]. do 2 (split; [done|]).
        split; [lia|]. split; [lia|]. split; [done|]. intros j Hj. lia.
      * destruct (IH (S a) (Net (sent n ++ [rq]) (slept n))) as (k & Hk & Hsent & Hslept & Hres).
        exists (S k). split; [lia|]. simpl in Hsent, Hslept.
        split; [by rewrite Hsent, <- app_assoc|].
        split.
        { rewrite Hslept. f_equal. cbn [seq List.filter]. rewrite H0. simpl.
          rewrite <- seq_shift, filter_of_map, map_map.
          rewrite (filter_ext
                     (fun j => is_request_exception
                                 (answer network rq (Net (sent n ++ [rq]) (slept n)) j))
                     (fun j => is_request_exception (answer network rq n (S j))))
            by (intros j; by rewrite answer_shift).
          apply map_ext. intros j.
          by replace (a + S j)%nat with (S a + j)%nat by lia. }
        destruct (fst (retry_attempts network rq (seq (S a) len) (Net (sent n ++ [rq]) (slept n))))
          as [c|].
        -- destruct Hres as (-> & Hpos & Hlast & Hbefore).
           split; [done|]. split; [lia|].
           rewrite answer_shift in Hlast.
           replace (S k - 1)%nat with (S (k - 1)) by lia.
           split; [done|]. intros [|j] Hj.
           ++ rewrite H0. simpl. done.
           ++ rewrite <- (answer_shift n (slept n)). apply Hbefore. lia.
        -- destruct Hres as (-> & Hnone). split; [done|]. intros [|j] Hj.
           ++ rewrite H0. simpl. done.
           ++ rewrite <- (answer_shift n (slept n)). apply Hnone. lia.
    + destruct (IH (S a) (Net (sent n ++ [rq]) (slept n ++ [2 ^ Z.of_nat a])))
        as (k & Hk & Hsent & Hslept & Hres).
      exists (S k). split; [lia|]. simpl in Hsent, Hslept.
      split; [by rewrite Hsent, <- app_assoc|].
      split.
      { rewrite Hslept, <- app_assoc. f_equal. cbn [seq List.filter]. rewrite H0. simpl.
        rewrite Nat.add_0_r. f_equal.
        rewrite <- seq_shift, filter_of_map, map_map.
        rewrite (filter_ext
                   (fun j => is_request_exception
                               (answer network rq
                                  (Net (sent n ++ [rq]) (slept n ++ [2 ^ Z.of_nat a])) j))
                   (fun j => is_request_exception (answer network rq n (S j))))
          by (intros j; by rewrite answer_shift).
        apply map_ext. intros j.
        by replace (a + S j)%nat with (S a + j)%nat by lia. }
      destruct (fst (retry_attempts network rq (seq (S a) len)
                       (Net (sent n ++ [rq]) (slept n ++ [2 ^ Z.of_nat a])))) as [c|].
      * destruct Hres as (-> & Hpos & Hlast & Hbefore).
        split; [done|]. split; [lia|].
        rewrite answer_shift in Hlast.
        replace (S k - 1)%nat with (S (k - 1)) by lia.
        split; [done|]. intros [|j] Hj.
        -- rewrite H0. done.
        -- rewrite <- (answer_shift n (slept n ++ [2 ^ Z.of_nat a])). apply Hbefore. lia.
      * destruct Hres as (-> & Hnone). split; [done|]. intros [|j] Hj.
        -- rewrite H0. done.
        -- rewrite <- (answer_shift n (slept n ++ [2 ^ Z.of_nat a])). apply Hnone. lia.
Qed.
End Retry.

(** [X1] [retry_request] with a method other than ['head'] and ['get']
    sends nothing and returns [None].  Otherwise it sends the same request
    [k] times, [k] at most [retries], one after the other; it returns as soon
    as an answer has status 200, with that response, so that the last answer
    is the only 200 among the [k]; and it returns [None] only after
    [retries] answers none of which was a 200. *)
Theorem retry_request_stops_at_first_200
    (network : list request -> request -> outcome) (url method : string)
    (retries : nat) (n : net) :
  let rq := Request method url in
  let out := retry_request network url method retries n in
  if String.eqb method "head" || String.eqb method "get"
  then
    exists k : nat,
      (k <= retries)%nat /\
      sent (snd out) = sent n ++ replicate k rq /\
      match fst out with
      | Some status_code =>
          status_code = 200 /\ (0 < k)%nat /\
          is_ok_response (answer network rq n (k - 1)) = true /\
          forall j : nat, (j < k - 1)%nat ->
            is_ok_response (answer network rq n j) = false
      | None =>
          k = retries /\
          forall j : nat, (j < retries)%nat ->
            is_ok_response (answer network rq n j) = false
      end
  else out = (None, n).
Proof.
  intros rq out. subst out. unfold retry_request.
  destruct (String.eqb method "head" || String.eqb method "get"); [|done].
  destruct (retry_attempts_spec network rq retries 0%nat n)
    as (k & Hk & Hsent & _ & Hres).
  exists k. do 2 (split; [done|]). fold rq.
  destruct (fst (retry_attempts network rq (seq 0 retries) n)); [done|].
  destruct Hres as [-> Hnone]. done.
Qed.

(** [X2] The pauses of [retry_request] are exponential and follow
    exceptions only: after the attempt number [j] (from 0) it sleeps
    [2 ^ j] seconds if the request raised, and does not sleep at all if a
    response came back, whatever its status; also after the last attempt. *)
Theorem retry_request_backoff
    (network : list request -> request -> outcome) (url method : string)
    (retries : nat) (n : net) :
  let rq := Request method url in
  let out := retry_request network url method retries n in
  let k := (length (sent (snd out)) - length (sent n))%nat in
  slept (snd out)
  = slept n
    ++ map (fun j => 2 ^ Z.of_nat j)
         (List.filter (fun j => is_request_exception (answer network rq n j))
            (seq 0 k)).
Proof.
  intros rq out k. subst out k. unfold retry_request.
  destruct (String.eqb method "head" || String.eqb method "get").
  - destruct (retry_attempts_spec network rq retries 0%nat n)
      as (k & Hk & Hsent & Hslept & _).
    fold rq. rewrite Hsent, length_app, length_replicate.
    replace (length (sent n) + k - length (sent n))%nat with k by lia.
    exact Hslept.
  - simpl. rewrite Nat.sub_diag. simpl. by rewrite app_nil_r.
Qed.

(** ** URLs *)

Lemma prefix_spec (p : string) : forall s : string,
  String.prefix p s = true <->
  exists rest : list ascii,
    list_ascii_of_string s = list_ascii_of_string p ++ rest.
Proof.
  induction p as [|a p IH]; intros s; destruct s as [|b s]; simpl.
  - split; [intros _; by eexists | done].
  - split; [intros _; by eexists | done].
  - split; [done | intros [rest H]; discriminate H].
  - destruct (Ascii.ascii_dec a b) as [-> | Hne].
    + rewrite IH. split; intros [rest H]; exists rest; congruence.
    + split; [done | intros [rest H]; congruence].
Qed.

Lemma plain_literal_matches (x c : ascii) :
  char_matches false (Literal x) c = true <-> c = x.
Proof. simpl. apply Ascii.eqb_eq. Qed.

(** The matcher run on the URL pattern accepts exactly the strings that
    start with [http://] or [https://]. *)
Lemma re_match_url_pattern (s : string) :
  re_match url_pattern false s = true <->
  String.prefix "http://" s || String.prefix "https://" s = true.
Proof.
  rewrite orb_true_iff, !prefix_spec. unfold re_match.
  generalize (list_ascii_of_string s) as cs. intros cs.
  cbn [url_pattern match_here once]. change (Nat.eqb 0 0) with true. cbn [andb].
  split.
  - intros H.
    apply once_spec in H as (c1 & s1 & -> & ->%plain_literal_matches & H).
    apply once_spec in H as (c2 & s2 & -> & ->%plain_literal_matches & H).
    apply once_spec in H as (c3 & s3 & -> & ->%plain_literal_matches & H).
    apply once_spec in H as (c4 & s4 & -> & ->%plain_literal_matches & H).
    apply match_repeat_spec in H as (pre & post & -> & Hpre & _ & Hhi & H).
    apply once_spec in H as (c5 & s5 & -> & ->%plain_literal_matches & H).
    apply once_spec in H as (c6 & s6 & -> & ->%plain_literal_matches & H).
    apply once_spec in H as (c7 & s7 & -> & ->%plain_literal_matches & _).
    destruct pre as [|c [|c' pre]]; simpl in Hhi; [| | lia].
    + left. by exists s7.
    + right. simpl in Hpre. rewrite andb_true_r in Hpre.
      apply plain_literal_matches in Hpre as ->. by exists s7.
  - intros [[rest ->] | [rest ->]]; simpl list_ascii_of_string; cbn [app].
    + do 4 (apply once_spec; eexists _, _; split; [reflexivity|]; split; [reflexivity|]).
      apply match_repeat_spec. exists [], (":" :: "/" :: "/" :: rest)%char.
      split; [reflexivity|]. split; [reflexivity|]. split; [simpl; lia|].
      split; [simpl; lia|].
      do 3 (apply once_spec; eexists _, _; split; [reflexivity|]; split; [reflexivity|]).
      reflexivity.
    + do 4 (apply once_spec; eexists _, _; split; [reflexivity|]; split; [reflexivity|]).
      apply match_repeat_spec. exists ["s"%char], (":" :: "/" :: "/" :: rest)%char.
      split; [reflexivity|]. split; [reflexivity|]. split; [simpl; lia|].
      split; [simpl; lia|].
      do 3 (apply once_spec; eexists _, _; split; [reflexivity|]; split; [reflexivity|]).
      reflexivity.
Qed.

(** Three [HEAD] requests at most, at least one, and a response exactly
    when one of the three answers is a 200. *)
Lemma head_three_times (network : list request -> request -> outcome)
    (url : string) (n : net) :
  let rq := Request "head" url in
  let out := retry_request network url "head" 3 n in
  exists k : nat,
    (1 <= k <= 3)%nat /\
    sent (snd out) = sent n ++ replicate k rq /\
    (is_Some (fst out) <->
     exists j : nat, (j < 3)%nat /\ is_ok_response (answer network rq n j) = true).
Proof.
  intros rq out. subst out. unfold retry_request. simpl orb. cbv iota. fold rq.
  destruct (retry_attempts_spec network rq 3 0%nat n) as (k & Hk & Hsent & _ & Hres).
  exists k.
  destruct (fst (retry_attempts network rq (seq 0 3) n)) as [c|].
  - destruct Hres as (-> & Hpos & Hlast & _).
    split; [lia|]. split; [done|]. split; [|by eexists].
    intros _. exists (k - 1)%nat. split; [lia | done].
  - destruct Hres as (-> & Hnone).
    split; [lia|]. split; [done|]. split; [by intros [? ?]|].
    intros (j & Hj & Hok). rewrite Hnone in Hok by done. done.
Qed.

(** [X3] [validate_url] returns false without sending anything unless its
    argument is a string that starts with [http://] or [https://] (in lower
    case).  For such a string it sends between one and three [HEAD] requests
    to that very URL, and returns true exactly when one of the three answers
    has status 200. *)
Theorem validate_url_checks_scheme_then_resolves
    (network : list request -> request -> outcome) (url : pyval) (n : net) :
  let out := validate_url network url n in
  match url with
  | VStr s =>
      if String.prefix "http://" s || String.prefix "https://" s
      then
        exists k : nat,
          (1 <= k <= 3)%nat /\
          sent (snd out) = sent n ++ replicate k (Request "head" s) /\
          (fst out = true <->
           exists j : nat,
             (j < 3)%nat /\
             is_ok_response (answer network (Request "head" s) n j) = true)
      else out = (false, n)
  | _ => out = (false, n)
  end.
Proof.
  intros out. subst out. unfold validate_url.
  destruct url as [| | | |s| | |]; simpl; try by rewrite ?orb_true_r.
  rewrite orb_false_r, negb_involutive.
  destruct (String.prefix "http://" s || String.prefix "https://" s) eqn:Hp.
  - assert (Hne : String.eqb s "" = false).
    { destruct s; [|done]. discriminate Hp. }
    rewrite Hne. apply re_match_url_pattern in Hp. rewrite Hp. simpl negb. cbv iota.
    destruct (head_three_times network s n) as (k & Hk & Hsent & Hres).
    exists k. split; [done|].
    destruct (retry_request network s "head" 3 n) as [[c|] n']; simpl in *.
    + split; [done|]. split; [intros _; apply Hres; by eexists | done].
    + split; [done|]. split; [done|]. intros H. apply Hres in H as [? ?]. done.
  - destruct (String.eqb s ""); [done|].
    destruct (re_match url_pattern false s) eqn:Hm; [|done].
    apply re_match_url_pattern in Hm. congruence.
Qed.

(** [X4] For an argument that passes the format check, [validate_doi]
    sends between one and three [HEAD] requests to [https://doi.org/]
    followed by the DOI, and returns true exactly when one of the three
    answers has status 200. *)
Theorem validate_doi_resolves_through_doi_org
    (network : list request -> request -> outcome) (doi : pyval) (n : net) :
  is_valid_doi_format doi = true ->
  exists s : string,
    doi = VStr s /\
    let rq := Request "head" ("https://doi.org/" +:+ s) in
    let out := validate_doi network doi n in
    exists k : nat,
      (1 <= k <= 3)%nat /\
      sent (snd out) = sent n ++ replicate k rq /\
      (fst out = true <->
       exists j : nat, (j < 3)%nat /\ is_ok_response (answer network rq n j) = true).
Proof.
  intros Hvalid.
  destruct doi as [| | | |s| | |];
    try (unfold is_valid_doi_format in Hvalid; simpl in Hvalid;
         rewrite ?orb_true_r in Hvalid; discriminate Hvalid).
  exists s. split; [done|]. intros rq out. subst out. unfold validate_doi.
  rewrite Hvalid. simpl negb. cbv iota. fold rq.
  destruct (head_three_times network ("https://doi.org/" +:+ s) n) as (k & Hk & Hsent & Hres).
  fold rq in Hsent, Hres. exists k. split; [done|].
  destruct (retry_request network ("https://doi.org/" +:+ s) "head" 3 n) as [[c|] n'];
    simpl in *.
  - split; [done|]. split; [intros _; apply Hres; by eexists | done].
  - split; [done|]. split; [done|]. intros H. apply Hres in H as [? ?]. done.
Qed.

Lemma validate_doi_resolves_through_doi_org_witness :
  is_valid_doi_format (VStr "10.1234/test") = true /\
  exists s : string,
    VStr "10.1234/test" = VStr s /\
    let rq := Request "head" ("https://doi.org/" +:+ s) in
    let out := validate_doi (fun _ _ => Response 200) (VStr "10.1234/test") (Net [] []) in
    exists k : nat,
      (1 <= k <= 3)%nat /\
      sent (snd out) = sent (Net [] []) ++ replicate k rq /\
      (fst out = true <->
       exists j : nat,
         (j < 3)%nat /\
         is_ok_response (answer (fun _ _ => Response 200) rq (Net [] []) j) = true).
Proof.
  assert (H : is_valid_doi_format (VStr "10.1234/test") = true) by reflexivity.
  split; [exact H|].
  exact (validate_doi_resolves_through_doi_org (fun _ _ => Response 200)
           (VStr "10.1234/test") (Net [] []) H).
Defined.

(** ** Themes *)

Lemma themes_differ : light_theme <> dark_theme.
Proof.
  intros H. assert (H' : light_theme !! "text" = dark_theme !! "text") by by rewrite H.
  vm_compute in H'. discriminate H'.
Qed.

Lemma get_theme_of_name (f : source) (s : gmap string pyval) (v : pyval) :
  s !! "current_theme" = Some v ->
  get_theme f s = if eq_str v "light" then light_theme else dark_theme.
Proof.
  intros Hs. unfold get_theme. rewrite Hs.
  destruct f; simpl; destruct v as [| | | |name| | |]; try reflexivity;
    simpl; unfold themes.
  all: destruct (String.eqb_spec name "light") as [-> | Hl]; [reflexivity|].
  all: destruct (String.eqb_spec name "dark") as [-> | Hd]; [reflexivity|].
  all: by rewrite lookup_insert_ne, lookup_singleton_ne by done.
Qed.

(** [X5] [get_theme] never fails and knows two answers: the light palette
    when the session's [current_theme] is the string ["light"], and the dark
    palette in every other case (["dark"], an unknown name, a value that is
    not even a string, or no value at all).  Either palette has the same
    eight colour keys and the same [primary]. *)
Theorem get_theme_is_light_or_dark (f : source) (s : gmap string pyval) :
  get_theme f s
  = (if eq_str (default VNone (s !! "current_theme")) "light"
     then light_theme else dark_theme) /\
  dom (get_theme f s)
  = {[ "bg_color"; "card_bg"; "primary"; "secondary"; "accent"; "warning";
       "error"; "text" ]} /\
  get_theme f s !! "primary" = Some "#003b7a"%string.
Proof.
  assert (H : get_theme f s
              = if eq_str (default VNone (s !! "current_theme")) "light"
                then light_theme else dark_theme).
  { destruct (s !! "current_theme") as [v|] eqn:Hs.
    - by apply get_theme_of_name.
    - unfold get_theme. rewrite Hs. by destruct f. }
  split; [exact H|]. rewrite H.
  destruct (eq_str (default VNone (s !! "current_theme")) "light");
    split; vm_compute; reflexivity.
Qed.

(** [X6] After the theme toggle has run, the stored theme is ["light"] if
    it was ["dark"] before (or absent, in src/navigation.py) and ["dark"] in
    every other case.  So the toggle changes what [get_theme] returns exactly
    when the stored theme was ["dark"], ["light"] or (src/navigation.py)
    absent: from an unknown name the first toggle shows no change.  A second
    toggle always changes the palette. *)
Theorem toggle_theme_changes_palette (f : source) (s s' : gmap string pyval) :
  toggle_theme f s = Ok s' ->
  let current := default (VStr "dark") (s !! "current_theme") in
  s' = <["current_theme" := VStr (if eq_str current "dark" then "light" else "dark")]> s /\
  (get_theme f s' <> get_theme f s <->
   eq_str current "dark" || eq_str current "light" = true) /\
  exists s'' : gmap string pyval,
    toggle_theme f s' = Ok s'' /\ get_theme f s'' <> get_theme f s'.
Proof.
  intros Ht current.
  assert (Hs' : s' = <["current_theme" :=
                         VStr (if eq_str current "dark" then "light" else "dark")]> s).
  { unfold toggle_theme in Ht. subst current.
    destruct f; destruct (s !! "current_theme"); simpl in *; congruence. }
  split; [exact Hs'|].
  assert (Hafter : get_theme f s'
                   = if eq_str current "dark" then light_theme else dark_theme).
  { rewrite (get_theme_of_name f s' (VStr (if eq_str current "dark" then "light" else "dark")))
      by (rewrite Hs'; apply lookup_insert_eq).
    by destruct (eq_str current "dark"). }
  assert (Hbefore : get_theme f s
                    = if eq_str current "light" then light_theme else dark_theme).
  { subst current. destruct (s !! "current_theme") as [v|] eqn:Hs.
    - by apply get_theme_of_name.
    - unfold toggle_theme in Ht. rewrite Hs in Ht.
      destruct f; [|done]. unfold get_theme. by rewrite Hs. }
  split.
  - rewrite Hafter, Hbefore.
    pose proof themes_differ as Hd.
    destruct current as [| | | |name| | |]; simpl; try (split; [done | discriminate]).
    destruct (String.eqb_spec name "dark") as [-> | ?]; simpl.
    + split; [done | intros _; exact Hd].
    + destruct (String.eqb_spec name "light") as [-> | ?]; simpl.
      * split; [done | intros _ H; by apply Hd].
      * split; [done | discriminate].
  - exists (<["current_theme" :=
               VStr (if eq_str current "dark" then "dark" else "light")]> s').
    split.
    + unfold toggle_theme. rewrite Hs', lookup_insert_eq.
      destruct f; simpl; by destruct (eq_str current "dark").
    + rewrite (get_theme_of_name f _ (VStr (if eq_str current "dark" then "dark" else "light")))
        by apply lookup_insert_eq.
      rewrite Hafter. pose proof themes_differ as Hd.
      destruct (eq_str current "dark"); simpl; [done | intros H; by apply Hd].
Qed.

Lemma toggle_theme_changes_palette_witness :
  let s : gmap string pyval := {[ "current_theme" := VStr "solarized" ]} in
  let s' : gmap string pyval := {[ "current_theme" := VStr "dark" ]} in
  toggle_theme guared s = Ok s' /\
  get_theme guared s' = get_theme guared s /\
  exists s'' : gmap string pyval,
    toggle_theme guared s' = Ok s'' /\ get_theme guared s'' <> get_theme guared s'.
Proof.
  intros s s'.
  assert (H : toggle_theme guared s = Ok s') by (vm_compute; reflexivity).
  split; [exact H|]. split; [vm_compute; reflexivity|].
  exact (proj2 (proj2 (toggle_theme_changes_palette guared s s' H))).
Defined.

(** ** Completeness of article metadata *)

Lemma field_missing_dict (a : gmap string pyval) (field : string) :
  field_missing (VDict a) field = Ok (negb (has_field a field)).
Proof.
  unfold field_missing, has_field, contains_str, subscript_str.
  destruct (a !! field) as [v|] eqn:Hf.
  - rewrite bool_decide_true by eauto. reflexivity.
  - rewrite bool_decide_false by (by intros [? ?]). reflexivity.
Qed.

Lemma missing_among_dict (a : gmap string pyval) (fields : list string) :
  missing_among (VDict a) fields
  = Ok (List.filter (fun field => negb (has_field a field)) fields).
Proof.
  induction fields as [|field fields IH]; simpl; [done|].
  rewrite field_missing_dict, IH. by destruct (has_field a field).
Qed.

Lemma missing_at_most_three (a : gmap string pyval) :
  (length (List.filter (fun field => negb (has_field a field)) essential_fields) <= 3)%nat.
Proof.
  unfold essential_fields. simpl.
  destruct (has_field a "author"), (has_field a "title"), (has_field a "issued");
    simpl; lia.
Qed.

Lemma truthy_dict (a : gmap string pyval) : a <> ∅ -> truthy (VDict a) = true.
Proof. intros Ha. simpl. by rewrite bool_decide_false. Qed.

(** [X7] With the strictness that [initialize_session_state] puts in place
    (2, when the session had none), [is_metadata_complete] accepts a
    non-empty article dict as soon as one of [author], [title] and [issued]
    is present with a true value: it rejects only when all three are missing
    or empty.  An empty dict and [None] are rejected. *)
Theorem default_strictness_asks_for_one_field
    (s : gmap string pyval) (a : gmap string pyval) :
  s !! "VALIDATION_STRICTNESS" = None ->
  a <> ∅ ->
  is_metadata_complete (initialize_session_state s) (VDict a)
  = Ok (has_field a "author" || has_field a "title" || has_field a "issued") /\
  is_metadata_complete (initialize_session_state s) (VDict ∅) = Ok false /\
  is_metadata_complete (initialize_session_state s) VNone = Ok false.
Proof.
  intros Hs Ha. split; [| split; reflexivity].
  unfold is_metadata_complete. rewrite (truthy_dict a Ha). simpl negb. cbv iota.
  rewrite missing_among_dict.
  assert (Hk : initialize_session_state s !! "VALIDATION_STRICTNESS" = Some (VInt 2)).
  { apply defaults_fill_absent; [apply session_defaults_keys_distinct | | done].
    do 13 (apply elem_of_cons; right). apply elem_of_cons. by left. }
  rewrite Hk. unfold essential_fields. simpl.
  by destruct (has_field a "author"), (has_field a "title"), (has_field a "issued").
Qed.

Lemma default_strictness_asks_for_one_field_witness :
  let s : gmap string pyval := ∅ in
  let a : gmap string pyval := {[ "title" := VList [VStr "Test"] ]} in
  s !! "VALIDATION_STRICTNESS" = None /\
  a <> ∅ /\
  is_metadata_complete (initialize_session_state s) (VDict a) = Ok true.
Proof.
  intros s a.
  assert (H1 : s !! "VALIDATION_STRICTNESS" = None) by reflexivity.
  assert (H2 : a <> ∅).
  { intros H. assert (H' : a !! "title" = (∅ : gmap string pyval) !! "title") by by rewrite H.
    vm_compute in H'. discriminate H'. }
  split; [exact H1|]. split; [exact H2|].
  exact (proj1 (default_strictness_asks_for_one_field s a H1 H2)).
Defined.

(** [X8] The larger the integer under [VALIDATION_STRICTNESS], the more
    [is_metadata_complete] accepts: an article accepted at one value is
    accepted at every larger one; from 3 on every non-empty article dict is
    accepted; below 0 nothing is. *)
Theorem larger_strictness_accepts_more
    (s1 s2 : gmap string pyval) (article : pyval) (k1 k2 : Z) :
  s1 !! "VALIDATION_STRICTNESS" = Some (VInt k1) ->
  s2 !! "VALIDATION_STRICTNESS" = Some (VInt k2) ->
  k1 <= k2 ->
  (is_metadata_complete s1 article = Ok true ->
   is_metadata_complete s2 article = Ok true) /\
  (3 <= k2 -> forall a : gmap string pyval,
     a <> ∅ -> is_metadata_complete s2 (VDict a) = Ok true) /\
  (k1 < 0 -> is_metadata_complete s1 article <> Ok true).
Proof.
  intros H1 H2 Hle. unfold is_metadata_complete. rewrite H1, H2.
  split; [| split].
  - destruct (negb (truthy article)); [done|].
    destruct (missing_among article essential_fields) as [missing|e]; [|done].
    simpl. intros [= Hk]. f_equal. apply Z.leb_le. apply Z.leb_le in Hk. lia.
  - intros H3 a Ha. rewrite (truthy_dict a Ha). simpl negb. cbv iota.
    rewrite missing_among_dict. unfold int_le. f_equal. apply Z.leb_le.
    pose proof (missing_at_most_three a). lia.
  - intros Hneg. destruct (negb (truthy article)); [done|].
    destruct (missing_among article essential_fields) as [missing|e]; [|done].
    simpl. intros [= Hk]. apply Z.leb_le in Hk. lia.
Qed.

Lemma larger_strictness_accepts_more_witness :
  let s1 : gmap string pyval := {[ "VALIDATION_STRICTNESS" := VInt 0 ]} in
  let s2 : gmap string pyval := {[ "VALIDATION_STRICTNESS" := VInt 3 ]} in
  let article :=
    VDict {[ "author" := VList [VStr "Smith"]; "title" := VList [VStr "Test"];
             "issued" := VInt 2023 ]} in
  is_metadata_complete s1 article = Ok true /\
  is_metadata_complete s2 article = Ok true /\
  is_metadata_complete s2 (VDict {[ "DOI" := VStr "10.1234/test" ]}) = Ok true.
Proof.
  intros s1 s2 article.
  assert (H1 : is_metadata_complete s1 article = Ok true) by (vm_compute; reflexivity).
  pose proof (larger_strictness_accepts_more s1 s2 article 0 3
                eq_refl eq_refl ltac:(lia)) as (Hmono & Hall & _).
  split; [exact H1|]. split; [exact (Hmono H1)|].
  apply Hall; [lia|]. intros H.
  assert (H' : ({[ "DOI" := VStr "10.1234/test" ]} : gmap string pyval) !! "DOI"
               = (∅ : gmap string pyval) !! "DOI") by by rewrite H.
  vm_compute in H'. discriminate H'.
Defined.

(** ** The carbon tracker *)





(** The total is not negative and bounds every measurement. *)
Lemma call_keeps_bounds (F : float_arith) (t : carbon_tracker) (c : tracker_call) :
  rounds_monotonically F ->
  match c with Stop drawn => (0 <= drawn)%Q | _ => True end ->
  (0 <= total_emissions t)%Q ->
  Forall (fun m => (m <= total_emissions t)%Q) (measurements t) ->
  (total_emissions t <= total_emissions (call_tracker F t c))%Q /\
  Forall (fun m => (m <= total_emissions (call_tracker F t c))%Q)
    (measurements (call_tracker F t c)).
Proof.
  intros HF Hc Htotal Hms. destruct c as [name| |drawn]; simpl.
  - split; [apply Qle_refl | done].
  - unfold start_tracking. destruct (tracker t); simpl; (split; [apply Qle_refl | done]).
  - unfold stop_tracking.
    destruct (negb (is_tracking t) || match tracker t with None => true | Some _ => false end);
      simpl; [split; [apply Qle_refl | done]|].
    destruct (HF (total_emissions t) drawn Htotal Hc) as [Hx Hy].
    split; [done|]. apply Forall_app. split.
    + eapply Forall_impl; [exact Hms|]. intros m Hm. simpl in Hm.
      eapply Qle_trans; [exact Hm | exact Hx].
    + by constructor.
Qed.

Lemma calls_keep_bounds (F : float_arith) (calls : list tracker_call) :
  rounds_monotonically F ->
  forall t : carbon_tracker,
    draws_not_negative calls ->
    (0 <= total_emissions t)%Q ->
    Forall (fun m => (m <= total_emissions t)%Q) (measurements t) ->
    (total_emissions t <= total_emissions (foldl (call_tracker F) t calls))%Q /\
    Forall (fun m => (m <= total_emissions (foldl (call_tracker F) t calls))%Q)
      (measurements (foldl (call_tracker F) t calls)).
Proof.
  intros HF. induction calls as [|c calls IH]; intros t Hdraws Htotal Hms; simpl.
  - split; [apply Qle_refl | done].
  - apply Forall_cons in Hdraws as [Hc Hdraws].
    destruct (call_keeps_bounds F t c HF Hc Htotal Hms) as [Hle Hms'].
    destruct (IH (call_tracker F t c) Hdraws) as [Hle' Hms''];
      [by eapply Qle_trans | done |].
    split; [by eapply Qle_trans | done].
Qed.

(** [X10] The total of a [CarbonImpactTracker] never decreases and bounds
    every measurement.  As long as no draw is negative and the platform's
    addition of two floats that are not negative gives no less than either,
    then after any calls on a new tracker [get_total_emissions] is not
    negative and at least as large as each of the measurements, and no
    further calls make it smaller. *)
Theorem carbon_total_bounds_measurements (F : float_arith)
    (calls more : list tracker_call) :
  rounds_monotonically F ->
  draws_not_negative calls ->
  draws_not_negative more ->
  let t := foldl (call_tracker F) new_carbon_tracker calls in
  (0 <= get_total_emissions t)%Q /\
  Forall (fun m => (m <= get_total_emissions t)%Q) (measurements t) /\
  (get_total_emissions t
   <= get_total_emissions (foldl (call_tracker F) t more))%Q.
Proof.
  intros HF Hcalls Hmore t. unfold get_total_emissions.
  destruct (calls_keep_bounds F calls HF new_carbon_tracker Hcalls)
    as [Htotal Hms]; [apply Qle_refl | constructor |].
  fold t in Htotal, Hms. simpl in Htotal.
  split; [done|]. split; [done|].
  by destruct (calls_keep_bounds F more HF t Hmore Htotal Hms).
Qed.

Lemma carbon_total_bounds_measurements_witness :
  let t := foldl (call_tracker exact_arith) new_carbon_tracker sample_tracker_calls in
  (rounds_monotonically exact_arith /\
   draws_not_negative sample_tracker_calls /\
   draws_not_negative [Start; Stop (1 # 10)]) /\
  measurements t = [1 # 20; 1 # 1000]%Q /\
  (0 <= get_total_emissions t)%Q /\
  Forall (fun m => (m <= get_total_emissions t)%Q) (measurements t) /\
  (get_total_emissions t
   <= get_total_emissions
        (foldl (call_tracker exact_arith) t [Start; Stop (1 # 10)]))%Q.
Proof.
  intros t.
  assert (HF : rounds_monotonically exact_arith).
  { intros x y Hx Hy. simpl. split; lra. }
  assert (H1 : draws_not_negative sample_tracker_calls).
  { unfold draws_not_negative, sample_tracker_calls.
    repeat constructor; unfold Qle; simpl; lia. }
  assert (H2 : draws_not_negative [Start; Stop (1 # 10)]).
  { unfold draws_not_negative. repeat constructor; unfold Qle; simpl; lia. }
  split; [exact (conj HF (conj H1 H2))|]. split; [reflexivity|].
  exact (carbon_total_bounds_measurements exact_arith sample_tracker_calls
           [Start; Stop (1 # 10)] HF H1 H2).
Defined.

(** ** Insight generation *)

(** The three attempts: [k] calls of the same request, a pause of 1 and
    then 2 seconds between them, every reply before the last a rate-limit
    error; the loop never runs out. *)
Lemma insight_attempts_spec (create : list chat_request -> chat_request -> reply)
    (rq : chat_request) (st : api) :
  let out := insight_attempts create rq (seq 0 3) st in
  exists k : nat,
    (1 <= k <= 3)%nat /\
    calls (snd out) = calls st ++ replicate k rq /\
    naps (snd out) = naps st ++ map (fun j => 2 ^ Z.of_nat j) (seq 0 (k - 1)) /\
    (forall j : nat, (j < k - 1)%nat -> rate_limited (reply_to create rq st j) = true) /\
    match reply_to create rq st (k - 1) with
    | Content text => fst out = Ok (Some (str_strip text))
    | ApiError e =>
        fst out = Raised e /\
        (k = 3%nat \/ str_contains "RateLimitError" (exn_str e) = false)
    end.
Proof.
  intros out. subst out. unfold reply_to. simpl seq. cbn [insight_attempts].
  assert (H0 : calls st ++ [] = calls st) by apply app_nil_r.
  assert (H2 : calls st ++ [rq; rq] = (calls st ++ [rq]) ++ [rq])
    by (by rewrite <- app_assoc).
  destruct (create (calls st) rq) as [text|e] eqn:R0.
  { exists 1%nat. simpl. rewrite H0, R0, app_nil_r.
    repeat split; try done; try lia; try (intros j Hj; lia). }
  destruct (str_contains "RateLimitError" (exn_str e)) eqn:L0; simpl andb; cbv iota.
  2:{ exists 1%nat. simpl. rewrite H0, R0, app_nil_r.
      repeat split; try done; try lia; try (intros j Hj; lia); try (by right). }
  simpl calls. simpl naps.
  destruct (create (calls st ++ [rq]) rq) as [text|e1] eqn:R1.
  { exists 2%nat. simpl. rewrite R1.
    split; [lia|]. split; [by rewrite <- app_assoc|]. split; [done|].
    split; [|done]. intros [|j] Hj; [|lia]. simpl. by rewrite H0, R0. }
  destruct (str_contains "RateLimitError" (exn_str e1)) eqn:L1; simpl andb; cbv iota.
  2:{ exists 2%nat. simpl. rewrite R1.
      split; [lia|]. split; [by rewrite <- app_assoc|]. split; [done|].
      split; [| by split; [|right]]. intros [|j] Hj; [|lia]. simpl. by rewrite H0, R0. }
  simpl calls. simpl naps.
  exists 3%nat. simpl Nat.sub. simpl replicate. rewrite H2.
  assert (Hbefore : forall j : nat, (j < 2)%nat ->
            rate_limited (create (calls st ++ replicate j rq) rq) = true).
  { intros [|[|j]] Hj; [| |lia]; simpl.
    - by rewrite H0, R0.
    - by rewrite R1. }
  destruct (create ((calls st ++ [rq]) ++ [rq]) rq) as [text|e2] eqn:R2.
  - simpl. split; [lia|]. split; [by rewrite <- !app_assoc|].
    split; [by rewrite <- app_assoc|]. done.
  - rewrite andb_false_r. simpl. split; [lia|]. split; [by rewrite <- !app_assoc|].
    split; [by rewrite <- app_assoc|]. split; [done|]. split; [done | by left].
Qed.

(** [X11] [generate_insight] never raises and calls the API between one
    and three times with the same request.  It tries again only after a
    reply whose message contains ["RateLimitError"], after a pause of 1 and
    then 2 seconds.  The result is the stripped text of the first reply that
    is not an error, or else a message built from the first error that is
    not a rate limit (or from the third error): the loop always ends by a
    return or a raise, so the message about "multiple attempts" placed after
    it is never the result of running out of attempts. *)
Theorem generate_insight_tries_three_times
    (create : list chat_request -> chat_request -> reply)
    (user category prompt_text response_text knowledge_base context : string)
    (temperature max_tokens : pyval) (st : api) :
  let rq := insight_request user category prompt_text response_text
              knowledge_base context temperature max_tokens in
  let out := generate_insight true create user category prompt_text response_text
               knowledge_base context temperature max_tokens st in
  fst (insight_attempts create rq (seq 0 3) st) <> Ok None /\
  exists k : nat,
    (1 <= k <= 3)%nat /\
    calls (snd out) = calls st ++ replicate k rq /\
    naps (snd out) = naps st ++ map (fun j => 2 ^ Z.of_nat j) (seq 0 (k - 1)) /\
    (forall j : nat, (j < k - 1)%nat -> rate_limited (reply_to create rq st j) = true) /\
    match reply_to create rq st (k - 1) with
    | Content text => fst out = str_strip text
    | ApiError e =>
        (k = 3%nat \/ str_contains "RateLimitError" (exn_str e) = false) /\
        fst out = if is_import_error e then no_openai
                  else "Error generating insight: " +:+ exn_str e
    end.
Proof.
  intros rq out. subst out. unfold generate_insight. simpl negb. cbv iota. fold rq.
  destruct (insight_attempts_spec create rq st)
    as (k & Hk & Hcalls & Hnaps & Hbefore & Hlast).
  split.
  - destruct (reply_to create rq st (k - 1)) as [text|e];
      [rewrite Hlast | rewrite (proj1 Hlast)]; discriminate.
  - exists k. split; [done|].
    destruct (insight_attempts create rq (seq 0 3) st) as [r st'].
    simpl in Hcalls, Hnaps, Hlast.
    destruct (reply_to create rq st (k - 1)) as [text|e].
    + subst r. simpl. done.
    + destruct Hlast as [-> Hor]. destruct (is_import_error e); simpl; done.
Qed.

(** ** Rules for weakest preconditions *)

Section WpRules.
Context {A B : Type}.

Lemma wp_ret (a : A) (Q : res A -> world -> Prop) (w : world) :
  Q (Ok a) w -> wp (ret a) Q w.
Proof. exact (fun H => H). Qed.

Lemma wp_raise (e : exn) (Q : res A -> world -> Prop) (w : world) :
  Q (Raised e) w -> wp (raise e) Q w.
Proof. exact (fun H => H). Qed.

Lemma wp_weaken (m : M A) (Q Q' : res A -> world -> Prop) (w : world) :
  wp m Q w -> (forall r w', Q r w' -> Q' r w') -> wp m Q' w.
Proof. unfold wp. auto. Qed.

Lemma wp_bind (m : M A) (k : A -> M B) (Q : res B -> world -> Prop) (w : world) :
  wp m (fun r w' => match r with
                    | Ok a => wp (k a) Q w'
                    | Raised e => Q (Raised e) w'
                    end) w ->
  wp (bind m k) Q w.
Proof. unfold wp, bind. by destruct (m w) as [[a|e] w']. Qed.

Lemma wp_bind_ret (a : A) (k : A -> M B) (Q : res B -> world -> Prop) (w : world) :
  wp (k a) Q w -> wp (bind (ret a) k) Q w.
Proof. exact (fun H => H). Qed.

Lemma wp_bind_raise (e : exn) (k : A -> M B) (Q : res B -> world -> Prop) (w : world) :
  Q (Raised e) w -> wp (bind (raise e) k) Q w.
Proof. exact (fun H => H). Qed.
End WpRules.

Section WpSessionRules.
Context {B : Type}.

Lemma wp_bind_session_set (key : string) (v : pyval) (k : unit -> M B)
    (Q : res B -> world -> Prop) (w : world) :
  wp (k tt) Q (World (<[key := v]> (session w)) (history w ++ [Stored key v])) ->
  wp (bind (session_set key v) k) Q w.
Proof. exact (fun H => H). Qed.

Lemma wp_bind_session_get (cls key : string) (k : pyval -> M B)
    (Q : res B -> world -> Prop) (w : world) :
  (forall v, session w !! key = Some v ->
             wp (k v) Q (World (session w) (history w ++ [Got key v]))) ->
  (session w !! key = None ->
   Q (Raised (Exn cls ("st.session_state has no key " +:+ key))) w) ->
  wp (bind (session_get cls key) k) Q w.
Proof.
  intros Hsome Hnone. unfold wp, bind, session_get.
  destruct (session w !! key) as [v|]; [by apply Hsome | by apply Hnone].
Qed.

Lemma wp_bind_interleave (E : env) (p : point) (k : unit -> M B)
    (Q : res B -> world -> Prop) (w : world) :
  wp (k tt) Q (World (rendering_thread E p (session w)) (history w)) ->
  wp (bind (interleave E p) k) Q w.
Proof. exact (fun H => H). Qed.
End WpSessionRules.

(** The loop rule: an invariant indexed by the position in the range. *)
Lemma wp_for_each {L : Type} (body : nat -> L -> M (ctl * L))
    (I : nat -> world -> L -> Prop) (Q : res L -> world -> Prop) (len : nat) :
  forall (a : nat) (l : L) (w : world),
    (forall (i : nat) (l : L) (w : world),
       (a <= i < a + len)%nat -> I i w l ->
       wp (body i l)
          (fun out w' =>
             match out with
             | Ok (Continue, l') => I (S i) w' l'
             | Ok (Break, l') => Q (Ok l') w'
             | Raised e => Q (Raised e) w'
             end) w) ->
    (forall (l : L) (w : world), I (a + len)%nat w l -> Q (Ok l) w) ->
    I a w l ->
    wp (for_each body (seq a len) l) Q w.
Proof.
  induction len as [|len IH]; intros a l w Hbody Hend HI; simpl.
  - apply wp_ret, Hend. by rewrite Nat.add_0_r.
  - apply wp_bind. eapply wp_weaken; [apply (Hbody a l w); [lia | done]|].
    intros [[[|] l']|e] w' Hout; simpl in *; [| by apply wp_ret | done].
    apply IH; [| | done].
    + intros i l'' w'' Hi. apply Hbody. lia.
    + intros l'' w''. replace (S a + len)%nat with (a + S len)%nat by lia. apply Hend.
Qed.

Ltac wstep :=
  lazymatch goal with
  | |- wp (bind (ret _) _) _ _ => apply wp_bind_ret
  | |- wp (bind (raise _) _) _ _ => apply wp_bind_raise
  | |- wp (ret _) _ _ => apply wp_ret
  | |- wp (raise _) _ _ => apply wp_raise
  | |- wp (bind (session_set _ _) _) _ _ => apply wp_bind_session_set
  | |- wp (bind (session_get _ _) _) _ _ =>
      apply wp_bind_session_get; [intros ?v ?Hget | intros ?Hget]
  | |- wp (bind (interleave _ _) _) _ _ => apply wp_bind_interleave
  | |- wp (bind (str_getitem ?d ?k) _) _ _ =>
      unfold str_getitem at 1; destruct (d !! k) eqn:?;
      [apply wp_bind_ret | apply wp_bind_raise]
  | |- wp (bind (getitem ?d ?k) _) _ _ =>
      unfold getitem at 1; destruct (d !! k) eqn:?;
      [apply wp_bind_ret | apply wp_bind_raise]
  end.

(** ** Runs on well-formed input *)

Lemma choice_is_member {X : Type} (x : X) (l : list X) (n : nat) :
  nth (n mod length (x :: l)) (x :: l) x ∈ x :: l.
Proof.
  apply list_elem_of_In, nth_In, Nat.mod_upper_bound. simpl. lia.
Qed.

Section WellFormed.
Variable f : source.
Variable E : env.
Variable target : gmap string string.
Variable test_vectors : list (gmap string string).
Variable step_sleep : Q.
Variable r0 : gmap string pyval.
Hypothesis Hname : is_Some (target !! "name").
Hypothesis Hnonempty : test_vectors <> [].
Hypothesis Hvectors : Forall complete_vector test_vectors.
Hypothesis Hsleep : Qlt_bool step_sleep 0 = false.
Hypothesis Hbehaved : well_behaved E.

Lemma counted_same_session (w w' : world) (r : gmap string pyval) :
  session w' = session w -> counted r0 w r -> counted r0 w' r.
Proof. unfold counted. by intros ->. Qed.

Lemma counted_interleave (w : world) (r : gmap string pyval) (p : point) :
  counted r0 w r ->
  counted r0 (World (rendering_thread E p (session w)) (history w)) r.
Proof.
  destruct Hbehaved as [Hflag Hvf].
  intros (Hrt & Hinv & found & Hfound & Hcount). unfold counted. simpl.
  split; [by apply Hflag|]. split; [done|]. exists found. by rewrite Hvf.
Qed.

Lemma counted_progress (w : world) (r : gmap string pyval) (v : pyval)
    (h : list event) :
  counted r0 w r ->
  counted r0 (World (<["progress" := v]> (session w)) h) r.
Proof.
  intros (Hrt & Hinv & found & Hfound & Hcount). unfold counted. simpl.
  rewrite !lookup_insert_ne by done. eauto.
Qed.

Lemma find_vulnerability_counted (i : nat) (r : gmap string pyval) (w : world) :
  counted r0 w r ->
  wp (find_vulnerability f E target test_vectors i r)
     (fun out w' => exists r', out = Ok r' /\ counted r0 w' r') w.
Proof.
  intros (Hrt & Hinv & found & Hfound & Hcount).
  pose proof Hinv as (_ & _ & found' & sm & Hall & Hv & Hs & Hrisk & Hsmcount & Htotal & Hsm).
  rewrite Hfound in Hv. injection Hv as <-.
  unfold find_vulnerability, random_choice.
  destruct test_vectors as [|v0 vs] eqn:Hvs; [done|].
  wstep. set (vector := nth _ _ _).
  assert (Hvector : complete_vector vector).
  { eapply Forall_forall; [exact Hvectors|]. apply choice_is_member. }
  clearbody vector.
  destruct Hvector as ([vid Hid] & [vname Hvname] & [severity Hseverity]).
  destruct Hname as [name Hn].
  unfold str_getitem at 1. rewrite Hseverity. wstep.
  unfold getitem at 1. rewrite Hfound. wstep. cbv [as_list]. wstep.
  unfold str_getitem at 1. rewrite Hid. wstep.
  unfold str_getitem at 1. rewrite Hvname. wstep.
  unfold str_getitem at 1. rewrite Hn. wstep.
  wstep; [| congruence].
  rewrite Hcount in Hget. injection Hget as <-.
  cbv [add_int]. wstep. wstep.
  erewrite summary_iadd_int; [| by rewrite lookup_insert_ne, Hs by done | exact Hsmcount].
  wstep.
  erewrite summary_iadd_int;
    [| by apply lookup_insert_eq | by rewrite lookup_insert_ne, Hrisk by done].
  wstep. eexists. split; [reflexivity|]. unfold counted. simpl.
  split; [by rewrite lookup_insert_ne|].
  split.
  - apply results_inv_found;
      [split; [exact Hinv|]; by repeat split
      | by rewrite !lookup_insert_ne, lookup_insert_eq by done].
  - eexists. split; [by rewrite !lookup_insert_ne, lookup_insert_eq by done|].
    rewrite lookup_insert_eq, length_app. simpl. do 2 f_equal. lia.
Qed.

Lemma tick_counted (i : nat) (r : gmap string pyval) (w : world) :
  counted r0 w r ->
  wp (tick f E target test_vectors step_sleep i r)
     (fun out w' => exists c r', out = Ok (c, r') /\ counted r0 w' r') w.
Proof.
  intros Hc. unfold tick. wstep.
  apply (counted_interleave _ _ (BeforeCheck i)) in Hc.
  wstep.
  2:{ destruct Hc as [[? Hrt] _]. simpl in Hrt, Hget. congruence. }
  destruct (negb (truthy v)).
  - wstep. exists Break, r. split; [done|]. by eapply counted_same_session; [|exact Hc].
  - unfold time_sleep. rewrite Hsleep. wstep. wstep.
    assert (Hc' : counted r0
              (World (<["progress" := progress_after i]>
                        (rendering_thread E (DuringSleep i)
                           (rendering_thread E (BeforeCheck i) (session w))))
                 ((history w ++ [Got "running_test" v])
                    ++ [Stored "progress" (progress_after i)])) r).
    { apply (counted_progress
               (World (rendering_thread E (DuringSleep i)
                         (rendering_thread E (BeforeCheck i) (session w)))
                  (history w))).
      exact (counted_interleave
               (World (rendering_thread E (BeforeCheck i) (session w)) (history w))
               r (DuringSleep i) Hc). }
    destruct (Qlt_bool (random_random E i) (2 # 10)).
    + apply wp_bind. eapply wp_weaken; [by apply find_vulnerability_counted|].
      intros out w' (r' & -> & Hr'). wstep. by exists Continue, r'.
    + wstep. by exists Continue, r.
Qed.

Lemma loop_counted (len : nat) (a : nat) (r : gmap string pyval) (w : world) :
  counted r0 w r ->
  wp (for_each (tick f E target test_vectors step_sleep) (seq a len) r)
     (fun out w' => exists r', out = Ok r' /\ counted r0 w' r') w.
Proof.
  intros Hc.
  apply (wp_for_each _ (fun _ w l => counted r0 w l)); [| by eauto | done].
  intros i l w' _ Hl. eapply wp_weaken; [by apply tick_counted|].
  intros out w'' (c & r' & -> & Hr'). destruct c; eauto.
Qed.
End WellFormed.

Lemma try_counted (f : source) (E : env) (target : gmap string string)
    (test_vectors : list (gmap string string)) (duration : Q) (w : world) :
  is_Some (target !! "name") ->
  test_vectors <> [] ->
  Forall complete_vector test_vectors ->
  Qlt_bool (duration / inject_Z (Z.of_nat total_steps)) 0 = false ->
  well_behaved E ->
  wp (run_mock_test_try f E target test_vectors duration)
     (fun out w' =>
        exists (r : gmap string pyval) (found : list pyval) (sm : gmap string pyval),
          out = Ok (VDict r) /\
          r !! "vulnerabilities" = Some (VList found) /\
          r !! "summary" = Some (VDict sm) /\
          sm !! "vulnerabilities_found" = Some (VInt (Z.of_nat (length found))) /\
          session w' !! "vulnerabilities_found"
            = Some (VInt (Z.of_nat (length found)))) w.
Proof.
  intros Hname Hne Hvectors Hd HE. pose proof Hname as [name Hn].
  unfold run_mock_test_try. wstep. wstep. wstep.
  unfold str_getitem at 1. rewrite Hn. wstep. cbv zeta.
  match goal with |- wp (bind (for_each _ _ ?r) _) _ _ => set (r0 := r) end.
  apply wp_bind. eapply wp_weaken.
  { apply (loop_counted f E target test_vectors _ r0 Hname Hne Hvectors Hd HE).
    split; [simpl; rewrite lookup_insert_eq; by eexists|].
    split.
    - apply (results_inv_refl r0 []
               {[ "total_tests" := VInt 0; "vulnerabilities_found" := VInt 0;
                  "risk_score" := VInt 0 ]}%string);
        try (destruct f; reflexivity). constructor.
    - exists []. split; [by destruct f|]. simpl.
      by rewrite lookup_insert_ne, lookup_insert_eq by done. }
  intros out w' (r & -> & Hrt & Hinv & found & Hfound & Hcount).
  destruct Hinv as (_ & _ & found' & sm & _ & Hv & Hs & _ & Hsmcount & _).
  rewrite Hfound in Hv. injection Hv as <-.
  rewrite (summary_set_dict _ sm) by done. wstep.
  destruct f.
  - wstep. eexists _, found, _. split; [reflexivity|].
    split; [by rewrite lookup_insert_ne by done|].
    split; [by rewrite lookup_insert_eq|].
    split; [by rewrite lookup_insert_ne by done | done].
  - unfold str_getitem at 1. rewrite Hn. wstep. wstep. wstep.
    eexists _, found, _. split; [reflexivity|].
    split; [by rewrite !lookup_insert_ne by done|].
    split; [by rewrite !lookup_insert_ne, lookup_insert_eq by done|].
    split; [by rewrite lookup_insert_ne by done|].
    simpl. by rewrite lookup_insert_ne by done.
Qed.

Lemma cancel_during_well_behaved (k : nat) : well_behaved (cancel_during k).
Proof.
  split; intros [i|i] s; simpl; try done.
  - intros Hs. destruct (Nat.eqb i k); [|done].
    rewrite lookup_insert_eq. by eexists.
  - destruct (Nat.eqb i k); [|done]. by rewrite lookup_insert_ne by done.
Qed.

Lemma get_mock_test_vectors_complete : Forall complete_vector get_mock_test_vectors.
Proof. repeat constructor; by eexists. Qed.

(** ** The records of a run *)

Lemma summary_iadd_out (r : gmap string pyval) (k : string) (n : Z) (w : world) :
  (exists e, summary_iadd r k n w = (Raised e, w)) \/
  (exists sm, summary_iadd r k n w = (Ok (<["summary" := VDict sm]> r), w)).
Proof.
  unfold summary_iadd, dict_iadd, getitem, as_dict, add_int, bind, ret, raise.
  repeat case_match; simplify_eq; eauto.
Qed.

Lemma summary_set_out (r : gmap string pyval) (k : string) (v : pyval) (w : world) :
  (exists e, summary_set r k v w = (Raised e, w)) \/
  (exists sm, summary_set r k v w = (Ok (<["summary" := VDict sm]> r), w)).
Proof.
  unfold summary_set, getitem, as_dict, bind, ret, raise.
  repeat case_match; simplify_eq; eauto.
Qed.

Lemma wp_bind_summary_iadd {B : Type} (r : gmap string pyval) (k : string) (n : Z)
    (g : gmap string pyval -> M B) (Q : res B -> world -> Prop) (w : world) :
  (forall e, Q (Raised e) w) ->
  (forall sm, wp (g (<["summary" := VDict sm]> r)) Q w) ->
  wp (bind (summary_iadd r k n) g) Q w.
Proof.
  intros Hraise Hok. unfold wp, bind.
  destruct (summary_iadd_out r k n w) as [[e ->]|[sm ->]]; [apply Hraise | apply Hok].
Qed.

Lemma numbered_mono (test_vectors : list (gmap string string)) (n m : nat)
    (r : gmap string pyval) :
  (n <= m)%nat -> numbered test_vectors n r -> numbered test_vectors m r.
Proof. intros Hnm (found & ? & ? & ?). exists found. repeat split; [done | lia | done]. Qed.

Lemma numbered_summary (test_vectors : list (gmap string string)) (n : nat)
    (r : gmap string pyval) (v : pyval) :
  numbered test_vectors n r -> numbered test_vectors n (<["summary" := v]> r).
Proof.
  intros (found & ? & ? & ?). exists found. by rewrite lookup_insert_ne by done.
Qed.

Lemma find_vulnerability_numbered (f : source) (E : env)
    (target : gmap string string) (test_vectors : list (gmap string string))
    (i : nat) (r : gmap string pyval) (w : world) :
  numbered test_vectors i r ->
  wp (find_vulnerability f E target test_vectors i r)
     (fun out _ => forall r', out = Ok r' -> numbered test_vectors (S i) r') w.
Proof.
  intros (found & Hfound & Hlen & Hrec).
  unfold find_vulnerability, random_choice.
  destruct test_vectors as [|v0 vs] eqn:Hvs; [by wstep|].
  rewrite <- Hvs in Hrec |- *. wstep. set (vector := nth _ _ _).
  assert (Hvector : vector ∈ test_vectors).
  { subst vector. rewrite Hvs. apply choice_is_member. }
  clearbody vector.
  wstep; [|done].
  unfold getitem at 1. rewrite Hfound. wstep. cbv [as_list]. wstep.
  wstep; [|done]. wstep; [|done]. wstep; [|done].
  wstep; [|done].
  assert (Hnew : forall sm sm',
    numbered test_vectors (S i)
      (<["summary" := VDict sm']>
         (<["summary" := VDict sm]>
            (<["vulnerabilities" :=
                 VList (found ++
                   [VDict {[ "id" := VStr ("VULN-" +:+ pretty (length found + 1)%nat);
                             "test_vector" := VStr s0;
                             "test_name" := VStr s1;
                             "severity" := VStr s;
                             "details" := VStr (details_text f s2 s1);
                             "timestamp" := VStr (now_isoformat E (AtFinding i)) ]}%string])]>
               r)))).
  { intros sm sm'. apply numbered_summary, numbered_summary.
    eexists. split; [by apply lookup_insert_eq|].
    split; [rewrite length_app; simpl; lia|].
    intros j x Hj. apply lookup_app_Some in Hj as [Hj|[Hge Hj]]; [by apply Hrec|].
    apply list_lookup_singleton_Some in Hj as [Hj <-].
    eexists _, vector. split; [reflexivity|]. split; [done|].
    replace j with (length found) by lia.
    split; [by rewrite !dom_insert_L, dom_singleton_L|].
    split; [by apply lookup_insert_eq|].
    rewrite Heqo, Heqo0, Heqo1. simpl.
    split; [by rewrite !lookup_insert_ne, lookup_insert_eq by done|].
    split; [by rewrite !lookup_insert_ne, lookup_insert_eq by done|].
    by rewrite !lookup_insert_ne, lookup_insert_eq by done. }
  destruct v; cbv [add_int]; wstep; try done; wstep;
    (apply wp_bind_summary_iadd; [done|]; intros sm; unfold wp;
     match goal with |- context [summary_iadd ?a ?b ?c ?d] =>
       destruct (summary_iadd_out a b c d) as [[e ->]|[sm' ->]] end;
     simpl; [done|]; intros r' [= <-]; by apply Hnew).
Qed.

Lemma tick_numbered (f : source) (E : env)
    (target : gmap string string) (test_vectors : list (gmap string string))
    (step_sleep : Q) (i : nat) (r : gmap string pyval) (w : world) :
  numbered test_vectors i r ->
  wp (tick f E target test_vectors step_sleep i r)
     (fun out _ =>
        match out with
        | Ok (Continue, r') => numbered test_vectors (S i) r'
        | Ok (Break, r') => numbered test_vectors i r'
        | Raised _ => True
        end) w.
Proof.
  intros Hr. unfold tick. wstep. wstep; [|done].
  destruct (negb (truthy v)); [by wstep|].
  unfold time_sleep. destruct (Qlt_bool step_sleep 0); [by wstep|].
  wstep. wstep.
  destruct (Qlt_bool (random_random E i) (2 # 10)).
  - apply wp_bind. eapply wp_weaken; [by apply find_vulnerability_numbered|].
    intros [r'|e] w' Hout; [|done]. wstep. by apply Hout.
  - wstep. apply (numbered_mono test_vectors i); [lia | done].
Qed.

Lemma loop_numbered (f : source) (E : env)
    (target : gmap string string) (test_vectors : list (gmap string string))
    (step_sleep : Q) (len : nat) (r : gmap string pyval) (w : world) :
  numbered test_vectors 0 r ->
  wp (for_each (tick f E target test_vectors step_sleep) (seq 0 len) r)
     (fun out _ => forall r', out = Ok r' -> numbered test_vectors len r') w.
Proof.
  intros Hr.
  apply (wp_for_each _ (fun i _ l => numbered test_vectors i l)); [| | done].
  - intros i l w' Hi Hl. eapply wp_weaken; [by apply tick_numbered|].
    intros [[[|] r']|e] w'' Hout; try done.
    intros ? [= <-]. apply (numbered_mono test_vectors i); [lia | done].
  - by intros l w' Hl r' [= <-].
Qed.

Lemma try_numbered (f : source) (E : env) (target : gmap string string)
    (test_vectors : list (gmap string string)) (duration : Q) (w : world) :
  wp (run_mock_test_try f E target test_vectors duration)
     (fun out _ =>
        forall v, out = Ok v ->
          exists r, v = VDict r /\ numbered test_vectors total_steps r) w.
Proof.
  unfold run_mock_test_try. wstep. wstep. wstep. wstep; [|done]. cbv zeta.
  apply wp_bind. eapply wp_weaken.
  { apply loop_numbered. exists []. split; [by destruct f|].
    split; [simpl; lia|]. intros j v Hj. by rewrite lookup_nil in Hj. }
  intros [r|e] w' Hout; [|done].
  specialize (Hout r eq_refl).
  unfold wp, bind.
  destruct (summary_set_out r "total_tests"
              (VInt (Z.of_nat (length test_vectors) * 10)) w') as [[e ->]|[sm ->]];
    [done|].
  change (wp (match f with
              | modular => ret (VDict (<["summary" := VDict sm]> r))
              | guared =>
                  let results :=
                    <["timestamp" := VStr (now_isoformat E AtEnd)]>
                      (<["summary" := VDict sm]> r) in
                  target_name <- str_getitem target "name" ;;
                  let results := <["target" := VStr target_name]> results in
                  session_set "test_results" (VDict results) ;;;
                  ret (VDict results)
              end)
             (fun out _ =>
                forall v, out = Ok v ->
                  exists r, v = VDict r /\ numbered test_vectors total_steps r) w').
  apply (numbered_summary _ _ _ (VDict sm)) in Hout.
  destruct f.
  - wstep. intros v [= <-]. eauto.
  - cbv zeta. wstep; [|done]. wstep. wstep. intros v [= <-].
    eexists. split; [reflexivity|].
    destruct Hout as (found & Hf & ? & ?). exists found.
    split; [|done].
    rewrite lookup_insert_ne in Hf by done.
    by rewrite !lookup_insert_ne by done.
Qed.

Lemma run_numbered (f : source) (E : env) (target : gmap string string)
    (test_vectors : list (gmap string string)) (duration : Q)
    (s : gmap string pyval) (found : list pyval) :
  result_dict (fst (run f E target test_vectors duration s)) !! "vulnerabilities"
    = Some (VList found) ->
  (length found <= total_steps)%nat /\
  forall (j : nat) (v : pyval), found !! j = Some v -> record_of test_vectors j v.
Proof.
  pose proof (try_numbered f E target test_vectors duration (World s [])) as Htry.
  unfold wp in Htry. unfold run, run_mock_test, try_finally, try_except.
  destruct (run_mock_test_try f E target test_vectors duration (World s []))
    as [[v|e] w'].
  - simpl in *. destruct (Htry v eq_refl) as (r' & -> & found' & Hf & Hlen & Hrec).
    simpl. intros Hfound. rewrite Hf in Hfound. injection Hfound as <-. done.
  - destruct f; simpl; intros Hfound;
      by rewrite ?lookup_insert_ne, ?lookup_singleton_ne in Hfound by done.
Qed.

(** [X13] Whenever [run_mock_test] returns a result with a
    [vulnerabilities] list, the list has at most 100 entries (one per tick
    at most), and the entry at position [j] is a record with exactly the
    fields [id], [test_vector], [test_name], [severity], [details] and
    [timestamp], whose [id] is [VULN-<j+1>] and whose [test_vector],
    [test_name] and [severity] are the [id], [name] and [severity] of one
    of the supplied test vectors. *)
Theorem vulnerabilities_are_numbered_records_of_vectors
    (f : source) (E : env) (target : gmap string string)
    (test_vectors : list (gmap string string)) (duration : Q)
    (s : gmap string pyval) (found : list pyval) :
  result_dict (fst (run f E target test_vectors duration s)) !! "vulnerabilities"
    = Some (VList found) ->
  (length found <= 100)%nat /\
  forall (j : nat) (v : pyval),
    found !! j = Some v ->
    exists (d : gmap string pyval) (vector : gmap string string),
      v = VDict d /\ vector ∈ test_vectors /\
      dom d = vulnerability_keys /\
      d !! "id" = Some (VStr ("VULN-" +:+ pretty (j + 1)%nat)) /\
      d !! "test_vector" = VStr <$> vector !! "id" /\
      d !! "test_name" = VStr <$> vector !! "name" /\
      d !! "severity" = VStr <$> vector !! "severity".
Proof. exact (run_numbered f E target test_vectors duration s found). Qed.

Lemma vulnerabilities_are_numbered_records_of_vectors_witness :
  let found := sublist (result_dict (fst (run modular (cancel_during 3) demo_target
                                            get_mock_test_vectors (3 # 10) ∅)))
                 "vulnerabilities" in
  result_dict (fst (run modular (cancel_during 3) demo_target
                      get_mock_test_vectors (3 # 10) ∅)) !! "vulnerabilities"
    = Some (VList found) /\
  length found = 2%nat /\
  (length found <= 100)%nat /\
  forall (j : nat) (v : pyval),
    found !! j = Some v ->
    exists (d : gmap string pyval) (vector : gmap string string),
      v = VDict d /\ vector ∈ get_mock_test_vectors /\
      dom d = vulnerability_keys /\
      d !! "id" = Some (VStr ("VULN-" +:+ pretty (j + 1)%nat)) /\
      d !! "test_vector" = VStr <$> vector !! "id" /\
      d !! "test_name" = VStr <$> vector !! "name" /\
      d !! "severity" = VStr <$> vector !! "severity".
Proof.
  intros found.
  assert (H : result_dict (fst (run modular (cancel_during 3) demo_target
                                  get_mock_test_vectors (3 # 10) ∅))
                !! "vulnerabilities" = Some (VList found))
    by (vm_compute; reflexivity).
  split; [exact H|]. split; [vm_compute; reflexivity|].
  exact (vulnerabilities_are_numbered_records_of_vectors modular (cancel_during 3)
           demo_target get_mock_test_vectors (3 # 10) ∅ found H).
Defined.

(** [X14] Within one result the vulnerability ids are pairwise distinct:
    two positions of the [vulnerabilities] list of a result of
    [run_mock_test] that hold records with the same [id] are the same
    position. *)
Theorem vulnerability_ids_are_distinct
    (f : source) (E : env) (target : gmap string string)
    (test_vectors : list (gmap string string)) (duration : Q)
    (s : gmap string pyval) (found : list pyval)
    (j1 j2 : nat) (d1 d2 : gmap string pyval) :
  result_dict (fst (run f E target test_vectors duration s)) !! "vulnerabilities"
    = Some (VList found) ->
  found !! j1 = Some (VDict d1) ->
  found !! j2 = Some (VDict d2) ->
  d1 !! "id" = d2 !! "id" ->
  j1 = j2.
Proof.
  intros Hfound H1 H2 Hid.
  destruct (run_numbered f E target test_vectors duration s found Hfound)
    as [_ Hrec].
  destruct (Hrec j1 _ H1) as (? & _ & [= <-] & _ & _ & Hid1 & _).
  destruct (Hrec j2 _ H2) as (? & _ & [= <-] & _ & _ & Hid2 & _).
  rewrite Hid1, Hid2 in Hid. injection Hid as Hid.
  simpl in Hid. apply (inj pretty) in Hid. apply pretty_nat_inj in Hid. lia.
Qed.

Lemma vulnerability_ids_are_distinct_witness :
  let found := sublist (result_dict (fst (run modular (cancel_during 3) demo_target
                                            get_mock_test_vectors (3 # 10) ∅)))
                 "vulnerabilities" in
  let d := result_dict (Ok (default VNone (found !! 1%nat))) in
  (result_dict (fst (run modular (cancel_during 3) demo_target
                       get_mock_test_vectors (3 # 10) ∅)) !! "vulnerabilities"
     = Some (VList found) /\
   found !! 1%nat = Some (VDict d) /\ d !! "id" = Some (VStr "VULN-2")) /\
  1%nat = 1%nat.
Proof.
  intros found d.
  assert (H : result_dict (fst (run modular (cancel_during 3) demo_target
                                  get_mock_test_vectors (3 # 10) ∅))
                !! "vulnerabilities" = Some (VList found))
    by (vm_compute; reflexivity).
  assert (H1 : found !! 1%nat = Some (VDict d)) by (vm_compute; reflexivity).
  assert (Hid : d !! "id" = Some (VStr "VULN-2")) by (vm_compute; reflexivity).
  split; [by repeat split|].
  exact (vulnerability_ids_are_distinct modular (cancel_during 3) demo_target
           get_mock_test_vectors (3 # 10) ∅ found 1 1 d d H H1 H1 eq_refl).
Defined.

(** ** The session keys a run touches *)

Lemma worker_key_progress (f : source) : "progress" ∈ worker_keys f.
Proof. destruct f; simpl; set_solver. Qed.

Lemma worker_key_found (f : source) : "vulnerabilities_found" ∈ worker_keys f.
Proof. destruct f; simpl; set_solver. Qed.

Lemma worker_key_running (f : source) : "running_test" ∈ worker_keys f.
Proof. destruct f; simpl; set_solver. Qed.

Section Footprint.
Variable f : source.
Variable E : env.
Variable P : gmap string pyval -> Prop.
Hypothesis Hrender : forall (p : point) (s : gmap string pyval),
  P s -> P (rendering_thread E p s).
Hypothesis Hstore : forall (k : string) (v : pyval) (s : gmap string pyval),
  k ∈ worker_keys f -> P s -> P (<[k := v]> s).

Lemma keeps_ret {A : Type} (a : A) : keeps f P (ret a).
Proof. by intros w Hw. Qed.

Lemma keeps_raise {A : Type} (e : exn) : keeps f P (raise e : M A).
Proof. by intros w Hw. Qed.

Lemma keeps_bind {A B : Type} (m : M A) (g : A -> M B) :
  keeps f P m -> (forall a, keeps f P (g a)) -> keeps f P (bind m g).
Proof.
  intros Hm Hg w Hw. unfold bind. specialize (Hm w Hw).
  destruct (m w) as [[a|e] w']; [by apply Hg | done].
Qed.

Lemma keeps_session_set (k : string) (v : pyval) :
  k ∈ worker_keys f -> keeps f P (session_set k v).
Proof.
  intros Hk w [Hh Hs]. split; simpl; [|by apply Hstore].
  apply Forall_app. split; [done|]. by constructor.
Qed.

Lemma keeps_session_get (cls k : string) :
  k ∈ worker_keys f -> keeps f P (session_get cls k).
Proof.
  intros Hk w [Hh Hs]. unfold session_get.
  destruct (session w !! k); [|done]. split; simpl; [|done].
  apply Forall_app. split; [done|]. by constructor.
Qed.

Lemma keeps_interleave (p : point) : keeps f P (interleave E p).
Proof. intros w [Hh Hs]. split; simpl; [done | by apply Hrender]. Qed.

Lemma keeps_time_sleep (i : nat) (secs : Q) : keeps f P (time_sleep E i secs).
Proof.
  unfold time_sleep. destruct (Qlt_bool secs 0);
    [apply keeps_raise | apply keeps_interleave].
Qed.

Lemma keeps_str_getitem (d : gmap string string) (k : string) :
  keeps f P (str_getitem d k).
Proof. unfold str_getitem. destruct (d !! k); [apply keeps_ret | apply keeps_raise]. Qed.

Lemma keeps_getitem (d : gmap string pyval) (k : string) : keeps f P (getitem d k).
Proof. unfold getitem. destruct (d !! k); [apply keeps_ret | apply keeps_raise]. Qed.

Lemma keeps_add_int (v : pyval) (n : Z) : keeps f P (add_int v n).
Proof. destruct v; first [apply keeps_ret | apply keeps_raise]. Qed.

Lemma keeps_as_list (v : pyval) : keeps f P (as_list v).
Proof. destruct v; first [apply keeps_ret | apply keeps_raise]. Qed.

Lemma keeps_random_choice {A : Type} (i : nat) (l : list A) :
  keeps f P (random_choice E i l).
Proof. destruct l; [apply keeps_raise | apply keeps_ret]. Qed.

Lemma keeps_summary_iadd (r : gmap string pyval) (k : string) (n : Z) :
  keeps f P (summary_iadd r k n).
Proof.
  intros w Hw. by destruct (summary_iadd_out r k n w) as [[e ->]|[sm ->]].
Qed.

Lemma keeps_summary_set (r : gmap string pyval) (k : string) (v : pyval) :
  keeps f P (summary_set r k v).
Proof.
  intros w Hw. by destruct (summary_set_out r k v w) as [[e ->]|[sm ->]].
Qed.

Lemma keeps_for_each {L : Type} (body : nat -> L -> M (ctl * L)) (indices : list nat) :
  (forall i l, keeps f P (body i l)) ->
  forall l, keeps f P (for_each body indices l).
Proof.
  intros Hbody. induction indices as [|i rest IH]; intros l; simpl.
  - apply keeps_ret.
  - apply keeps_bind; [apply Hbody|]. intros [[|] l']; [apply IH | apply keeps_ret].
Qed.

Ltac keeps_step :=
  first
    [ apply keeps_ret | apply keeps_raise
    | apply keeps_str_getitem | apply keeps_getitem | apply keeps_add_int
    | apply keeps_as_list | apply keeps_random_choice
    | apply keeps_summary_iadd | apply keeps_summary_set
    | apply keeps_interleave | apply keeps_time_sleep
    | apply keeps_session_set;
        first [apply worker_key_progress | apply worker_key_found
              | apply worker_key_running]
    | apply keeps_session_get;
        first [apply worker_key_progress | apply worker_key_found
              | apply worker_key_running]
    | apply keeps_bind; [| intros ?] ].

Lemma keeps_find_vulnerability (target : gmap string string)
    (test_vectors : list (gmap string string)) (i : nat) (r : gmap string pyval) :
  keeps f P (find_vulnerability f E target test_vectors i r).
Proof. unfold find_vulnerability. repeat keeps_step. Qed.

Lemma keeps_tick (target : gmap string string)
    (test_vectors : list (gmap string string)) (step_sleep : Q) (i : nat)
    (r : gmap string pyval) :
  keeps f P (tick f E target test_vectors step_sleep i r).
Proof.
  unfold tick.
  apply keeps_bind; [keeps_step | intros _].
  apply keeps_bind; [keeps_step | intros running].
  destruct (negb (truthy running)); [keeps_step|].
  apply keeps_bind; [keeps_step | intros _].
  apply keeps_bind; [keeps_step | intros _].
  destruct (Qlt_bool (random_random E i) (2 # 10)); [|keeps_step].
  apply keeps_bind; [apply keeps_find_vulnerability | intros; keeps_step].
Qed.

End Footprint.

Lemma keeps_try (f : source) (E : env) (P : gmap string pyval -> Prop)
    (target : gmap string string)
    (test_vectors : list (gmap string string)) (duration : Q) :
  (forall (p : point) (s : gmap string pyval), P s -> P (rendering_thread E p s)) ->
  (forall (k : string) (v : pyval) (s : gmap string pyval),
     k ∈ worker_keys f -> P s -> P (<[k := v]> s)) ->
  keeps f P (run_mock_test_try f E target test_vectors duration).
Proof.
  intros Hrender Hstore. unfold run_mock_test_try.
  apply keeps_bind;
    [apply keeps_session_set; [done | apply worker_key_progress] | intros _].
  apply keeps_bind;
    [apply keeps_session_set; [done | apply worker_key_found] | intros _].
  apply keeps_bind;
    [apply keeps_session_set; [done | apply worker_key_running] | intros _].
  apply keeps_bind; [apply keeps_str_getitem | intros target_name]. cbv zeta.
  apply keeps_bind; [apply keeps_for_each; intros; by apply keeps_tick | intros r].
  apply keeps_bind; [apply keeps_summary_set | intros r'].
  destruct f; [apply keeps_ret|]. cbv zeta.
  apply keeps_bind; [apply keeps_str_getitem | intros target_name'].
  apply keeps_bind; [|intros; apply keeps_ret].
  apply keeps_session_set; [done|]. simpl. set_solver.
Qed.

(** [X15] The session keys a run touches.  Every read and write of the
    session state that [run_mock_test] makes in its [try] and [finally]
    blocks is on [progress], [vulnerabilities_found] or [running_test] (or,
    in src/guared.py, a write of [test_results]).  [error_message] is
    written only when the [try] block raised, once, with the text
    [Test execution failed: <str(e)>], and that write is directly followed
    by the final reset of [running_test]. *)
Theorem run_accesses_only_its_session_keys
    (f : source) (E : env) (target : gmap string string)
    (test_vectors : list (gmap string string)) (duration : Q)
    (s : gmap string pyval) :
  let h := history (snd (run f E target test_vectors duration s)) in
  match fst (run_mock_test_try f E target test_vectors duration (World s [])) with
  | Ok _ => Forall (fun e => event_key e ∈ worker_keys f) h
  | Raised e =>
      exists h0 : list event,
        h = h0 ++ [Stored "error_message"
                     (VStr ("Test execution failed: " +:+ exn_str e));
                   Stored "running_test" (VBool false)] /\
        Forall (fun e => event_key e ∈ worker_keys f) h0
  end.
Proof.
  pose proof (keeps_try f E (fun _ => True) target test_vectors duration
                (fun _ _ _ => I) (fun _ _ _ _ _ => I) (World s [])) as Htry.
  unfold run, run_mock_test, try_finally, try_except.
  destruct (run_mock_test_try f E target test_vectors duration (World s []))
    as [[v|e] w'].
  - simpl in *. destruct Htry as [Hh _]; [by split|].
    apply Forall_app. split; [done|].
    constructor; [apply worker_key_running | constructor].
  - simpl in Htry. destruct Htry as [Hh _]; [by split|].
    exists (history w'). split; [|done].
    destruct f; simpl; by rewrite <- app_assoc.
Qed.

(** [X16] A run leaves the rest of the session state alone: a key other
    than [progress], [vulnerabilities_found], [running_test],
    [error_message] (and [test_results] in src/guared.py) whose value the
    rendering thread does not change during the run has, when
    [run_mock_test] returns, the value it had (or is absent as it was) when
    the run started. *)
Theorem run_leaves_other_keys_unchanged
    (f : source) (E : env) (target : gmap string string)
    (test_vectors : list (gmap string string)) (duration : Q)
    (s : gmap string pyval) (k : string) :
  k ∉ worker_keys f ->
  k <> "error_message"%string ->
  leaves_alone E k ->
  session (snd (run f E target test_vectors duration s)) !! k = s !! k.
Proof.
  intros Hk Herr HE.
  assert (Hrunning : k <> "running_test"%string).
  { intros ->. apply Hk, worker_key_running. }
  pose proof (keeps_try f E (fun s' => s' !! k = s !! k) target test_vectors duration)
    as Htry.
  specialize (Htry (fun p s' Hs => eq_trans (HE p s') Hs)).
  assert (Hstore : forall (k' : string) (v : pyval) (s' : gmap string pyval),
            k' ∈ worker_keys f -> s' !! k = s !! k -> <[k' := v]> s' !! k = s !! k).
  { intros k' v s' Hk' Hs'. rewrite lookup_insert_ne; [done|]. by intros ->. }
  specialize (Htry Hstore (World s [])).
  unfold run, run_mock_test, try_finally, try_except.
  destruct (run_mock_test_try f E target test_vectors duration (World s []))
    as [[v|e] w'].
  - simpl in *. destruct Htry as [_ Hs]; [by split|].
    by rewrite lookup_insert_ne by done.
  - simpl in Htry. destruct Htry as [_ Hs]; [by split|].
    destruct f; simpl; by rewrite !lookup_insert_ne by done.
Qed.

Lemma run_leaves_other_keys_unchanged_witness :
  (("current_theme"%string ∉ worker_keys guared) /\
   "current_theme"%string <> "error_message"%string /\
   leaves_alone (cancel_during 3) "current_theme") /\
  session (snd (run guared (cancel_during 3) demo_target get_mock_test_vectors
                  (3 # 10) (initialize_session_state ∅))) !! "current_theme"
    = initialize_session_state ∅ !! "current_theme".
Proof.
  assert (Hk : "current_theme"%string ∉ worker_keys guared)
    by (apply (bool_decide_unpack _); vm_compute; exact I).
  assert (Herr : "current_theme"%string <> "error_message"%string) by done.
  assert (HE : leaves_alone (cancel_during 3) "current_theme").
  { intros [i|i] s; simpl; [done|].
    destruct (Nat.eqb i 3); [|done]. by rewrite lookup_insert_ne by done. }
  split; [done|].
  exact (run_leaves_other_keys_unchanged guared (cancel_during 3) demo_target
           get_mock_test_vectors (3 # 10) (initialize_session_state ∅)
           "current_theme" Hk Herr HE).
Defined.

(** ** Runs whose sleep is refused *)

Lemma negative_step (duration : Q) :
  (duration < 0)%Q ->
  Qlt_bool (duration / inject_Z (Z.of_nat total_steps)) 0 = true.
Proof.
  intros Hd. unfold Qlt_bool. apply negb_true_iff.
  destruct (Qle_bool 0 (duration / inject_Z (Z.of_nat total_steps))) eqn:Hle; [|done].
  apply Qle_bool_iff in Hle.
  change (inject_Z (Z.of_nat total_steps)) with (100 # 1)%Q in Hle.
  unfold Qdiv in Hle. change (/ (100 # 1))%Q with (1 # 100)%Q in Hle. lra.
Qed.

Lemma first_tick_of_loop {L : Type} (body : nat -> L -> M (ctl * L)) (l : L) :
  for_each body (seq 0 total_steps) l
  = bind (body 0%nat l)
      (fun r => match r with
                | (Break, l') => ret l'
                | (Continue, l') => for_each body (seq 1 99) l'
                end).
Proof. reflexivity. Qed.

(** When [time.sleep] refuses the step, the run ends in its first tick:
    cancelled at the first check, or failed at the first sleep. *)
Lemma refused_sleep_outcomes (f : source) (E : env) (target : gmap string string)
    (test_vectors : list (gmap string string)) (duration : Q)
    (s : gmap string pyval) :
  Qlt_bool (duration / inject_Z (Z.of_nat total_steps)) 0 = true ->
  let tried :=
    fst (run_mock_test_try f E target test_vectors duration (World s [])) in
  let out := fst (run f E target test_vectors duration s) in
  let w := snd (run f E target test_vectors duration s) in
  progress_writes (history w) = [VInt 0] /\
  (length (flag_reads (history w)) <= 1)%nat /\
  sublist (result_dict out) "vulnerabilities" = [] /\
  (forall v : pyval,
     flag_reads (history w) = [v] -> truthy v = true ->
     result_dict out !! "error" = Some (VBool true) /\
     result_dict out !! "summary" = None) /\
  (returned tried = true ->
   exists r sm : gmap string pyval,
     out = Ok (VDict r) /\
     r !! "vulnerabilities" = Some (VList []) /\
     r !! "summary" = Some (VDict sm) /\
     sm !! "vulnerabilities_found" = Some (VInt 0)) /\
  (leaves_alone E "vulnerabilities_found" ->
   session w !! "vulnerabilities_found" = Some (VInt 0)).
Proof.
  intros Hstep tried out w. subst tried out w.
  unfold run, run_mock_test, try_finally, try_except, run_mock_test_try,
    str_getitem.
  destruct (target !! "name") as [name|] eqn:Hname;
    cbv beta iota zeta delta [bind ret raise session_set run_mock_test_except
                                run_mock_test_finally];
    cbn [session history fst snd].
  2:{ destruct f; cbn; repeat split; try done; try lia; intros _;
        repeat (rewrite lookup_insert_ne by done); by rewrite lookup_insert_eq. }
  rewrite first_tick_of_loop. unfold tick, time_sleep. rewrite Hstep.
  cbv beta iota zeta delta [bind ret raise session_set interleave session_get];
    cbn [session history fst snd].
  destruct (rendering_thread E (BeforeCheck 0) _ !! "running_test") as [v|] eqn:Hv.
  2:{ destruct f; cbn; repeat split; try done; try lia; intros HE;
        repeat (rewrite lookup_insert_ne by done);
        by rewrite HE, lookup_insert_ne, lookup_insert_eq by done. }
  destruct (truthy v) eqn:Htruthy; cbn [negb].
  - destruct f; cbn; repeat split; try done; try lia; intros HE;
      repeat (rewrite lookup_insert_ne by done);
      by rewrite HE, lookup_insert_ne, lookup_insert_eq by done.
  - destruct f.
    + rewrite (summary_set_dict _ _ _ _ (lookup_insert_eq _ _ _)).
      unfold ret, sublist. cbn.
      rewrite lookup_insert_ne, lookup_insert_ne, lookup_insert_eq by done.
      repeat split; try done; try lia.
      * intros; simplify_eq; congruence.
      * intros; simplify_eq; congruence.
      * intros _. eexists _, _. split; [reflexivity|].
        split; [by rewrite lookup_insert_ne, lookup_insert_ne, lookup_insert_eq by done|].
        split; [by rewrite lookup_insert_eq|].
        by rewrite lookup_insert_ne, lookup_insert_ne, lookup_insert_eq by done.
      * intros HE. rewrite lookup_insert_ne by done.
        by rewrite HE, lookup_insert_ne, lookup_insert_eq by done.
    + rewrite (summary_set_dict _ _ _ _ (lookup_insert_eq _ _ _)).
      unfold ret, sublist. cbn.
      rewrite !lookup_insert_ne, lookup_insert_eq by done.
      repeat split; try done; try lia.
      * intros; simplify_eq; congruence.
      * intros; simplify_eq; congruence.
      * intros _. eexists _, _. split; [reflexivity|].
        split; [by rewrite !lookup_insert_ne, lookup_insert_eq by done|].
        split; [by rewrite !lookup_insert_ne, lookup_insert_eq by done|].
        by rewrite lookup_insert_ne, lookup_insert_ne, lookup_insert_eq by done.
      * intros HE. rewrite !lookup_insert_ne by done.
        by rewrite HE, lookup_insert_ne, lookup_insert_eq by done.
Qed.

(** [X17] A duration of minus one second or less never advances the
    progress.  ([time.sleep] refuses a negative step; the bound keeps the
    step, a hundredth of the duration, away from the negative durations so
    close to zero that the quotient rounds to zero.)  The only write to
    [progress] of the whole run is the initial reset to 0, the flag is read
    at most once, and the result holds no vulnerability.  If the flag was
    read and found true, the run fails and returns an error result. *)
Theorem negative_duration_makes_no_progress
    (f : source) (E : env) (target : gmap string string)
    (test_vectors : list (gmap string string)) (duration : Q)
    (s : gmap string pyval) :
  (duration <= -1)%Q ->
  let out := fst (run f E target test_vectors duration s) in
  let h := history (snd (run f E target test_vectors duration s)) in
  progress_writes h = [VInt 0] /\
  (length (flag_reads h) <= 1)%nat /\
  sublist (result_dict out) "vulnerabilities" = [] /\
  (forall v : pyval,
     flag_reads h = [v] -> truthy v = true ->
     result_dict out !! "error" = Some (VBool true) /\
     result_dict out !! "summary" = None).
Proof.
  intros Hd out h.
  assert (Hstep : Qlt_bool (duration / inject_Z (Z.of_nat total_steps)) 0 = true)
    by (apply negative_step; lra).
  destruct (refused_sleep_outcomes f E target test_vectors duration s Hstep)
    as (Hpw & Hfr & Hfound & Herr & _).
  done.
Qed.

Lemma negative_duration_makes_no_progress_witness :
  (-5 <= -1)%Q /\
  let out := fst (run modular undisturbed demo_target get_mock_test_vectors (-5) ∅) in
  let h := history (snd (run modular undisturbed demo_target get_mock_test_vectors
                           (-5) ∅)) in
  progress_writes h = [VInt 0] /\
  (length (flag_reads h) <= 1)%nat /\
  sublist (result_dict out) "vulnerabilities" = [] /\
  (forall v : pyval,
     flag_reads h = [v] -> truthy v = true ->
     result_dict out !! "error" = Some (VBool true) /\
     result_dict out !! "summary" = None).
Proof.
  assert (Hd : (-5 <= -1)%Q) by (unfold Qle; simpl; lia).
  split; [exact Hd|].
  exact (negative_duration_makes_no_progress modular undisturbed demo_target
           get_mock_test_vectors (-5) ∅ Hd).
Defined.

(** [X12] On well-formed input nothing but [time.sleep] can make a run
    fail.  When the target has a [name], the list of test vectors is not
    empty and each vector has [id], [name] and [severity], and the rendering
    thread neither removes [running_test] nor touches
    [vulnerabilities_found], then, whatever the duration, either the [try]
    block of [run_mock_test] ends without an exception (the run completes
    or is cancelled) and on return the shared counter
    [vulnerabilities_found] equals the number of vulnerabilities in the
    result, which is also the count in its summary; or the run failed in
    its first tick, before any progress: the flag was read at most once,
    [progress] was only reset to 0, the result is an error result and the
    counter is 0. *)
Theorem well_formed_run_fails_only_in_first_sleep
    (f : source) (E : env) (target : gmap string string)
    (test_vectors : list (gmap string string)) (duration : Q)
    (s : gmap string pyval) :
  is_Some (target !! "name") ->
  test_vectors <> [] ->
  Forall complete_vector test_vectors ->
  well_behaved E ->
  let tried :=
    fst (run_mock_test_try f E target test_vectors duration (World s [])) in
  let out := fst (run f E target test_vectors duration s) in
  let w := snd (run f E target test_vectors duration s) in
  (returned tried = true /\
   exists (r : gmap string pyval) (found : list pyval) (sm : gmap string pyval),
     out = Ok (VDict r) /\
     r !! "vulnerabilities" = Some (VList found) /\
     r !! "summary" = Some (VDict sm) /\
     sm !! "vulnerabilities_found" = Some (VInt (Z.of_nat (length found))) /\
     session w !! "vulnerabilities_found" = Some (VInt (Z.of_nat (length found))))
  \/
  (returned tried = false /\
   (length (flag_reads (history w)) <= 1)%nat /\
   progress_writes (history w) = [VInt 0] /\
   result_dict out !! "error" = Some (VBool true) /\
   session w !! "vulnerabilities_found" = Some (VInt 0)).
Proof.
  intros Hname Hne Hvectors HE tried out w.
  destruct (Qlt_bool (duration / inject_Z (Z.of_nat total_steps)) 0) eqn:Hstep.
  - destruct (refused_sleep_outcomes f E target test_vectors duration s Hstep)
      as (Hpw & Hfr & _ & _ & Hret & Hcount).
    fold tried out w in Hpw, Hfr, Hret, Hcount.
    specialize (Hcount (proj2 HE)).
    destruct (returned tried) eqn:Htried.
    + left. split; [done|].
      destruct (Hret eq_refl) as (r & sm & Hout & Hfound & Hs & Hsm).
      by exists r, [], sm.
    + right. do 3 (split; [done|]). split; [|done].
      destruct (run_outcome f E target test_vectors duration (World s []))
        as (_ & _ & _ & _ & Hout).
      fold tried in Hout. destruct tried as [v|e]; [done|].
      destruct Hout as (r & Hr & Herr & _). subst out. unfold run.
      by rewrite Hr.
  - left.
    pose proof (try_counted f E target test_vectors duration (World s [])
                  Hname Hne Hvectors Hstep HE) as Htry.
    unfold wp in Htry. subst tried out w.
    unfold run, run_mock_test, try_finally, try_except.
    destruct (run_mock_test_try f E target test_vectors duration (World s []))
      as [res w'].
    simpl in Htry.
    destruct Htry as (r & found & sm & -> & Hfound & Hs & Hsm & Hcount).
    simpl. split; [done|].
    exists r, found, sm. do 4 (split; [done|]).
    by rewrite lookup_insert_ne by done.
Qed.

Lemma well_formed_run_fails_only_in_first_sleep_witness :
  (is_Some (demo_target !! "name") /\ get_mock_test_vectors <> []
   /\ Forall complete_vector get_mock_test_vectors
   /\ well_behaved (cancel_during 3)) /\
  let tried :=
    fst (run_mock_test_try modular (cancel_during 3) demo_target
           get_mock_test_vectors (3 # 10) (World ∅ [])) in
  let out := fst (run modular (cancel_during 3) demo_target get_mock_test_vectors
                    (3 # 10) ∅) in
  let w := snd (run modular (cancel_during 3) demo_target get_mock_test_vectors
                  (3 # 10) ∅) in
  (returned tried = true /\
   exists (r : gmap string pyval) (found : list pyval) (sm : gmap string pyval),
     out = Ok (VDict r) /\
     r !! "vulnerabilities" = Some (VList found) /\
     r !! "summary" = Some (VDict sm) /\
     sm !! "vulnerabilities_found" = Some (VInt (Z.of_nat (length found))) /\
     session w !! "vulnerabilities_found" = Some (VInt (Z.of_nat (length found))))
  \/
  (returned tried = false /\
   (length (flag_reads (history w)) <= 1)%nat /\
   progress_writes (history w) = [VInt 0] /\
   result_dict out !! "error" = Some (VBool true) /\
   session w !! "vulnerabilities_found" = Some (VInt 0)).
Proof.
  assert (Hname : is_Some (demo_target !! "name")) by (by eexists).
  assert (Hne : get_mock_test_vectors <> []) by discriminate.
  split.
  { split; [exact Hname|]. split; [exact Hne|].
    split; [exact get_mock_test_vectors_complete
           | exact (cancel_during_well_behaved 3)]. }
  exact (well_formed_run_fails_only_in_first_sleep modular (cancel_during 3)
           demo_target get_mock_test_vectors (3 # 10) ∅ Hname Hne
           get_mock_test_vectors_complete (cancel_during_well_behaved 3)).
Defined.

(** [X18] A target without a [name] makes the run fail before the loop.
    [run_mock_test] then returns an error result whose [error_message] is
    ['name'] (the text of the [KeyError]), the session's [error_message] is
    [Test execution failed: 'name'], the flag is never read, [progress] is
    only reset to 0 and is 0 at return, and [running_test] is [False] at
    return. *)
Theorem target_without_name_fails_before_the_loop
    (f : source) (E : env) (target : gmap string string)
    (test_vectors : list (gmap string string)) (duration : Q)
    (s : gmap string pyval) :
  target !! "name" = None ->
  let out := fst (run f E target test_vectors duration s) in
  let w := snd (run f E target test_vectors duration s) in
  result_dict out !! "error" = Some (VBool true) /\
  result_dict out !! "error_message" = Some (VStr "'name'") /\
  result_dict out !! "vulnerabilities" = None /\
  session w !! "error_message" = Some (VStr "Test execution failed: 'name'") /\
  session w !! "running_test" = Some (VBool false) /\
  session w !! "progress" = Some (VInt 0) /\
  flag_reads (history w) = [] /\
  progress_writes (history w) = [VInt 0].
Proof.
  intros Hname out w. subst out w.
  unfold run, run_mock_test, try_finally, try_except, run_mock_test_try,
    str_getitem.
  rewrite Hname.
  destruct f; cbn; repeat split;
    repeat (rewrite lookup_insert_ne by done);
    rewrite ?lookup_insert_eq, ?lookup_singleton_ne by done; done.
Qed.

Lemma target_without_name_fails_before_the_loop_witness :
  (∅ : gmap string string) !! "name" = None /\
  let out := fst (run guared undisturbed ∅ get_mock_test_vectors (3 # 10) ∅) in
  let w := snd (run guared undisturbed ∅ get_mock_test_vectors (3 # 10) ∅) in
  result_dict out !! "error" = Some (VBool true) /\
  result_dict out !! "error_message" = Some (VStr "'name'") /\
  result_dict out !! "vulnerabilities" = None /\
  session w !! "error_message" = Some (VStr "Test execution failed: 'name'") /\
  session w !! "running_test" = Some (VBool false) /\
  session w !! "progress" = Some (VInt 0) /\
  flag_reads (history w) = [] /\
  progress_writes (history w) = [VInt 0].
Proof.
  assert (Hname : (∅ : gmap string string) !! "name" = None) by reflexivity.
  split; [exact Hname|].
  exact (target_without_name_fails_before_the_loop guared undisturbed ∅
           get_mock_test_vectors (3 # 10) ∅ Hname).
Defined.

(** ** Cleaning up the tracked handles *)

Lemma keep_alive_again (l kept : list pyval) :
  keep_alive l = Ok kept -> keep_alive kept = Ok kept.
Proof.
  revert kept. induction l as [|thr rest IH]; intros kept; simpl.
  - by intros [= <-].
  - destruct (is_alive thr) as [b|e] eqn:Hthr; [|done].
    destruct (keep_alive rest) as [kept'|e] eqn:Hrest; [|done].
    intros [= <-]. destruct b; [|by apply IH].
    simpl. by rewrite Hthr, (IH kept').
Qed.

Lemma filter_alive_again (active : pyval) (kept : list pyval) :
  filter_alive active = Ok kept -> filter_alive (VList kept) = Ok kept.
Proof.
  unfold filter_alive. destruct (iterate active) as [l|e]; [|done].
  simpl. apply keep_alive_again.
Qed.

(** [X19] [cleanup_threads] is idempotent and touches nothing but
    [active_threads]: as long as no tracked thread changes state in
    between, a second call leaves the session state as the first call left
    it, and every other key keeps its value.  This holds for every session
    state, whatever is stored under [active_threads]. *)
Theorem cleanup_threads_is_idempotent (f : source) (s : gmap string pyval) :
  cleanup_threads f (cleanup_threads f s) = cleanup_threads f s /\
  forall k : string,
    k <> "active_threads"%string -> cleanup_threads f s !! k = s !! k.
Proof.
  split.
  - destruct f; unfold cleanup_threads.
    + destruct (filter_alive (default (VList []) (s !! "active_threads")))
        as [kept|e] eqn:Hfirst; [|by rewrite Hfirst].
      rewrite lookup_insert_eq. simpl.
      rewrite (filter_alive_again _ _ Hfirst). apply insert_insert_eq.
    + destruct (s !! "active_threads") as [active|] eqn:Hs; [|by rewrite Hs].
      destruct (filter_alive active) as [kept|e] eqn:Hfirst; [|by rewrite Hs, Hfirst].
      rewrite lookup_insert_eq.
      rewrite (filter_alive_again _ _ Hfirst). apply insert_insert_eq.
  - intros k Hk. destruct f; unfold cleanup_threads.
    + destruct (filter_alive _); [by rewrite lookup_insert_ne | done].
    + destruct (s !! "active_threads"); [|done].
      destruct (filter_alive _); [by rewrite lookup_insert_ne | done].
Qed.

(** [X20] On a list of threads [cleanup_threads] keeps exactly the threads
    that are alive, in their order: if [active_threads] holds threads with
    the liveness [states], afterwards it holds the threads of the alive
    ones, and none of the kept handles is finished. *)
Theorem cleanup_threads_keeps_the_alive_threads
    (f : source) (s : gmap string pyval) (states : list bool) :
  s !! "active_threads"
    = Some (VList (map (fun alive => VHandle (Thread alive)) states)) ->
  cleanup_threads f s !! "active_threads"
    = Some (VList (map (fun alive => VHandle (Thread alive))
                       (List.filter (fun alive : bool => alive) states))) /\
  forallb (fun v => negb (finished_handle v))
    (sublist (cleanup_threads f s) "active_threads") = true.
Proof.
  intros Hs.
  assert (Hkept : cleanup_threads f s
            = <["active_threads" :=
                  VList (map (fun alive => VHandle (Thread alive))
                             (List.filter (fun alive : bool => alive) states))]> s).
  { destruct f; unfold cleanup_threads; rewrite Hs; simpl;
      unfold filter_alive; simpl; by rewrite keep_alive_threads. }
  rewrite Hkept. unfold sublist. rewrite lookup_insert_eq. split; [done|].
  clear. induction states as [|[|] states IH]; simpl; done.
Qed.

Lemma cleanup_threads_keeps_the_alive_threads_witness :
  let s : gmap string pyval :=
    {[ "active_threads" :=
         VList (map (fun alive => VHandle (Thread alive)) [true; false; true]) ]} in
  s !! "active_threads"
    = Some (VList (map (fun alive => VHandle (Thread alive)) [true; false; true])) /\
  cleanup_threads modular s !! "active_threads"
    = Some (VList (map (fun alive => VHandle (Thread alive))
                       (List.filter (fun alive : bool => alive) [true; false; true]))) /\
  forallb (fun v => negb (finished_handle v))
    (sublist (cleanup_threads modular s) "active_threads") = true.
Proof.
  intros s.
  assert (Hs : s !! "active_threads"
    = Some (VList (map (fun alive => VHandle (Thread alive)) [true; false; true])))
    by (vm_compute; reflexivity).
  split; [exact Hs|].
  exact (cleanup_threads_keeps_the_alive_threads modular s [true; false; true] Hs).
Defined.
